(** * DividendHunterPro: dividend-frequency inference and portfolio calendar

    A shallow embedding of the two pieces of domain logic of the
    repository:

    - [DividendAnalyzer.analyze_dividend_frequency] and
      [DividendAnalyzer.get_asset_metrics]   (modulo1_ingenieria_datos.py)
    - [DatabaseManager._parse_payment_months] (modulo2_persistencia_datos.py)
    - [DividendHunterApp._calculate_monthly_dividends] and the tax loop of
      [DividendHunterApp._portfolio_calendar_tab]              (app.py)

    and of the code around them: [DatabaseManager._format_payment_months]
    and the methods of [DatabaseManager] on the table of assets
    ([upsert_asset], [get_asset], [delete_asset], [update_platforms],
    [get_platforms]); [ErrorHandler.validate_ticker_symbol] and
    [DataValidator.validate_asset_metrics] (modulo5_refactorizacion.py);
    the loop of [_process_tickers_batch], the totals of
    [_display_dividend_calendar] and of [_portfolio_summary_tab] (app.py).

    Modelling conventions.
    - Python [float] currency values are exact rationals ([Q]); equalities
      between amounts are stated with [Qeq].  Binary64 rounding is outside
      the model; the only rounding that is modelled is the explicit
      [round(x, 2)] of the source.  What depends on the rounding of
      binary64 is stated apart: [FloatAnalyzer] is the body of
      [get_asset_metrics] over the float operations taken as parameters,
      and [Binary64] is the arithmetic of the tax loop on the kernel's
      binary64 floats.
    - A pandas [Timestamp] is its integer nanosecond value ([Z]).
    - Python [dict]s are stdpp [gmap]s; a failed subscript raises [KeyError],
      which the model makes explicit in a small exception monad.
    - Python [str] is [string]; the character classes used by [strip],
      [isdigit], [upper] and [isalnum] are the ASCII ones.
    - The table of assets is the map from its primary key to the row; the
      SQL statements are read as operations on this map. *)

From Stdlib Require Import ZArith QArith Qround String Ascii List Lia.
From Stdlib Require PrimFloat.
From stdpp Require Import gmap strings pretty list sorting fin_maps fin_sets.
Import ListNotations.

Local Open Scope string_scope.
Local Open Scope Z_scope.

#[local] Set Warnings "-clear-no-such-hyp".

(** ** Exceptions *)

Inductive exn : Type :=
| KeyError
| FeedError.

Inductive result (A : Type) : Type :=
| Returned (a : A)
| Raised (e : exn).
Arguments Returned {A} a.
Arguments Raised {A} e.

#[global] Instance result_ret : MRet result := fun A => @Returned A.

#[global] Instance result_bind : MBind result := fun A B k r =>
  match r with
  | Returned a => k a
  | Raised e => Raised e
  end.

#[global] Instance result_fmap : FMap result := fun A B f r =>
  match r with
  | Returned a => Returned (f a)
  | Raised e => Raised e
  end.

(** [try: r except: d] *)
Definition try_except {A : Type} (r : result A) (d : A) : A :=
  match r with
  | Returned a => a
  | Raised _ => d
  end.

(** ** Python helpers shared by the modules *)

(** [sorted(list(set(l)))] on integers: insertion into a strictly
    increasing list. *)
Fixpoint insert_sorted (x : Z) (l : list Z) : list Z :=
  match l with
  | [] => [x]
  | y :: r =>
      if x <? y then x :: y :: r
      else if x =? y then y :: r
      else y :: insert_sorted x r
  end.

Definition sorted_set (l : list Z) : list Z :=
  fold_right insert_sorted [] l.

(** [round(x, 2)]: to the nearest hundredth, ties to the even one. *)
Definition round_half_even (x : Q) : Z :=
  let f := Qfloor x in
  let d := (x - inject_Z f)%Q in
  match (d ?= 1 # 2)%Q with
  | Lt => f
  | Gt => f + 1
  | Eq => if Z.even f then f else f + 1
  end.

Definition round2 (x : Q) : Q := (round_half_even (x * 100) # 100)%Q.

(** Truth value of a Python float: nonzero. *)
Definition truthy (x : Q) : bool := negb (Qnum x =? 0).

(** ** Timestamps and the calendar *)

Definition ns_per_day : Z := 86400 * 1000000000.

(** [pd.Timedelta(days=n)] *)
Definition Timedelta_days (n : Z) : Z := n * ns_per_day.

(** Day number (days since 1970-01-01) of a timestamp. *)
Definition day_of (t : Z) : Z := t / ns_per_day.

(** [Timestamp.normalize()]: midnight of the same day. *)
Definition normalize (t : Z) : Z := day_of t * ns_per_day.

(** Month (1..12) of a day number in the proleptic Gregorian calendar,
    which is what [Timestamp.month] returns. *)
Definition month_of_day (d : Z) : Z :=
  let z := d + 719468 in
  let era := z / 146097 in
  let doe := z - era * 146097 in
  let yoe := (doe - doe / 1460 + doe / 36524 - doe / 146096) / 365 in
  let doy := doe - (365 * yoe + yoe / 4 - yoe / 100) in
  let mp := (5 * doy + 2) / 153 in
  if mp <? 10 then mp + 3 else mp - 9.

Definition month (t : Z) : Z := month_of_day (day_of t).

(** [Index.unique()]: first occurrences, in order of appearance. *)
Fixpoint unique_from (seen : list Z) (l : list Z) : list Z :=
  match l with
  | [] => []
  | x :: r =>
      if bool_decide (x ∈ seen) then unique_from seen r
      else x :: unique_from (x :: seen) r
  end.

Definition unique (l : list Z) : list Z := unique_from [] l.

(** ** modulo1_ingenieria_datos.py *)

(** A dividend [Series]: the time zone of its [DatetimeIndex] (if any) and
    its rows.  For a zone-aware index the timestamps are the UTC instants,
    so [tz_convert('UTC').tz_localize(None)] keeps the integer values. *)
Record Series : Type := {
  index_tz : option string;
  rows : list (Z * Q)
}.

Definition empty (s : Series) : bool :=
  match rows s with [] => true | _ => false end.

Definition index (s : Series) : list Z := map fst (rows s).

Definition to_utc_naive (s : Series) : Series :=
  {| index_tz := None; rows := rows s |}.

(** [s[s.index >= cutoff]] *)
Definition since (cutoff : Z) (s : Series) : Series :=
  {| index_tz := index_tz s;
     rows := List.filter (fun r => cutoff <=? fst r) (rows s) |}.

(** [float(s.sum())], as the exact sum of the amounts. *)
Definition sum (s : Series) : Q :=
  fold_left (fun acc r => (acc + snd r)%Q) (rows s) (0 : Q)%Q.

(** What the code reads from a [yf.Ticker]: the [info] check of
    [get_ticker_data], the last close of [history(period="1d")], the
    price found in [info], and the [dividends] property, which may raise. *)
Record Ticker : Type := {
  info_ok : bool;
  hist_close : option Q;
  info_price : option Q;
  dividends : result Series
}.

Module DividendAnalyzer.

Definition get_ticker_data (ticker : Ticker) : option Ticker :=
  if info_ok ticker then Some ticker else None.

(** The body of the [try] block; [now] is the value of
    [pd.Timestamp.now()]. *)
Definition analyze_dividend_frequency_body (ticker : Ticker) (now : Z)
  : result string :=
  dividends ← dividends ticker;
  if empty dividends then Returned "sin_dividendos"
  else
    let cutoff_date := now - Timedelta_days 365 in
    let dividends :=
      match index_tz dividends with
      | Some _ => to_utc_naive dividends
      | None => dividends
      end in
    let recent_dividends := since cutoff_date dividends in
    if empty recent_dividends then Returned "sin_dividendos"
    else
      let unique_payment_dates := unique (map normalize (index recent_dividends)) in
      let payment_count := Z.of_nat (length unique_payment_dates) in
      if 10 <=? payment_count then Returned "mensual"
      else if 3 <=? payment_count then Returned "trimestral"
      else Returned "irregular".

Definition analyze_dividend_frequency (ticker : Ticker) (now : Z) : string :=
  try_except (analyze_dividend_frequency_body ticker now) "irregular".

(** The entries of the metrics dictionary that describe dividends.  The
    descriptive entries copied from [info] (name, sector, industry,
    market cap) and the [last_updated] stamp are not modelled. *)
Record Metrics : Type := {
  current_price : Q;
  annual_dividend : Q;
  dividend_yield : Q;
  dividend_frequency : string;
  dividend_payment_months : list Z
}.

Definition price_of (ticker : Ticker) : option Q :=
  match hist_close ticker with
  | Some c => Some c
  | None =>
      match info_price ticker with
      | Some p => if truthy p then Some p else None
      | None => None
      end
  end.

(** The body of the [try] block of [get_asset_metrics], after the price
    was found.  [now1] is the clock read inside
    [analyze_dividend_frequency], [now2] the one read afterwards. *)
Definition get_asset_metrics_body (ticker : Ticker) (current_price : Q)
    (now1 now2 : Z) : result Metrics :=
  let dividend_frequency := analyze_dividend_frequency ticker now1 in
  dividends ← dividends ticker;
  let '(annual_dividend, dividend_yield, payment_months) :=
    if negb (empty dividends) then
      let cutoff_date := now2 - Timedelta_days 365 in
      let dividends :=
        match index_tz dividends with
        | Some _ => to_utc_naive dividends
        | None => dividends
        end in
      let recent_dividends := since cutoff_date dividends in
      let annual_dividend := sum recent_dividends in
      let payment_months :=
        if negb (empty recent_dividends)
        then sorted_set (map month (index recent_dividends))
        else [] in
      let dividend_yield :=
        if truthy current_price
        then (annual_dividend / current_price * 100)%Q else 0%Q in
      (annual_dividend, dividend_yield, payment_months)
    else (0%Q, 0%Q, []) in
  Returned {| current_price := current_price;
              annual_dividend := round2 annual_dividend;
              dividend_yield := round2 dividend_yield;
              dividend_frequency := dividend_frequency;
              dividend_payment_months := payment_months |}.

Definition get_asset_metrics (ticker : Ticker) (now1 now2 : Z)
  : option Metrics :=
  match get_ticker_data ticker with
  | None => None
  | Some ticker =>
      match price_of ticker with
      | None => None
      | Some current_price =>
          match get_asset_metrics_body ticker current_price now1 now2 with
          | Returned m => Some m
          | Raised _ => None
          end
      end
  end.

End DividendAnalyzer.

(** ** The float operations of [get_asset_metrics] as parameters

    [DividendAnalyzer.get_asset_metrics] computes with exact rationals.
    The program computes with binary64 floats: the sum of the window is
    the result of pandas' [Series.sum()], a library routine, and
    [round(x, 2)], [/] and [*] are the operations of Python's [float].
    Here the same body is written over these four operations, taken as
    parameters; a float is read as the rational it denotes.  With the
    exact operations the body is the one above. *)
Module FloatAnalyzer.

Section Arithmetic.

(** [Series.sum()] on the column of amounts, [round(x, 2)], [x / y] and
    [x * y]. *)
Variable Series_sum : list Q -> Q.
Variable round_2 : Q -> Q.
Variable div mul : Q -> Q -> Q.

Definition get_asset_metrics_body (ticker : Ticker) (current_price : Q)
    (now1 now2 : Z) : result DividendAnalyzer.Metrics :=
  let dividend_frequency :=
    DividendAnalyzer.analyze_dividend_frequency ticker now1 in
  dividends ← dividends ticker;
  let '(annual_dividend, dividend_yield, payment_months) :=
    if negb (empty dividends) then
      let cutoff_date := now2 - Timedelta_days 365 in
      let dividends :=
        match index_tz dividends with
        | Some _ => to_utc_naive dividends
        | None => dividends
        end in
      let recent_dividends := since cutoff_date dividends in
      let annual_dividend := Series_sum (map snd (rows recent_dividends)) in
      let payment_months :=
        if negb (empty recent_dividends)
        then sorted_set (map month (index recent_dividends))
        else [] in
      let dividend_yield :=
        if truthy current_price
        then mul (div annual_dividend current_price) 100%Q else 0%Q in
      (annual_dividend, dividend_yield, payment_months)
    else (0%Q, 0%Q, []) in
  Returned {| DividendAnalyzer.current_price := current_price;
              DividendAnalyzer.annual_dividend := round_2 annual_dividend;
              DividendAnalyzer.dividend_yield := round_2 dividend_yield;
              DividendAnalyzer.dividend_frequency := dividend_frequency;
              DividendAnalyzer.dividend_payment_months := payment_months |}.

Definition get_asset_metrics (ticker : Ticker) (now1 now2 : Z)
  : option DividendAnalyzer.Metrics :=
  match DividendAnalyzer.get_ticker_data ticker with
  | None => None
  | Some ticker =>
      match DividendAnalyzer.price_of ticker with
      | None => None
      | Some current_price =>
          match get_asset_metrics_body ticker current_price now1 now2 with
          | Returned m => Some m
          | Raised _ => None
          end
      end
  end.

End Arithmetic.

End FloatAnalyzer.

(** The exact sum of a column of amounts. *)
Definition exact_sum (l : list Q) : Q := fold_left Qplus l 0%Q.

(** Scenario B of the specification, on 2025-01-01. *)
Definition at_day (d : Z) : Z := d * ns_per_day.

Definition scenario_B_history : Series :=
  {| index_tz := Some "America/New_York";
     rows := [ (at_day 19797, (1 # 2)%Q); (at_day 19889, (1 # 2)%Q);
               (at_day 19981, (1 # 2)%Q); (at_day 20072, (1 # 2)%Q) ] |}.

Definition scenario_B : Ticker :=
  {| info_ok := true; hist_close := Some (50 # 1)%Q; info_price := None;
     dividends := Returned scenario_B_history |}.

(** ** Python values read from dictionaries *)

(** The entry of a dictionary under one key: missing, [None], or a value. *)
Inductive field (A : Type) : Type :=
| Absent
| PyNone
| Val (a : A).
Arguments Absent {A}.
Arguments PyNone {A}.
Arguments Val {A} a.

(** ** Python [str] methods (ASCII) *)

Definition is_space (c : ascii) : bool :=
  let n := Z.of_nat (nat_of_ascii c) in
  ((9 <=? n) && (n <=? 13)) || ((28 <=? n) && (n <=? 32)).

Definition is_digit (c : ascii) : bool :=
  let n := Z.of_nat (nat_of_ascii c) in
  (48 <=? n) && (n <=? 57).

Fixpoint lstrip (s : string) : string :=
  match s with
  | EmptyString => EmptyString
  | String c r => if is_space c then lstrip r else s
  end.

Fixpoint rstrip (s : string) : string :=
  match s with
  | EmptyString => EmptyString
  | String c r =>
      match rstrip r with
      | EmptyString => if is_space c then EmptyString else String c EmptyString
      | r' => String c r'
      end
  end.

Definition strip (s : string) : string := lstrip (rstrip s).

(** [s.split(',')] *)
Fixpoint split_comma (s : string) : list string :=
  match s with
  | EmptyString => [EmptyString]
  | String c r =>
      if Ascii.eqb c "," then EmptyString :: split_comma r
      else match split_comma r with
           | h :: t => String c h :: t
           | [] => [String c EmptyString]
           end
  end.

Fixpoint all_digits (s : string) : bool :=
  match s with
  | EmptyString => true
  | String c r => is_digit c && all_digits r
  end.

Definition isdigit (s : string) : bool :=
  match s with
  | EmptyString => false
  | _ => all_digits s
  end.

Fixpoint int_from (acc : Z) (s : string) : Z :=
  match s with
  | EmptyString => acc
  | String c r => int_from (10 * acc + (Z.of_nat (nat_of_ascii c) - 48)) r
  end.

(** [int(s)] for a string of decimal digits *)
Definition int (s : string) : Z := int_from 0 s.

(** [1 <= m <= 12] *)
Definition valid_month (m : Z) : bool := (1 <=? m) && (m <=? 12).

(** [sorted(l)] on integers: insertion into a non-decreasing list. *)
Fixpoint insert_ord (x : Z) (l : list Z) : list Z :=
  match l with
  | [] => [x]
  | y :: r => if x <=? y then x :: y :: r else y :: insert_ord x r
  end.

Definition sorted (l : list Z) : list Z := fold_right insert_ord [] l.

(** [sep.join(l)] *)
Fixpoint join (sep : string) (l : list string) : string :=
  match l with
  | [] => EmptyString
  | [x] => x
  | x :: r => (x ++ sep ++ join sep r)%string
  end.

(** [str(m)] for an integer: its decimal digits, after a minus sign when
    it is negative. *)
Definition str (m : Z) : string := pretty m.

(** [s.upper()] and [s.isalnum()] *)
Definition is_lower (c : ascii) : bool :=
  let n := Z.of_nat (nat_of_ascii c) in (97 <=? n) && (n <=? 122).

Definition is_upper (c : ascii) : bool :=
  let n := Z.of_nat (nat_of_ascii c) in (65 <=? n) && (n <=? 90).

Definition upper_char (c : ascii) : ascii :=
  if is_lower c then ascii_of_nat (nat_of_ascii c - 32) else c.

Fixpoint upper (s : string) : string :=
  match s with
  | EmptyString => EmptyString
  | String c r => String (upper_char c) (upper r)
  end.

Fixpoint all_alnum (s : string) : bool :=
  match s with
  | EmptyString => true
  | String c r => (is_digit c || is_lower c || is_upper c) && all_alnum r
  end.

Definition isalnum (s : string) : bool :=
  match s with
  | EmptyString => false
  | _ => all_alnum s
  end.

(** [len(s)] *)
Definition len (s : string) : Z := Z.of_nat (String.length s).

(** ** modulo2_persistencia_datos.py *)

Module DatabaseManager.

Definition _parse_payment_months (months_str : string) : list Z :=
  if String.eqb months_str "" || String.eqb months_str "nan"
     || String.eqb (strip months_str) ""
  then []
  else
    let months_str := strip months_str in
    let months :=
      fold_left (fun months m =>
                   let m_clean := strip m in
                   if isdigit m_clean then
                     let month_num := int m_clean in
                     if valid_month month_num then (months ++ [month_num])%list
                     else months
                   else months)
                (split_comma months_str) [] in
    sorted_set months.

(** [months] is [None] when the caller has no entry to store. *)
Definition _format_payment_months (months : option (list Z)) : string :=
  match months with
  | None | Some [] => ""
  | Some months => join "," (map str (sorted months))
  end.

End DatabaseManager.

(** ** modulo5_refactorizacion.py *)

Module ErrorHandler.

Definition validate_ticker_symbol (symbol : string) : bool :=
  if String.eqb symbol "" then false
  else
    let symbol := upper (strip symbol) in
    if (len symbol <? 1) || (5 <? len symbol) then false
    else if negb (isalnum symbol) then false
    else true.

End ErrorHandler.

(** ** app.py *)

(** An entry of a [dividend_payment_months] list. *)
Inductive month_item : Type :=
| ItemInt (m : Z)
| ItemStr (m : string)
| ItemOther.

(** The value stored under [dividend_payment_months]: a string, a list, or
    any other object, of which the code uses the truth value and [str()]. *)
Inductive months_data : Type :=
| MonthsStr (s : string)
| MonthsList (l : list month_item)
| MonthsOther (truth : bool) (repr : string).

(** An asset dictionary as returned by the persistence layer. *)
Module Asset.
Record t : Type := {
  symbol : string;
  name : field string;
  annual_dividend : field Q;
  dividend_frequency : field string;
  dividend_payment_months : field months_data
}.
End Asset.

(** A record of the ['assets'] list of a month.  The last three entries are
    added by the tax loop of [_portfolio_calendar_tab]. *)
Module Contribution.
Record t : Type := {
  symbol : string;
  name : option string;
  amount : Q;
  shares : Z;
  amount_before_tax : option Q;
  tax_amount : option Q;
  tax_rate : option Q
}.
End Contribution.

Module Month.
Record t : Type := {
  amount : Q;
  assets : list Contribution.t
}.
End Month.

(** ** modulo2_persistencia_datos.py: the table of assets *)

(** The dictionary passed to [upsert_asset], as [asset_data.get] reads it:
    an entry is [None] when the key is missing or holds [None].  For
    [symbol], [None] is the missing key: the symbol of a dictionary is a
    string.  The entries sector, industry, market_cap and last_updated go
    to their columns as they are and are not modelled. *)
Module AssetData.
Record t : Type := {
  symbol : option string;
  name : option string;
  current_price : option Q;
  annual_dividend : option Q;
  dividend_yield : option Q;
  dividend_frequency : option string;
  dividend_payment_months : option (list Z);
  platforms : option string
}.
End AssetData.

(** A row of the table [assets] without its primary key [symbol]; [None]
    is NULL.  The column [name] is declared NOT NULL. *)
Module Row.
Record t : Type := {
  name : string;
  current_price : option Q;
  annual_dividend : option Q;
  dividend_yield : option Q;
  dividend_frequency : option string;
  dividend_payment_months : option string;
  platforms : option string
}.
End Row.

(** The dictionary returned by [get_asset]: the entries that the calendar
    reads, and the other modelled columns. *)
Module Stored.
Record t : Type := {
  asset : Asset.t;
  current_price : option Q;
  dividend_yield : option Q;
  platforms : option string
}.
End Stored.

(** The value of a column in [dict(row)]: NULL is [None]. *)
Definition column {A : Type} (v : option A) : field A :=
  match v with
  | Some a => Val a
  | None => PyNone
  end.

(** SQL [COALESCE(new, old)] *)
Definition COALESCE {A : Type} (new old : option A) : option A :=
  match new with
  | Some _ => new
  | None => old
  end.

(** The methods of [DatabaseManager] on the table [assets].  The table is
    the map from the primary key [symbol] to the row, and the SQL
    statements are read as operations on it.  The only [sqlite3.Error] of
    the model is the violation of NOT NULL on [name]: the statement then
    changes nothing and the method returns [False]. *)
Module AssetsTable.

(** The values bound to the columns, [None] when [name] is NULL. *)
Definition bound_row (asset_data : AssetData.t) (platforms : option string)
  : option Row.t :=
  name ← AssetData.name asset_data;
  Some {| Row.name := name;
          Row.current_price := AssetData.current_price asset_data;
          Row.annual_dividend := AssetData.annual_dividend asset_data;
          Row.dividend_yield := AssetData.dividend_yield asset_data;
          Row.dividend_frequency := AssetData.dividend_frequency asset_data;
          Row.dividend_payment_months :=
            Some (DatabaseManager._format_payment_months
                    (AssetData.dividend_payment_months asset_data));
          Row.platforms := platforms |}.

Definition upsert_asset (db : gmap string Row.t) (asset_data : AssetData.t)
  : bool * gmap string Row.t :=
  match AssetData.symbol asset_data with
  | None => (false, db)
  | Some symbol =>
      let executed :=
        match db !! symbol with
        | Some old =>
            row ← bound_row asset_data
                    (COALESCE (AssetData.platforms asset_data) (Row.platforms old));
            Some (<[symbol := row]> db)
        | None =>
            row ← bound_row asset_data (AssetData.platforms asset_data);
            Some (<[symbol := row]> db)
        end in
      match executed with
      | None => (false, db)
      | Some db =>
          let verified := bool_decide (is_Some (db !! symbol)) in
          if verified then (true, db) else (false, db)
      end
  end.

Definition get_asset (db : gmap string Row.t) (symbol : string)
  : option Stored.t :=
  match db !! symbol with
  | Some row =>
      let months :=
        match Row.dividend_payment_months row with
        | Some months_str => DatabaseManager._parse_payment_months months_str
        | None => []
        end in
      Some {| Stored.asset :=
                {| Asset.symbol := symbol;
                   Asset.name := Val (Row.name row);
                   Asset.annual_dividend := column (Row.annual_dividend row);
                   Asset.dividend_frequency := column (Row.dividend_frequency row);
                   Asset.dividend_payment_months :=
                     Val (MonthsList (map ItemInt months)) |};
              Stored.current_price := Row.current_price row;
              Stored.dividend_yield := Row.dividend_yield row;
              Stored.platforms := Row.platforms row |}
  | None => None
  end.

Definition delete_asset (db : gmap string Row.t) (symbol : string)
  : bool * gmap string Row.t :=
  (bool_decide (is_Some (db !! symbol)), delete symbol db).

Definition update_platforms (db : gmap string Row.t) (symbol : string)
    (platforms : list string) : bool * gmap string Row.t :=
  let platforms_str :=
    join ", " (map (fun p => upper (strip p))
                   (List.filter (fun p => negb (String.eqb (strip p) "")) platforms)) in
  match db !! symbol with
  | Some row =>
      (true,
       <[symbol := {| Row.name := Row.name row;
                      Row.current_price := Row.current_price row;
                      Row.annual_dividend := Row.annual_dividend row;
                      Row.dividend_yield := Row.dividend_yield row;
                      Row.dividend_frequency := Row.dividend_frequency row;
                      Row.dividend_payment_months := Row.dividend_payment_months row;
                      Row.platforms := Some platforms_str |}]> db)
  | None => (false, db)
  end.

Definition get_platforms (db : gmap string Row.t) (symbol : string)
  : list string :=
  match db !! symbol with
  | Some row =>
      match Row.platforms row with
      | Some platforms =>
          if String.eqb platforms "" then []
          else map strip
                 (List.filter (fun p => negb (String.eqb (strip p) ""))
                              (split_comma platforms))
      | None => []
      end
  | None => []
  end.

End AssetsTable.

(** ** modulo5_refactorizacion.py: the validation of metrics *)

Module DataValidator.

Definition validate_asset_metrics (metrics : AssetData.t) : bool :=
  match AssetData.symbol metrics with
  | None => false
  | Some symbol =>
      if String.eqb symbol "" then false
      else
        match AssetData.current_price metrics with
        | None => false
        | Some price =>
            if Qle_bool price 0 then false
            else
              match AssetData.dividend_yield metrics with
              | None => false
              | Some yield_val =>
                  if negb (Qle_bool 0 yield_val) || negb (Qle_bool yield_val 100)
                  then false
                  else true
              end
        end
  end.

End DataValidator.

(** ** modulo1_ingenieria_datos.py: the dictionary of metrics *)

(** The dictionary that [get_asset_metrics] builds, with the two entries
    that [Metrics] leaves out: ['symbol': symbol.upper()] and
    ['name': info.get('longName', symbol)], where [long_name] is the entry
    'longName' of [info].  The dictionary has no entry 'platforms'. *)
Definition metrics_dict (symbol : string) (long_name : field string)
    (m : DividendAnalyzer.Metrics) : AssetData.t :=
  {| AssetData.symbol := Some (upper symbol);
     AssetData.name :=
       match long_name with
       | Absent => Some symbol
       | PyNone => None
       | Val n => Some n
       end;
     AssetData.current_price := Some (DividendAnalyzer.current_price m);
     AssetData.annual_dividend := Some (DividendAnalyzer.annual_dividend m);
     AssetData.dividend_yield := Some (DividendAnalyzer.dividend_yield m);
     AssetData.dividend_frequency := Some (DividendAnalyzer.dividend_frequency m);
     AssetData.dividend_payment_months :=
       Some (DividendAnalyzer.dividend_payment_months m);
     AssetData.platforms := None |}.

(** The 'Estado' of a ticker in [_process_tickers_batch]. *)
Inductive Estado : Type :=
| SinDatos
| DatosInvalidos
| Exitoso
| ErrorBD.

(** ** app.py: the calendar *)

(** [for x in l: s = body(s, x)], stopping at the first exception. *)
Fixpoint for_each {A S : Type} (l : list A) (body : S -> A -> result S) (s : S)
  : result S :=
  match l with
  | [] => Returned s
  | x :: r => s' ← body s x; for_each r body s'
  end.

Module DividendHunterApp.

(** [{i: {'amount': 0.0, 'assets': []} for i in range(1, 13)}] *)
Definition new_calendar : gmap Z Month.t :=
  list_to_map (map (fun i => (i, {| Month.amount := 0; Month.assets := [] |}))
                   (seqZ 1 12)).

(** [asset.get('annual_dividend', 0) or 0] *)
Definition annual_dividend_or_0 (asset : Asset.t) : Q :=
  match Asset.annual_dividend asset with
  | Val d => if truthy d then d else 0%Q
  | _ => 0%Q
  end.

(** [asset.get('dividend_frequency', 'sin_dividendos')]; [None] is
    Python's [None]. *)
Definition frequency_of (asset : Asset.t) : option string :=
  match Asset.dividend_frequency asset with
  | Absent => Some "sin_dividendos"
  | PyNone => None
  | Val f => Some f
  end.

(** [asset.get('name', symbol)] *)
Definition name_of (asset : Asset.t) : option string :=
  match Asset.name asset with
  | Absent => Some (Asset.symbol asset)
  | PyNone => None
  | Val n => Some n
  end.

(** The parsing of [months_data] (the block under [if months_data:]). *)
Definition parse_months_data (asset : Asset.t) : list Z :=
  match Asset.dividend_payment_months asset with
  | Absent | PyNone => []
  | Val (MonthsStr s) =>
      if String.eqb s "" then [] else DatabaseManager._parse_payment_months s
  | Val (MonthsList l) =>
      fold_left (fun payment_months m =>
                   match m with
                   | ItemInt m =>
                       if valid_month m then (payment_months ++ [m])%list
                       else payment_months
                   | ItemStr m =>
                       if isdigit (strip m) then
                         let m_int := int (strip m) in
                         if valid_month m_int then (payment_months ++ [m_int])%list
                         else payment_months
                       else payment_months
                   | ItemOther => payment_months
                   end) l []
  | Val (MonthsOther truth repr) =>
      if truth then DatabaseManager._parse_payment_months repr else []
  end.

Definition is_freq (frequency : option string) (label : string) : bool :=
  bool_decide (frequency = Some label).

(** The default schedule used when no payment month is stored. *)
Definition default_months (frequency : option string) (payment_months : list Z)
  : list Z :=
  if is_freq frequency "mensual" then seqZ 1 12
  else if is_freq frequency "trimestral" then [3; 6; 9; 12]
  else if is_freq frequency "irregular" then [6; 12]
  else payment_months.

Definition effective_months (asset : Asset.t) : list Z :=
  let payment_months := parse_months_data asset in
  match payment_months with
  | [] => default_months (frequency_of asset) payment_months
  | _ => payment_months
  end.

(** The body of one of the three [for month in payment_months] loops. *)
Definition pay (asset : Asset.t) (shares : Z) (amount : Q)
    (monthly_dividends : gmap Z Month.t) (month : Z) : result (gmap Z Month.t) :=
  match monthly_dividends !! month with
  | None => Raised KeyError
  | Some e =>
      Returned (<[month :=
        {| Month.amount := (Month.amount e + amount)%Q;
           Month.assets := (Month.assets e ++
             [ {| Contribution.symbol := Asset.symbol asset;
                  Contribution.name := name_of asset;
                  Contribution.amount := amount;
                  Contribution.shares := shares;
                  Contribution.amount_before_tax := None;
                  Contribution.tax_amount := None;
                  Contribution.tax_rate := None |} ])%list |}]>
        monthly_dividends)
  end.

(** [len(payment_months) if payment_months else d] *)
Definition num_payments (payment_months : list Z) (d : Z) : Z :=
  match payment_months with
  | [] => d
  | _ => Z.of_nat (length payment_months)
  end.

(** The skip tests at the head of the loop body. *)
Definition skipped (shares_dict : gmap string Z) (asset : Asset.t) : bool :=
  let shares := default 0 (shares_dict !! Asset.symbol asset) in
  if shares <=? 0 then true
  else
    let total_annual_dividend :=
      (annual_dividend_or_0 asset * inject_Z shares)%Q in
    Qle_bool total_annual_dividend 0
    || is_freq (frequency_of asset) "sin_dividendos".

(** The body of [for asset in assets]. *)
Definition asset_step (shares_dict : gmap string Z)
    (monthly_dividends : gmap Z Month.t) (asset : Asset.t)
  : result (gmap Z Month.t) :=
  let shares := default 0 (shares_dict !! Asset.symbol asset) in
  if shares <=? 0 then Returned monthly_dividends
  else
    let annual_dividend_per_share := annual_dividend_or_0 asset in
    let total_annual_dividend :=
      (annual_dividend_per_share * inject_Z shares)%Q in
    let frequency := frequency_of asset in
    if Qle_bool total_annual_dividend 0 || is_freq frequency "sin_dividendos"
    then Returned monthly_dividends
    else
      let payment_months := effective_months asset in
      if is_freq frequency "mensual" then
        let monthly_amount :=
          (total_annual_dividend / inject_Z (num_payments payment_months 12))%Q in
        for_each payment_months (pay asset shares monthly_amount) monthly_dividends
      else if is_freq frequency "trimestral" then
        let quarterly_amount :=
          (total_annual_dividend / inject_Z (num_payments payment_months 4))%Q in
        for_each payment_months (pay asset shares quarterly_amount) monthly_dividends
      else if is_freq frequency "irregular" then
        let irregular_amount :=
          (total_annual_dividend / inject_Z (num_payments payment_months 2))%Q in
        for_each payment_months (pay asset shares irregular_amount) monthly_dividends
      else Returned monthly_dividends.

Definition _calculate_monthly_dividends (assets : list Asset.t)
    (shares_dict : gmap string Z) : result (gmap Z Month.t) :=
  for_each assets (asset_step shares_dict) new_calendar.

(** The tax loop of [_portfolio_calendar_tab], for one record, with its
    operations read on the rationals. *)
Definition tax_contribution (portfolio_tax_rates : gmap string Q)
    (asset_info : Contribution.t) : Contribution.t :=
  let symbol := Contribution.symbol asset_info in
  let tax_rate := default 0%Q (portfolio_tax_rates !! symbol) in
  let dividend_before_tax := Contribution.amount asset_info in
  let tax_amount := (dividend_before_tax * (tax_rate / 100))%Q in
  let dividend_after_tax := (dividend_before_tax - tax_amount)%Q in
  {| Contribution.symbol := symbol;
     Contribution.name := Contribution.name asset_info;
     Contribution.amount := dividend_after_tax;
     Contribution.shares := Contribution.shares asset_info;
     Contribution.amount_before_tax := Some dividend_before_tax;
     Contribution.tax_amount := Some tax_amount;
     Contribution.tax_rate := Some tax_rate |}.

(** [sum(a['amount'] for a in assets)] *)
Definition sum_amounts (assets : list Contribution.t) : Q :=
  fold_left (fun acc a => (acc + Contribution.amount a)%Q) assets 0%Q.

Definition tax_month (portfolio_tax_rates : gmap string Q) (e : Month.t)
  : Month.t :=
  let assets := map (tax_contribution portfolio_tax_rates) (Month.assets e) in
  {| Month.amount := sum_amounts assets; Month.assets := assets |}.

Definition apply_taxes (portfolio_tax_rates : gmap string Q)
    (monthly_dividends : gmap Z Month.t) : gmap Z Month.t :=
  tax_month portfolio_tax_rates <$> monthly_dividends.

(** The session state read by the calendar tab. *)
Record Session : Type := {
  portfolio_selected : list string;
  portfolio_shares : gmap string Z;
  portfolio_tax_rates : gmap string Q
}.

(** [[a for a in all_assets if a['symbol'] in portfolio_selected]] *)
Definition selected_assets (st : Session) (all_assets : list Asset.t)
  : list Asset.t :=
  List.filter (fun a => bool_decide (Asset.symbol a ∈ portfolio_selected st))
              all_assets.

(** [_portfolio_calendar_tab], up to the calendar handed to the display:
    [None] stands for the early returns. *)
Definition _portfolio_calendar_tab (st : Session) (all_assets : list Asset.t)
  : result (option (gmap Z Month.t)) :=
  match portfolio_selected st with
  | [] => Returned None
  | _ =>
      let selected_assets := selected_assets st all_assets in
      match selected_assets with
      | [] => Returned None
      | _ =>
          monthly_dividends ←
            _calculate_monthly_dividends selected_assets (portfolio_shares st);
          let monthly_dividends :=
            apply_taxes (portfolio_tax_rates st) monthly_dividends in
          let selected_assets_with_shares :=
            List.filter (fun a =>
                           0 <? default 0 (portfolio_shares st !! Asset.symbol a))
                        selected_assets in
          match selected_assets_with_shares with
          | [] => Returned None
          | _ => Returned (Some monthly_dividends)
          end
      end
  end.

(** [monthly_dividends.values()]: the entries in the order of insertion,
    which is that of the keys 1..12 of [new_calendar]. *)
Definition values (monthly_dividends : gmap Z Month.t) : list Month.t :=
  omap (fun m => monthly_dividends !! m) (seqZ 1 12).

(** [sum(data['amount'] for data in monthly_dividends.values())] *)
Definition sum_values (monthly_dividends : gmap Z Month.t) : Q :=
  fold_left (fun acc data => (acc + Month.amount data)%Q)
            (values monthly_dividends) 0%Q.

(** The figures at the head of [_display_dividend_calendar]: the projected
    annual total and the monthly average. *)
Definition _display_dividend_calendar_totals
    (monthly_dividends : gmap Z Month.t) : Q * Q :=
  let total_annual := sum_values monthly_dividends in
  let avg_monthly := (total_annual / 12)%Q in
  (total_annual, avg_monthly).

(** The tax loop of [_portfolio_summary_tab], which stores the net amount
    and the tax of each record. *)
Definition tax_contribution_summary (portfolio_tax_rates : gmap string Q)
    (asset_info : Contribution.t) : Contribution.t :=
  let symbol := Contribution.symbol asset_info in
  let tax_rate := default 0%Q (portfolio_tax_rates !! symbol) in
  let dividend_before_tax := Contribution.amount asset_info in
  let tax_amount := (dividend_before_tax * (tax_rate / 100))%Q in
  {| Contribution.symbol := symbol;
     Contribution.name := Contribution.name asset_info;
     Contribution.amount := (dividend_before_tax - tax_amount)%Q;
     Contribution.shares := Contribution.shares asset_info;
     Contribution.amount_before_tax := Contribution.amount_before_tax asset_info;
     Contribution.tax_amount := Some tax_amount;
     Contribution.tax_rate := Contribution.tax_rate asset_info |}.

Definition tax_month_summary (portfolio_tax_rates : gmap string Q) (e : Month.t)
  : Month.t :=
  let assets :=
    map (tax_contribution_summary portfolio_tax_rates) (Month.assets e) in
  {| Month.amount := sum_amounts assets; Month.assets := assets |}.

(** An asset dictionary with the price read by the summary:
    [asset.get('current_price', 0)], [None] when the key is missing. *)
Record Priced : Type := {
  asset : Asset.t;
  current_price : option Q
}.

(** The totals accumulated by the loop of [_portfolio_summary_tab]. *)
Record Totals : Type := {
  total_cost : Q;
  total_annual_dividend_before_tax : Q;
  total_annual_dividend_after_tax : Q;
  total_tax_amount : Q;
  total_investment : Q
}.

Definition totals_step (st : Session) (acc : Totals) (a : Priced) : Totals :=
  let symbol := Asset.symbol (asset a) in
  let shares := default 0 (portfolio_shares st !! symbol) in
  let price := default 0%Q (current_price a) in
  let annual_div_per_share := annual_dividend_or_0 (asset a) in
  let tax_rate := default 0%Q (portfolio_tax_rates st !! symbol) in
  let asset_cost := (price * inject_Z shares)%Q in
  let asset_annual_dividend_before_tax :=
    (annual_div_per_share * inject_Z shares)%Q in
  let asset_tax_amount :=
    (asset_annual_dividend_before_tax * (tax_rate / 100))%Q in
  let asset_annual_dividend_after_tax :=
    (asset_annual_dividend_before_tax - asset_tax_amount)%Q in
  {| total_cost := (total_cost acc + asset_cost)%Q;
     total_annual_dividend_before_tax :=
       (total_annual_dividend_before_tax acc + asset_annual_dividend_before_tax)%Q;
     total_annual_dividend_after_tax :=
       (total_annual_dividend_after_tax acc + asset_annual_dividend_after_tax)%Q;
     total_tax_amount := (total_tax_amount acc + asset_tax_amount)%Q;
     total_investment := (total_investment acc + asset_cost)%Q |}.

(** What [_portfolio_summary_tab] computes before it draws: the totals,
    the net yield, the taxed calendar, its annual total and its monthly
    average. *)
Record Summary : Type := {
  totals : Totals;
  avg_yield : Q;
  monthly_dividends : gmap Z Month.t;
  total_monthly : Q;
  avg_monthly : Q
}.

(** [None] stands for the early returns. *)
Definition _portfolio_summary_tab (st : Session) (all_assets : list Priced)
  : result (option Summary) :=
  match portfolio_selected st with
  | [] => Returned None
  | _ =>
      let selected_assets :=
        List.filter (fun a => bool_decide (Asset.symbol (asset a)
                                             ∈ portfolio_selected st))
                    all_assets in
      match selected_assets with
      | [] => Returned None
      | _ =>
          let shares_dict := portfolio_shares st in
          let selected_assets_with_shares :=
            List.filter (fun a =>
                           0 <? default 0 (shares_dict !! Asset.symbol (asset a)))
                        selected_assets in
          match selected_assets_with_shares with
          | [] => Returned None
          | _ =>
              let totals :=
                fold_left (totals_step st) selected_assets_with_shares
                  {| total_cost := 0; total_annual_dividend_before_tax := 0;
                     total_annual_dividend_after_tax := 0;
                     total_tax_amount := 0; total_investment := 0 |} in
              let avg_yield :=
                if Qlt_le_dec 0 (total_investment totals)
                then (total_annual_dividend_after_tax totals
                      / total_investment totals * 100)%Q
                else 0%Q in
              monthly_dividends ←
                _calculate_monthly_dividends
                  (map asset selected_assets_with_shares) shares_dict;
              let monthly_dividends :=
                tax_month_summary (portfolio_tax_rates st) <$> monthly_dividends in
              let total_monthly := sum_values monthly_dividends in
              Returned (Some {| totals := totals;
                                avg_yield := avg_yield;
                                monthly_dividends := monthly_dividends;
                                total_monthly := total_monthly;
                                avg_monthly := (total_monthly / 12)%Q |})
          end
      end
  end.

(** One turn of the loop of [_process_tickers_batch]: the metrics of
    the ticker are computed, validated and saved.  [feed] is what
    [yf.Ticker(ticker)] answers and [long_name] its entry 'longName'. *)
Definition _process_tickers_batch_step (db : gmap string Row.t)
    (ticker : string) (long_name : field string) (feed : Ticker)
    (now1 now2 : Z) : Estado * gmap string Row.t :=
  match DividendAnalyzer.get_asset_metrics feed now1 now2 with
  | None => (SinDatos, db)
  | Some m =>
      let metrics := metrics_dict ticker long_name m in
      if negb (DataValidator.validate_asset_metrics metrics)
      then (DatosInvalidos, db)
      else
        let '(saved, db) := AssetsTable.upsert_asset db metrics in
        if saved then (Exitoso, db) else (ErrorBD, db)
  end.

End DividendHunterApp.

(** ** app.py: the arithmetic of the tax loop in binary64

    The two arithmetic lines of the tax loop of [_portfolio_calendar_tab]
    over the kernel's binary64 floats, the arithmetic of Python's
    [float]; [tax_contribution] above computes the same expressions over
    the rationals. *)
Module Binary64.

Import PrimFloat.

Definition tax_amount (dividend_before_tax tax_rate : float) : float :=
  (dividend_before_tax * (tax_rate / 100))%float.

Definition dividend_after_tax (dividend_before_tax tax_rate : float) : float :=
  (dividend_before_tax - tax_amount dividend_before_tax tax_rate)%float.

End Binary64.

(** Scenario C of the specification. *)
Definition scenario_C_asset : Asset.t :=
  {| Asset.symbol := "KO"; Asset.name := Val "Coca-Cola";
     Asset.annual_dividend := Val (2 # 1)%Q;
     Asset.dividend_frequency := Val "trimestral";
     Asset.dividend_payment_months := Val (MonthsList []) |}.

Definition scenario_C_shares : gmap string Z := {[ "KO" := 100 ]}.

Definition scenario_C_session : DividendHunterApp.Session :=
  {| DividendHunterApp.portfolio_selected := ["KO"];
     DividendHunterApp.portfolio_shares := scenario_C_shares;
     DividendHunterApp.portfolio_tax_rates := {[ "KO" := (15 # 1)%Q ]} |}.

Definition month_amounts (cal : gmap Z Month.t) : list (option Q) :=
  map (fun m => Qred <$> (Month.amount <$> cal !! m)) (seqZ 1 12).

(** ** Notions used to state the properties *)

(** The trailing window of a history: the rows whose payment time is not
    before [as_of - 365 days]. *)
Definition in_window (as_of : Z) (r : Z * Q) : Prop :=
  as_of - Timedelta_days 365 <= fst r.

#[global] Instance in_window_dec as_of r : Decision (in_window as_of r) :=
  Z_le_dec _ _.

Definition window (s : Series) (as_of : Z) : list (Z * Q) :=
  List.filter (fun r => bool_decide (in_window as_of r)) (rows s).

(** The set of calendar days on which the window has a payment, and the
    number of such days. *)
Definition payment_days (s : Series) (as_of : Z) : gset Z :=
  list_to_set (map (fun r => day_of (fst r)) (window s as_of)).

Definition payment_count (s : Series) (as_of : Z) : nat :=
  size (payment_days s as_of).

(** The label the specification gives to a payment count. *)
Definition label_of_count (n : nat) : string :=
  match n with
  | O => "sin_dividendos"
  | _ => if (10 <=? n)%nat then "mensual"
         else if (3 <=? n)%nat then "trimestral" else "irregular"
  end.

(** The sum of the amounts of the window, one term per event. *)
Definition window_total (s : Series) (as_of : Z) : Q :=
  fold_right (fun r acc => (snd r + acc)%Q) 0%Q (window s as_of).

(** A ticker from which a profile can be computed: the [info] check
    passes and a price is known. *)
Definition priced (t : Ticker) : Prop :=
  info_ok t = true /\ exists p, DividendAnalyzer.price_of t = Some p.

(** An outcome that is an exception. *)
Definition fails {A : Type} (r : result A) : Prop := exists e, r = Raised e.

(** A month number of the calendar. *)
Definition is_month (m : Z) : Prop := valid_month m = true.

(** The calendar has an entry for each of the twelve months. *)
Definition has_all_months (cal : gmap Z Month.t) : Prop :=
  forall m, is_month m -> is_Some (cal !! m).

(** Gross amount and contribution records of a month. *)
Definition amount_at (cal : gmap Z Month.t) (m : Z) : Q :=
  match cal !! m with
  | Some e => Month.amount e
  | None => 0%Q
  end.

Definition assets_at (cal : gmap Z Month.t) (m : Z) : list Contribution.t :=
  match cal !! m with
  | Some e => Month.assets e
  | None => []
  end.

(** Sum over the twelve months of the month amounts. *)
Definition months_total (cal : gmap Z Month.t) : Q :=
  fold_right (fun m acc => (amount_at cal m + acc)%Q) 0%Q (seqZ 1 12).

(** [n] as a rational. *)
Definition Qnat (n : nat) : Q := inject_Z (Z.of_nat n).

(** Shares held and annual total of a holding. *)
Definition shares_of (shares_dict : gmap string Z) (a : Asset.t) : Z :=
  default 0 (shares_dict !! Asset.symbol a).

Definition total_annual (shares_dict : gmap string Z) (a : Asset.t) : Q :=
  (DividendHunterApp.annual_dividend_or_0 a * inject_Z (shares_of shares_dict a))%Q.

(** Holdings that pass the skip tests: a position, a positive annual total
    and a cadence other than 'sin_dividendos'. *)
Definition included (shares_dict : gmap string Z) (a : Asset.t) : bool :=
  (0 <? shares_of shares_dict a)
  && negb (Qle_bool (total_annual shares_dict a) 0)
  && negb (DividendHunterApp.is_freq (DividendHunterApp.frequency_of a) "sin_dividendos").

(** The three cadences that pay. *)
Definition paying_label (f : option string) : bool :=
  DividendHunterApp.is_freq f "mensual"
  || DividendHunterApp.is_freq f "trimestral"
  || DividendHunterApp.is_freq f "irregular".

(** The four cadences of the specification (MONTHLY, QUARTERLY, IRREGULAR
    and NONE), as the labels the classifier writes. *)
Definition cadence (f : option string) : Prop :=
  f = Some "mensual" \/ f = Some "trimestral" \/ f = Some "irregular"
  \/ f = Some "sin_dividendos".

(** A cadence that is none of the four labels of the classifier. *)
Definition unknown_label (f : option string) : Prop :=
  f <> Some "mensual" /\ f <> Some "trimestral" /\ f <> Some "irregular"
  /\ f <> Some "sin_dividendos".

Definition paying (shares_dict : gmap string Z) (a : Asset.t) : bool :=
  included shares_dict a && paying_label (DividendHunterApp.frequency_of a).

(** Sum of the annual totals of the holdings selected by [sel]. *)
Definition holdings_total (sel : Asset.t -> bool) (shares_dict : gmap string Z)
    (assets : list Asset.t) : Q :=
  fold_right (fun a acc =>
                if sel a then (total_annual shares_dict a + acc)%Q else acc)
             0%Q assets.

(** The schedule the specification gives for a cadence without stored
    months. *)
Definition cadence_schedule (label : string) : list Z :=
  if String.eqb label "mensual" then [1; 2; 3; 4; 5; 6; 7; 8; 9; 10; 11; 12]
  else if String.eqb label "trimestral" then [3; 6; 9; 12]
  else if String.eqb label "irregular" then [6; 12]
  else [].

(** The record appended to a month for one payment of a holding. *)
Definition payment_record (a : Asset.t) (shares : Z) (amount : Q)
  : Contribution.t :=
  {| Contribution.symbol := Asset.symbol a;
     Contribution.name := DividendHunterApp.name_of a;
     Contribution.amount := amount;
     Contribution.shares := shares;
     Contribution.amount_before_tax := None;
     Contribution.tax_amount := None;
     Contribution.tax_rate := None |}.

(** Sum of the amounts of the months listed in [l]. *)
Definition total_over (l : list Z) (cal : gmap Z Month.t) : Q :=
  fold_right (fun m acc => (amount_at cal m + acc)%Q) 0%Q l.

(** ** Concrete inputs *)

(** A feed that raises when read. *)
Definition broken_feed : Ticker :=
  {| info_ok := true; hist_close := Some (10 # 1)%Q; info_price := None;
     dividends := Raised FeedError |}.

(** One payment of 0.2565 per share on 2024-12-15. *)
Definition one_payment : Series :=
  {| index_tz := None; rows := [ (at_day 20072, (2565 # 10000)%Q) ] |}.

Definition one_payment_ticker : Ticker :=
  {| info_ok := true; hist_close := Some (55 # 1)%Q; info_price := None;
     dividends := Returned one_payment |}.



(** A holding whose cadence label is not one of the classifier's. *)
Definition annual_payer : Asset.t :=
  {| Asset.symbol := "NESN"; Asset.name := Val "Nestle";
     Asset.annual_dividend := Val (3 # 1)%Q;
     Asset.dividend_frequency := Val "anual";
     Asset.dividend_payment_months := Val (MonthsList [ItemInt 4]) |}.

Definition ten_shares : gmap string Z := {[ "NESN" := 10 ]}.






(** The calendar shown for scenario C, its entry for March and the record
    of that entry. *)
Definition scenario_C_calendar : gmap Z Month.t :=
  match DividendHunterApp._portfolio_calendar_tab scenario_C_session
          [scenario_C_asset] with
  | Returned (Some cal) => cal
  | _ => ∅
  end.




(** Scenario B with its first two payments exchanged, a payment of the
    year 2000 in front and a zone-naive index. *)
Definition scenario_B_shuffled : Series :=
  {| index_tz := None;
     rows := [ (at_day 11016, (3 # 4)%Q);
               (at_day 19889, (1 # 2)%Q); (at_day 19797, (1 # 2)%Q);
               (at_day 19981, (1 # 2)%Q); (at_day 20072, (1 # 2)%Q) ] |}.

Definition scenario_B_shuffled_ticker : Ticker :=
  {| info_ok := true; hist_close := Some (48 # 1)%Q; info_price := None;
     dividends := Returned scenario_B_shuffled |}.

(** A portfolio whose cadence label is the classifier's answer for
    scenario B. *)
Definition classified_asset : Asset.t :=
  {| Asset.symbol := "KO"; Asset.name := Val "Coca-Cola";
     Asset.annual_dividend := Val (2 # 1)%Q;
     Asset.dividend_frequency :=
       Val (DividendAnalyzer.analyze_dividend_frequency scenario_B (at_day 20089));
     Asset.dividend_payment_months := Val (MonthsStr "3,6,9,12") |}.

(** Strings without white space, and without a comma. *)
Fixpoint no_space (s : string) : bool :=
  match s with
  | EmptyString => true
  | String c r => negb (is_space c) && no_space r
  end.

Fixpoint no_comma (s : string) : bool :=
  match s with
  | EmptyString => true
  | String c r => negb (Ascii.eqb c ",") && no_comma r
  end.

(** The asset of scenario B as the persistence layer returns it. *)
Definition scenario_B_stored : Asset.t :=
  {| Asset.symbol := "KO"; Asset.name := Val "Coca-Cola";
     Asset.annual_dividend := Val (2 # 1)%Q;
     Asset.dividend_frequency := Val "trimestral";
     Asset.dividend_payment_months :=
       Val (MonthsList [ItemInt 3; ItemInt 6; ItemInt 9; ItemInt 12]) |}.

(** A month entry after one more payment record. *)
Definition grow (e : Month.t) (r : Contribution.t) : Month.t :=
  {| Month.amount := (Month.amount e + Contribution.amount r)%Q;
     Month.assets := (Month.assets e ++ [r])%list |}.

(** The equal part of a holding: its annual total divided by the number of
    its effective months. *)
Definition per_payment (shares_dict : gmap string Z) (a : Asset.t) : Q :=
  (total_annual shares_dict a
   / Qnat (length (DividendHunterApp.effective_months a)))%Q.

(** The record of a holding in each of its effective months. *)
Definition holding_record (shares_dict : gmap string Z) (a : Asset.t)
  : Contribution.t :=
  payment_record a (shares_of shares_dict a) (per_payment shares_dict a).

(** The tax rate applied to a symbol: the stored one, 0 without one. *)
Definition rate_of (tax_rates : gmap string Q) (symbol : string) : Q :=
  default 0%Q (tax_rates !! symbol).

(** What holds of every calendar the aggregation returns: its keys are
    the twelve months, the amount of a month is the sum of its records, and
    every record is the record of an included holding in one of its
    effective months. *)
Definition well_formed (shares_dict : gmap string Z) (assets : list Asset.t)
    (cal : gmap Z Month.t) : Prop :=
  (forall m, is_Some (cal !! m) <-> is_month m)
  /\ (forall m,
        (amount_at cal m == DividendHunterApp.sum_amounts (assets_at cal m))%Q)
  /\ (forall m r,
        r ∈ assets_at cal m ->
        exists a,
          a ∈ assets /\ included shares_dict a = true
          /\ paying_label (DividendHunterApp.frequency_of a) = true
          /\ m ∈ DividendHunterApp.effective_months a
          /\ r = holding_record shares_dict a).

(** A holding with stored months given twice, as a list. *)
Definition repeated_months_asset : Asset.t :=
  {| Asset.symbol := "KO"; Asset.name := Val "Coca-Cola";
     Asset.annual_dividend := Val (3 # 1)%Q;
     Asset.dividend_frequency := Val "irregular";
     Asset.dividend_payment_months :=
       Val (MonthsList [ItemInt 5; ItemStr " 11 "; ItemInt 5; ItemInt 14]) |}.

Definition no_tax_rates : gmap string Q := ∅.

(** Sum of a weight over the records of a month list, and over all the
    records of the calendar. *)
Definition weight (w : Contribution.t -> Q) (l : list Contribution.t) : Q :=
  fold_right (fun r acc => (w r + acc)%Q) 0%Q l.

Definition records_total (w : Contribution.t -> Q) (cal : gmap Z Month.t) : Q :=
  fold_right (fun m acc => (weight w (assets_at cal m) + acc)%Q) 0%Q (seqZ 1 12).

(** Net amount of a record and net annual total of a holding under the
    stored tax rates. *)
Definition net_of (tax_rates : gmap string Q) (r : Contribution.t) : Q :=
  (Contribution.amount r
   - Contribution.amount r * (rate_of tax_rates (Contribution.symbol r) / 100))%Q.

Definition net_annual (shares_dict : gmap string Z) (tax_rates : gmap string Q)
    (a : Asset.t) : Q :=
  (total_annual shares_dict a
   - total_annual shares_dict a * (rate_of tax_rates (Asset.symbol a) / 100))%Q.

Definition holdings_net (sel : Asset.t -> bool) (shares_dict : gmap string Z)
    (tax_rates : gmap string Q) (assets : list Asset.t) : Q :=
  fold_right (fun a acc =>
                if sel a then (net_annual shares_dict tax_rates a + acc)%Q else acc)
             0%Q assets.

(** The holdings the summary works on: the selected assets with a
    position. *)
Definition held_assets (st : DividendHunterApp.Session)
    (all_assets : list DividendHunterApp.Priced) : list Asset.t :=
  map DividendHunterApp.asset
    (List.filter
       (fun a => 0 <? default 0 (DividendHunterApp.portfolio_shares st
                                   !! Asset.symbol (DividendHunterApp.asset a)))
       (List.filter
          (fun a => bool_decide (Asset.symbol (DividendHunterApp.asset a)
                                   ∈ DividendHunterApp.portfolio_selected st))
          all_assets)).

(** Scenario C with a second holding that has no dividend cadence. *)
Definition growth_asset : Asset.t :=
  {| Asset.symbol := "BRK"; Asset.name := Val "Berkshire";
     Asset.annual_dividend := Val (1 # 1)%Q;
     Asset.dividend_frequency := Val "sin_dividendos";
     Asset.dividend_payment_months := Absent |}.

Definition summary_session : DividendHunterApp.Session :=
  {| DividendHunterApp.portfolio_selected := ["KO"; "BRK"];
     DividendHunterApp.portfolio_shares := {[ "KO" := 100; "BRK" := 10 ]};
     DividendHunterApp.portfolio_tax_rates := {[ "KO" := (15 # 1)%Q ]} |}.

Definition summary_assets : list DividendHunterApp.Priced :=
  [ {| DividendHunterApp.asset := scenario_C_asset;
       DividendHunterApp.current_price := Some (60 # 1)%Q |};
    {| DividendHunterApp.asset := growth_asset;
       DividendHunterApp.current_price := Some (400 # 1)%Q |} ].

Definition scenario_C_summary : option DividendHunterApp.Summary :=
  match DividendHunterApp._portfolio_summary_tab summary_session summary_assets with
  | Returned o => o
  | Raised _ => None
  end.

Definition keep_all (a : Asset.t) : bool := true.

(** The asset data of scenario B, and a table that holds it with the
    platforms of the user. *)
Definition scenario_B_data : AssetData.t :=
  {| AssetData.symbol := Some "KO"; AssetData.name := Some "Coca-Cola";
     AssetData.current_price := Some (50 # 1)%Q;
     AssetData.annual_dividend := Some (2 # 1)%Q;
     AssetData.dividend_yield := Some (4 # 1)%Q;
     AssetData.dividend_frequency := Some "trimestral";
     AssetData.dividend_payment_months := Some [12; 3; 9; 6; 3];
     AssetData.platforms := None |}.

Definition scenario_B_row : Row.t :=
  {| Row.name := "Coca-Cola Co"; Row.current_price := Some (48 # 1)%Q;
     Row.annual_dividend := Some (2 # 1)%Q;
     Row.dividend_yield := Some (4 # 1)%Q;
     Row.dividend_frequency := Some "trimestral";
     Row.dividend_payment_months := Some "3,6,9,12";
     Row.platforms := Some "IBKR, PREX" |}.

Definition scenario_B_table : gmap string Row.t := {[ "KO" := scenario_B_row ]}.

(** Data that cannot be saved: the name is missing. *)
Definition unnamed_data : AssetData.t :=
  {| AssetData.symbol := Some "KO"; AssetData.name := None;
     AssetData.current_price := Some (50 # 1)%Q;
     AssetData.annual_dividend := Some (2 # 1)%Q;
     AssetData.dividend_yield := Some (4 # 1)%Q;
     AssetData.dividend_frequency := Some "trimestral";
     AssetData.dividend_payment_months := Some [3; 6; 9; 12];
     AssetData.platforms := None |}.

(** The platforms a symbol has before an upsert. *)
Definition platforms_of (db : gmap string Row.t) (symbol : string)
  : option string :=
  row ← db !! symbol; Row.platforms row.

(** The platform names that [update_platforms] writes. *)
Definition platform_names (platforms : list string) : list string :=
  map (fun p => upper (strip p))
      (List.filter (fun p => negb (String.eqb (strip p) "")) platforms).

(** * Checks on the scenarios of the specification *)

Example scenario_B_frequency :
  DividendAnalyzer.analyze_dividend_frequency scenario_B (at_day 20089) = "trimestral".
Proof. vm_compute. reflexivity. Qed.

Example scenario_B_months :
  option_map DividendAnalyzer.dividend_payment_months
    (DividendAnalyzer.get_asset_metrics scenario_B (at_day 20089) (at_day 20089))
  = Some [3; 6; 9; 12].
Proof. vm_compute. reflexivity. Qed.

Example scenario_B_annual :
  option_map DividendAnalyzer.annual_dividend
    (DividendAnalyzer.get_asset_metrics scenario_B (at_day 20089) (at_day 20089))
  = Some (200 # 100)%Q.
Proof. vm_compute. reflexivity. Qed.

Example parse_spaced : DatabaseManager._parse_payment_months " 3, 12,6 ,3,13,x,0" = [3; 6; 12].
Proof. vm_compute. reflexivity. Qed.

Example scenario_C_gross :
  (month_amounts <$>
     DividendHunterApp._calculate_monthly_dividends [scenario_C_asset] {[ "KO" := 100 ]})
  = Returned (map Some [0; 0; 50 # 1; 0; 0; 50 # 1; 0; 0; 50 # 1; 0; 0; 50 # 1]%Q).
Proof. vm_compute. reflexivity. Qed.

Example scenario_C_net :
  (fun o : option (gmap Z Month.t) => month_amounts <$> o) <$>
    DividendHunterApp._portfolio_calendar_tab scenario_C_session [scenario_C_asset]
  = Returned (Some (map Some
      [0; 0; 85 # 2; 0; 0; 85 # 2; 0; 0; 85 # 2; 0; 0; 85 # 2]%Q)).
Proof. vm_compute. reflexivity. Qed.


Example format_unsorted :
  DatabaseManager._format_payment_months (Some [12; 3; 6; 3]) = "3,3,6,12".
Proof. vm_compute. reflexivity. Qed.

Example ticker_symbols :
  map ErrorHandler.validate_ticker_symbol [" aapl "; "BRK.B"; "GOOGLE"; "   "; "O"]
  = [true; false; false; false; true].
Proof. vm_compute. reflexivity. Qed.

Example scenario_B_saved :
  option_map (fun a => DividendHunterApp.parse_months_data (Stored.asset a))
    (AssetsTable.get_asset
       (snd (AssetsTable.upsert_asset scenario_B_table scenario_B_data)) "KO")
  = Some [3; 6; 9; 12].
Proof. vm_compute. reflexivity. Qed.

Example platforms_written :
  AssetsTable.get_platforms
    (snd (AssetsTable.update_platforms scenario_B_table "KO" ["prex"; " "; "Revolut "]))
    "KO"
  = ["PREX"; "REVOLUT"].
Proof. vm_compute. reflexivity. Qed.

(** * The frequency classifier *)

Section Unique.

Lemma unique_from_length (l seen : list Z) :
  length (unique_from seen l)
  = size ((list_to_set l : gset Z) ∖ list_to_set seen).
Proof.
  revert seen. induction l as [|x r IH]; intros seen.
  - cbn [unique_from length list_to_set foldr].
    assert (((∅ : gset Z) ∖ list_to_set seen) = ∅) as Hempty by set_solver.
    by rewrite Hempty, size_empty.
  - cbn [unique_from]. rewrite list_to_set_cons. case_bool_decide as Hx.
    + rewrite IH. f_equal. apply set_eq. intros y.
      rewrite !elem_of_difference, elem_of_union, elem_of_singleton,
        !elem_of_list_to_set.
      split; [tauto|]. intros [[->|Hy] Hn]; [contradiction|tauto].
    + cbn [length]. rewrite IH, list_to_set_cons.
      assert (({[x]} ∪ list_to_set r) ∖ list_to_set seen
              = ({[x]} : gset Z) ∪ (list_to_set r ∖ ({[x]} ∪ list_to_set seen)))
        as Hsplit.
      { apply set_eq. intros y.
        rewrite !elem_of_union, !elem_of_difference, !elem_of_union,
          !elem_of_singleton, !elem_of_list_to_set.
        destruct (decide (y = x)) as [->|Hne]; tauto. }
      rewrite Hsplit, (size_union ({[x]} : gset Z)) by set_solver.
      by rewrite size_singleton.
Qed.

Lemma unique_length (l : list Z) :
  length (unique l) = size (list_to_set l : gset Z).
Proof.
  unfold unique. rewrite unique_from_length. f_equal.
  cbn [list_to_set foldr]. set_solver.
Qed.

(** [unique] commutes with an injective relabelling of the elements. *)
Lemma unique_from_map (f : Z -> Z) (l seen : list Z) :
  (forall x y, f x = f y -> x = y) ->
  unique_from (map f seen) (map f l) = map f (unique_from seen l).
Proof.
  intros Hinj. revert seen. induction l as [|x r IH]; intros seen; [done|].
  cbn [unique_from map].
  assert (f x ∈ map f seen <-> x ∈ seen) as Hmem.
  { change (map f seen) with (f <$> seen). rewrite list_elem_of_fmap. split.
    - intros (y & Hy & Hin). by rewrite (Hinj _ _ Hy).
    - intros Hin. by exists x. }
  do 2 case_bool_decide; try tauto.
  - apply IH.
  - cbn [map]. f_equal. apply (IH (x :: seen)).
Qed.

Lemma unique_map_length (f : Z -> Z) (l : list Z) :
  (forall x y, f x = f y -> x = y) ->
  length (unique (map f l)) = length (unique l).
Proof.
  intros Hinj. unfold unique.
  change (@nil Z) with (map f []) at 1.
  by rewrite unique_from_map, length_map.
Qed.

End Unique.

Section Classifier.

Import DividendAnalyzer.

Lemma since_window (s : Series) (as_of : Z) :
  rows (since (as_of - Timedelta_days 365) s) = window s as_of.
Proof.
  unfold since, window, in_window. cbn [rows].
  induction (rows s) as [|r l IH]; [done|]. cbn [List.filter].
  rewrite IH. destruct (Z.leb_spec (as_of - Timedelta_days 365) (fst r));
    case_bool_decide; (done || lia).
Qed.

Lemma since_to_utc_naive (cutoff : Z) (s : Series) :
  rows (since cutoff (to_utc_naive s)) = rows (since cutoff s).
Proof. done. Qed.

Lemma normalize_inj (x y : Z) : x * ns_per_day = y * ns_per_day -> x = y.
Proof. unfold ns_per_day. lia. Qed.

(** The number of unique normalized dates counted by the code is the
    number of distinct payment days of the window. *)
Lemma payment_count_code (s : Series) (as_of : Z) :
  length (unique (map normalize
            (index (since (as_of - Timedelta_days 365) s))))
  = payment_count s as_of.
Proof.
  unfold index, payment_count, payment_days. rewrite since_window.
  set (w := window s as_of).
  replace (map normalize (map fst w))
    with (map (fun d => d * ns_per_day) (map (fun r => day_of (fst r)) w)).
  - rewrite unique_map_length by apply normalize_inj. apply unique_length.
  - rewrite !map_map. done.
Qed.

Lemma payment_count_nil (s : Series) (as_of : Z) :
  window s as_of = [] -> payment_count s as_of = 0%nat.
Proof. unfold payment_count, payment_days. by intros ->. Qed.

Lemma payment_count_pos (s : Series) (as_of : Z) :
  window s as_of <> [] -> (1 <= payment_count s as_of)%nat.
Proof.
  unfold payment_count, payment_days. intros Hne.
  rewrite <- unique_length.
  destruct (window s as_of) as [|r w]; [done|].
  unfold unique. cbn [map unique_from].
  case_bool_decide as Hin; [by apply elem_of_nil in Hin|].
  cbn [length]. lia.
Qed.

Lemma window_of_empty (s : Series) (as_of : Z) :
  empty s = true -> window s as_of = [].
Proof. unfold empty, window. by destruct (rows s). Qed.

Lemma empty_rows (s : Series) : empty s = true <-> rows s = [].
Proof. unfold empty. by destruct (rows s). Qed.

Lemma analyze_dividend_frequency_count (t : Ticker) (s : Series) (as_of : Z) :
  dividends t = Returned s ->
  analyze_dividend_frequency t as_of = label_of_count (payment_count s as_of).
Proof.
  intros Hs. unfold analyze_dividend_frequency, analyze_dividend_frequency_body.
  rewrite Hs. cbn [mbind result_bind try_except].
  destruct (empty s) eqn:He.
  { by rewrite (payment_count_nil s as_of (window_of_empty s as_of He)). }
  assert (forall s', rows s' = rows s ->
    try_except
      (if empty (since (as_of - Timedelta_days 365) s')
       then Returned "sin_dividendos"
       else
         let n := Z.of_nat (length (unique (map normalize
                    (index (since (as_of - Timedelta_days 365) s'))))) in
         if 10 <=? n then Returned "mensual"
         else if 3 <=? n then Returned "trimestral"
         else Returned "irregular") "irregular"
    = label_of_count (payment_count s as_of)) as Hbody.
  { intros s' Hrows.
    assert (rows (since (as_of - Timedelta_days 365) s') = window s as_of) as Hw.
    { rewrite <- since_window. unfold since. cbn [rows]. by rewrite Hrows. }
    assert (index (since (as_of - Timedelta_days 365) s')
            = index (since (as_of - Timedelta_days 365) s)) as ->.
    { unfold index. by rewrite Hw, since_window. }
    rewrite payment_count_code.
    destruct (empty (since _ s')) eqn:Hr.
    - apply empty_rows in Hr. rewrite Hw in Hr.
      by rewrite (payment_count_nil _ _ Hr).
    - assert (window s as_of <> []) as Hne.
      { intros Hnil. rewrite <- Hw in Hnil. apply empty_rows in Hnil. congruence. }
      pose proof (payment_count_pos _ _ Hne) as Hpos.
      cbv zeta. unfold label_of_count.
      destruct (payment_count s as_of) as [|n]; [lia|].
      destruct (Z.leb_spec 10 (Z.of_nat (S n))), (Nat.leb_spec 10 (S n));
        try lia; [done|].
      destruct (Z.leb_spec 3 (Z.of_nat (S n))), (Nat.leb_spec 3 (S n));
        try lia; done. }
  destruct (index_tz s); apply Hbody; done.
Qed.

(** C1. With [payment_count] the number of distinct calendar days that
    carry a payment not older than [as_of - 365 days], the classifier
    answers 'mensual' from 10 days on, 'trimestral' for 3 to 9 days,
    'irregular' for 1 or 2 days and 'sin_dividendos' for none. *)
Theorem frequency_by_payment_count (t : Ticker) (s : Series) (as_of : Z) :
  dividends t = Returned s ->
  let n := payment_count s as_of in
  let f := analyze_dividend_frequency t as_of in
  ((10 <= n)%nat -> f = "mensual")
  /\ ((3 <= n <= 9)%nat -> f = "trimestral")
  /\ ((1 <= n <= 2)%nat -> f = "irregular")
  /\ (n = 0%nat -> f = "sin_dividendos").
Proof.
  intros Hs n f. subst f. rewrite (analyze_dividend_frequency_count t s as_of Hs).
  fold n. unfold label_of_count.
  repeat split; intros Hn; destruct n as [|n]; try lia; try done.
  - destruct (Nat.leb_spec 10 (S n)); [done|lia].
  - destruct (Nat.leb_spec 10 (S n)); [lia|].
    destruct (Nat.leb_spec 3 (S n)); [done|lia].
  - destruct (Nat.leb_spec 10 (S n)); [lia|].
    destruct (Nat.leb_spec 3 (S n)); [lia|done].
Qed.

Lemma frequency_by_payment_count_witness :
  dividends scenario_B = Returned scenario_B_history
  /\ (3 <= payment_count scenario_B_history (at_day 20089) <= 9)%nat
  /\ analyze_dividend_frequency scenario_B (at_day 20089) = "trimestral".
Proof.
  split; [reflexivity|]. split; [vm_compute; lia|].
  apply (frequency_by_payment_count scenario_B scenario_B_history (at_day 20089));
    [reflexivity | vm_compute; lia].
Defined.

End Classifier.

Section Profile.

Import DividendAnalyzer.

Lemma insert_sorted_not_nil (x : Z) (l : list Z) : insert_sorted x l <> [].
Proof.
  destruct l as [|y r]; cbn [insert_sorted]; [done|].
  destruct (x <? y); [done|]. destruct (x =? y); done.
Qed.

Lemma sorted_set_nil (l : list Z) : sorted_set l = [] <-> l = [].
Proof.
  destruct l as [|x r]; [done|]. unfold sorted_set. cbn [fold_right].
  split; [|done]. intros H. by apply insert_sorted_not_nil in H.
Qed.

Lemma fold_left_sum (l : list (Z * Q)) (a : Q) :
  (fold_left (fun acc r => acc + snd r) l a
   == a + fold_right (fun r acc => snd r + acc) 0 l)%Q.
Proof.
  revert a. induction l as [|r l IH]; intros a; cbn [fold_left fold_right].
  - ring.
  - rewrite IH. ring.
Qed.

Lemma sum_window (s : Series) (as_of : Z) :
  (sum (since (as_of - Timedelta_days 365) s) == window_total s as_of)%Q.
Proof.
  unfold sum, window_total. rewrite since_window, fold_left_sum. ring.
Qed.

Lemma round_half_even_comp (x y : Q) :
  (x == y)%Q -> round_half_even x = round_half_even y.
Proof.
  intros Hxy. unfold round_half_even.
  assert (Qfloor x = Qfloor y) as Hf by (by apply Qfloor_comp).
  rewrite Hf.
  assert (((x - inject_Z (Qfloor y)) ?= 1 # 2) = ((y - inject_Z (Qfloor y)) ?= 1 # 2))%Q
    as Hc by (apply Qcompare_comp; [by rewrite Hxy|reflexivity]).
  by rewrite Hc.
Qed.

Lemma round2_comp (x y : Q) : (x == y)%Q -> round2 x = round2 y.
Proof.
  intros Hxy. unfold round2. f_equal. apply round_half_even_comp.
  by rewrite Hxy.
Qed.

(** What [get_asset_metrics] returns for a priced ticker whose feed
    answers, with the two clock readings it takes. *)
Lemma get_asset_metrics_history (t : Ticker) (s : Series) (now1 now2 : Z) :
  priced t ->
  dividends t = Returned s ->
  exists m,
    get_asset_metrics t now1 now2 = Some m
    /\ dividend_frequency m = analyze_dividend_frequency t now1
    /\ annual_dividend m = round2 (window_total s now2)
    /\ dividend_payment_months m
       = sorted_set (map month (map fst (window s now2))).
Proof.
  intros [Hinfo [p Hp]] Hs.
  unfold get_asset_metrics, get_ticker_data. rewrite Hinfo, Hp.
  unfold get_asset_metrics_body. rewrite Hs. cbn [mbind result_bind].
  destruct (empty s) eqn:He; cbn [negb].
  - eexists. split; [reflexivity|]. cbn.
    unfold window_total. rewrite (window_of_empty s now2 He).
    repeat split; reflexivity.
  - assert (forall s', rows s' = rows s ->
              rows (since (now2 - Timedelta_days 365) s') = window s now2) as Hw.
    { intros s' Hrows. rewrite <- since_window. unfold since. cbn [rows].
      by rewrite Hrows. }
    assert (forall s', rows s' = rows s ->
              round2 (sum (since (now2 - Timedelta_days 365) s'))
              = round2 (window_total s now2)) as Hsum.
    { intros s' Hrows. apply round2_comp. rewrite <- sum_window.
      unfold sum. by rewrite (Hw s' Hrows), since_window. }
    assert (forall s', rows s' = rows s ->
              (if negb (empty (since (now2 - Timedelta_days 365) s'))
               then sorted_set (map month (index (since (now2 - Timedelta_days 365) s')))
               else [])
              = sorted_set (map month (map fst (window s now2)))) as Hmonths.
    { intros s' Hrows. unfold index, empty. rewrite (Hw s' Hrows).
      by destruct (window s now2). }
    destruct (index_tz s); eexists; (split; [reflexivity|]); cbn;
      (split; [reflexivity|split]); (by apply Hsum) || (by apply Hmonths).
Qed.

Lemma label_of_count_none (n : nat) :
  label_of_count n = "sin_dividendos" <-> n = 0%nat.
Proof.
  destruct n as [|n]; [done|]. unfold label_of_count.
  destruct (10 <=? S n)%nat; [done|]. destruct (3 <=? S n)%nat; done.
Qed.

Lemma payment_count_zero (s : Series) (as_of : Z) :
  payment_count s as_of = 0%nat <-> window s as_of = [].
Proof.
  split; [|apply payment_count_nil].
  intros H0. destruct (window s as_of) as [|r w] eqn:Hw; [done|].
  assert (window s as_of <> []) as Hne by (by rewrite Hw).
  apply payment_count_pos in Hne. lia.
Qed.

(** With one reading of the clock, the profile computed for a history has
    payment months exactly when its cadence is not 'sin_dividendos'. *)
Theorem payment_months_iff_cadence (t : Ticker) (s : Series) (as_of : Z) :
  priced t ->
  dividends t = Returned s ->
  exists m,
    get_asset_metrics t as_of as_of = Some m
    /\ (dividend_payment_months m <> []
        <-> dividend_frequency m <> "sin_dividendos").
Proof.
  intros Hp Hs.
  destruct (get_asset_metrics_history t s as_of as_of Hp Hs)
    as (m & Hm & Hf & _ & Hmonths).
  exists m. split; [done|].
  rewrite Hf, Hmonths, (analyze_dividend_frequency_count t s as_of Hs).
  rewrite sorted_set_nil, label_of_count_none, payment_count_zero.
  destruct (window s as_of); [tauto|]. split; done.
Qed.


Lemma exact_sum_rows (s : Series) : exact_sum (map snd (rows s)) = sum s.
Proof.
  unfold exact_sum, sum. generalize 0%Q.
  induction (rows s) as [|r l IH]; intros a; [done|].
  cbn [map fold_left]. apply IH.
Qed.

(** With the exact operations, the body over the float operations is the
    exact one. *)
Lemma get_asset_metrics_exact (t : Ticker) (now1 now2 : Z) :
  FloatAnalyzer.get_asset_metrics exact_sum round2 Qdiv Qmult t now1 now2
  = get_asset_metrics t now1 now2.
Proof.
  unfold FloatAnalyzer.get_asset_metrics, get_asset_metrics.
  destruct (get_ticker_data t) as [t'|]; [|done].
  destruct (price_of t') as [p|]; [|done].
  unfold FloatAnalyzer.get_asset_metrics_body, get_asset_metrics_body.
  destruct (dividends t') as [s|e]; [|done]. cbn [mbind result_bind].
  destruct (empty s); cbn [negb]; [done|].
  destruct (index_tz s); by rewrite exact_sum_rows.
Qed.


(** C9. When reading the feed or any later step of the analysis raises,
    the classifier answers 'irregular', not 'sin_dividendos'. *)
Theorem exception_yields_irregular (t : Ticker) (now : Z) :
  fails (dividends t) \/ fails (analyze_dividend_frequency_body t now) ->
  analyze_dividend_frequency t now = "irregular"
  /\ analyze_dividend_frequency t now <> "sin_dividendos".
Proof.
  intros Hfail.
  assert (fails (analyze_dividend_frequency_body t now)) as [e He].
  { destruct Hfail as [[e He]|Hb]; [|done]. exists e.
    unfold analyze_dividend_frequency_body. by rewrite He. }
  unfold analyze_dividend_frequency. rewrite He. by cbn.
Qed.

Lemma scenario_B_priced : priced scenario_B.
Proof. split; [reflexivity|]. eexists. reflexivity. Qed.

Lemma payment_months_iff_cadence_witness :
  priced scenario_B
  /\ dividends scenario_B = Returned scenario_B_history
  /\ exists m,
       get_asset_metrics scenario_B (at_day 20089) (at_day 20089) = Some m
       /\ (dividend_payment_months m <> []
           <-> dividend_frequency m <> "sin_dividendos").
Proof.
  split; [exact scenario_B_priced|]. split; [reflexivity|].
  apply (payment_months_iff_cadence scenario_B scenario_B_history (at_day 20089));
    [exact scenario_B_priced | reflexivity].
Defined.






Lemma exception_yields_irregular_witness :
  fails (dividends broken_feed)
  /\ analyze_dividend_frequency broken_feed (at_day 20089) = "irregular"
  /\ analyze_dividend_frequency broken_feed (at_day 20089) <> "sin_dividendos".
Proof.
  assert (fails (dividends broken_feed)) as Hfail by (by exists FeedError).
  split; [exact Hfail|].
  apply (exception_yields_irregular broken_feed (at_day 20089)).
  left. exact Hfail.
Defined.

Lemma window_mono (s : Series) (now1 now2 : Z) :
  now1 <= now2 -> window s now2 <> [] -> window s now1 <> [].
Proof.
  intros Hle. unfold window.
  induction (rows s) as [|r l IH]; [done|]. cbn [List.filter].
  destruct (bool_decide (in_window now2 r)) eqn:H2.
  - intros _. apply bool_decide_eq_true in H2.
    rewrite bool_decide_eq_true_2; [done|]. unfold in_window in *. lia.
  - intros Hne. destruct (bool_decide (in_window now1 r)); [done|]. by apply IH.
Qed.

(** With two readings of a clock that does not go back, payment months
    still imply a cadence other than 'sin_dividendos'. *)
Lemma payment_months_imply_cadence (t : Ticker) (s : Series) (now1 now2 : Z) :
  priced t ->
  dividends t = Returned s ->
  now1 <= now2 ->
  exists m,
    get_asset_metrics t now1 now2 = Some m
    /\ (dividend_payment_months m <> []
        -> dividend_frequency m <> "sin_dividendos").
Proof.
  intros Hp Hs Hle.
  destruct (get_asset_metrics_history t s now1 now2 Hp Hs)
    as (m & Hm & Hf & _ & Hmonths).
  exists m. split; [done|].
  rewrite Hf, Hmonths, (analyze_dividend_frequency_count t s now1 Hs).
  rewrite sorted_set_nil, label_of_count_none, payment_count_zero.
  intros Hne. apply (window_mono s now1 now2 Hle).
  by destruct (window s now2).
Qed.

(** C4 fails on the code, which reads the clock twice.  The payment of
    this ticker is 365 days old between the reading taken in
    [analyze_dividend_frequency] and the one taken in [get_asset_metrics]:
    it is counted for the cadence and not for the months, and the profile
    has the cadence 'irregular' and no payment month. *)
Theorem two_clock_readings :
  exists m,
    get_asset_metrics one_payment_ticker
      (at_day 20072 + Timedelta_days 365 - 250000)
      (at_day 20072 + Timedelta_days 365 + 250000)
    = Some m
    /\ dividend_frequency m = "irregular"
    /\ dividend_payment_months m = []
    /\ ~ (dividend_payment_months m <> []
          <-> dividend_frequency m <> "sin_dividendos").
Proof.
  eexists. split; [vm_compute; reflexivity|]. split; [reflexivity|].
  split; [reflexivity|]. cbn. intros [_ H]. by apply H.
Qed.

End Profile.

(** * The calendar aggregation *)

Section Months.

Import DividendHunterApp.

Lemma insert_sorted_Forall (P : Z -> Prop) (x : Z) (l : list Z) :
  P x -> Forall P l -> Forall P (insert_sorted x l).
Proof.
  intros Hx Hl. induction Hl as [|y r Hy Hr IH]; cbn [insert_sorted].
  - by constructor.
  - destruct (x <? y); [by repeat constructor|].
    destruct (x =? y); by constructor.
Qed.

Lemma sorted_set_Forall (P : Z -> Prop) (l : list Z) :
  Forall P l -> Forall P (sorted_set l).
Proof.
  unfold sorted_set. induction 1 as [|x r Hx Hr IH]; cbn [fold_right].
  - constructor.
  - by apply insert_sorted_Forall.
Qed.

Lemma fold_left_Forall {A : Type} (P : Z -> Prop) (f : list Z -> A -> list Z)
    (l : list A) (acc : list Z) :
  (forall acc x, Forall P acc -> Forall P (f acc x)) ->
  Forall P acc -> Forall P (fold_left f l acc).
Proof.
  intros Hf. revert acc. induction l as [|x l IH]; intros acc Hacc; [done|].
  cbn [fold_left]. apply IH. by apply Hf.
Qed.

Lemma Forall_snoc (P : Z -> Prop) (l : list Z) (x : Z) :
  Forall P l -> P x -> Forall P (l ++ [x])%list.
Proof. intros Hl Hx. apply Forall_app. split; [done|]. by constructor. Qed.

(** The parser of the persistence layer returns months 1..12 only. *)
Lemma _parse_payment_months_valid (months_str : string) :
  Forall is_month (DatabaseManager._parse_payment_months months_str).
Proof.
  unfold DatabaseManager._parse_payment_months.
  destruct (_ || _); [constructor|].
  apply sorted_set_Forall, fold_left_Forall; [|constructor].
  intros acc m Hacc. destruct (isdigit (strip m)); [|done].
  destruct (valid_month (int (strip m))) eqn:Hv; [|done].
  by apply Forall_snoc.
Qed.

Lemma parse_months_data_valid (asset : Asset.t) :
  Forall is_month (parse_months_data asset).
Proof.
  unfold parse_months_data.
  destruct (Asset.dividend_payment_months asset) as [| |[s|l|truth repr]];
    try constructor.
  - destruct (String.eqb s ""); [constructor|apply _parse_payment_months_valid].
  - apply fold_left_Forall; [|constructor].
    intros acc [m|m|] Hacc; [| |done].
    + destruct (valid_month m) eqn:Hv; [by apply Forall_snoc|done].
    + destruct (isdigit (strip m)); [|done].
      destruct (valid_month (int (strip m))) eqn:Hv; [by apply Forall_snoc|done].
  - destruct truth; [apply _parse_payment_months_valid|constructor].
Qed.

Lemma default_months_valid (f : option string) (l : list Z) :
  Forall is_month l -> Forall is_month (default_months f l).
Proof.
  intros Hl. unfold default_months.
  repeat (destruct (is_freq f _); [by repeat constructor|]). done.
Qed.

(** The months into which a holding is distributed are months 1..12. *)
Lemma effective_months_valid (asset : Asset.t) :
  Forall is_month (effective_months asset).
Proof.
  unfold effective_months.
  pose proof (parse_months_data_valid asset) as Hv.
  destruct (parse_months_data asset); [|done].
  by apply default_months_valid.
Qed.

Lemma effective_months_paying (asset : Asset.t) :
  paying_label (frequency_of asset) = true -> effective_months asset <> [].
Proof.
  unfold paying_label, effective_months, default_months. intros Hl.
  destruct (parse_months_data asset); [|done].
  destruct (is_freq _ "mensual"); [done|].
  destruct (is_freq _ "trimestral"); [done|].
  destruct (is_freq _ "irregular"); done.
Qed.

End Months.

Section Payments.

Import DividendHunterApp.

Lemma Qnat_S (n : nat) : (Qnat (S n) == Qnat n + 1)%Q.
Proof.
  unfold Qnat. rewrite Nat2Z.inj_succ, <- Z.add_1_r, inject_Z_plus. reflexivity.
Qed.

Lemma amount_at_insert (cal : gmap Z Month.t) (m k : Z) (e : Month.t) :
  amount_at (<[m := e]> cal) k
  = if bool_decide (k = m) then Month.amount e else amount_at cal k.
Proof.
  unfold amount_at. case_bool_decide as Hk.
  - subst k. by rewrite lookup_insert_eq.
  - by rewrite lookup_insert_ne.
Qed.

Lemma assets_at_insert (cal : gmap Z Month.t) (m k : Z) (e : Month.t) :
  assets_at (<[m := e]> cal) k
  = if bool_decide (k = m) then Month.assets e else assets_at cal k.
Proof.
  unfold assets_at. case_bool_decide as Hk.
  - subst k. by rewrite lookup_insert_eq.
  - by rewrite lookup_insert_ne.
Qed.

(** Replacing the entry of one month changes a sum over distinct months
    by the difference of the two amounts. *)
Lemma total_over_insert (l : list Z) (cal : gmap Z Month.t) (m : Z)
    (e e' : Month.t) :
  NoDup l ->
  cal !! m = Some e ->
  (total_over l (<[m := e']> cal)
   == total_over l cal
      + (if bool_decide (m ∈ l) then Month.amount e' - Month.amount e else 0))%Q.
Proof.
  intros Hnd He. unfold total_over.
  induction Hnd as [|k l Hk Hnd IH]; cbn [fold_right].
  - rewrite bool_decide_eq_false_2 by apply not_elem_of_nil. ring.
  - rewrite IH, amount_at_insert. clear IH.
    destruct (decide (k = m)) as [->|Hne].
    + rewrite bool_decide_eq_true_2 by done.
      rewrite (bool_decide_eq_false_2 (m ∈ l)) by done.
      rewrite (bool_decide_eq_true_2 (m ∈ m :: l)) by apply list_elem_of_here.
      unfold amount_at at 2. rewrite He. ring.
    + rewrite bool_decide_eq_false_2 by done.
      destruct (decide (m ∈ l)) as [Hin|Hnin].
      * rewrite (bool_decide_eq_true_2 (m ∈ l)) by done.
        rewrite (bool_decide_eq_true_2 (m ∈ k :: l)) by (by apply list_elem_of_further).
        ring.
      * rewrite (bool_decide_eq_false_2 (m ∈ l)) by done.
        rewrite (bool_decide_eq_false_2 (m ∈ k :: l)).
        { ring. }
        rewrite elem_of_cons. naive_solver.
Qed.

Lemma is_month_seqZ (m : Z) : is_month m <-> m ∈ seqZ 1 12.
Proof.
  unfold is_month, valid_month. rewrite elem_of_seqZ, andb_true_iff. lia.
Qed.

Lemma new_calendar_has_all_months : has_all_months new_calendar.
Proof.
  intros m Hm. apply is_month_seqZ in Hm.
  vm_compute in Hm. vm_compute new_calendar.
  repeat (apply elem_of_cons in Hm as [->|Hm]; [by eexists|]).
  by apply elem_of_nil in Hm.
Qed.

(** One payment: the month exists, its entry grows by the amount and by
    one record. *)
Lemma pay_month (a : Asset.t) (shares : Z) (amt : Q) (cal : gmap Z Month.t)
    (m : Z) :
  has_all_months cal -> is_month m ->
  exists e,
    cal !! m = Some e
    /\ pay a shares amt cal m
       = Returned (<[m := {| Month.amount := (Month.amount e + amt)%Q;
                             Month.assets := (Month.assets e
                               ++ [payment_record a shares amt])%list |}]> cal).
Proof.
  intros Hall Hm. destruct (Hall m Hm) as [e He]. exists e.
  split; [done|]. unfold pay. by rewrite He.
Qed.

Lemma has_all_months_insert (cal : gmap Z Month.t) (m : Z) (e : Month.t) :
  has_all_months cal -> has_all_months (<[m := e]> cal).
Proof.
  intros Hall k Hk. rewrite lookup_insert_is_Some.
  destruct (decide (m = k)); [by left|right]. split; [done|]. by apply Hall.
Qed.

(** The loop [for month in payment_months] over months 1..12: it does
    not raise, the sum over the months grows by one amount per entry of
    the list, and each month receives one amount and one record per
    occurrence in the list. *)
Lemma for_each_pay (a : Asset.t) (shares : Z) (amt : Q) (l : list Z) :
  forall cal : gmap Z Month.t,
  has_all_months cal -> Forall is_month l ->
  exists cal',
    for_each l (pay a shares amt) cal = Returned cal'
    /\ has_all_months cal'
    /\ (months_total cal' == months_total cal + Qnat (length l) * amt)%Q
    /\ forall k,
         (amount_at cal' k
          == amount_at cal k + Qnat (count_occ Z.eq_dec l k) * amt)%Q
         /\ assets_at cal' k
            = (assets_at cal k
               ++ replicate (count_occ Z.eq_dec l k)
                    (payment_record a shares amt))%list.
Proof.
  induction l as [|m l IH]; intros cal Hall Hl.
  - exists cal. cbn [for_each length count_occ replicate].
    split; [done|]. split; [done|]. split.
    + unfold Qnat. cbn. ring.
    + intros k. split; [unfold Qnat; cbn; ring|by rewrite app_nil_r].
  - apply Forall_cons in Hl as [Hm Hl].
    destruct (pay_month a shares amt cal m Hall Hm) as (e & He & Hpay).
    set (e' := {| Month.amount := (Month.amount e + amt)%Q;
                  Month.assets := (Month.assets e
                    ++ [payment_record a shares amt])%list |}) in *.
    destruct (IH (<[m := e']> cal) (has_all_months_insert _ _ _ Hall) Hl)
      as (cal' & Hrun & Hall' & Htot & Hk).
    exists cal'. cbn [for_each]. rewrite Hpay. cbn [mbind result_bind].
    split; [done|]. split; [done|]. split.
    + rewrite Htot. unfold months_total. fold (total_over (seqZ 1 12) (<[m := e']> cal)).
      fold (total_over (seqZ 1 12) cal).
      rewrite (total_over_insert _ _ _ e e') by (done || apply NoDup_seqZ).
      rewrite bool_decide_eq_true_2 by (by apply is_month_seqZ).
      cbn [length]. rewrite Qnat_S. subst e'. cbn [Month.amount]. ring.
    + intros k. destruct (Hk k) as [Hamt Hassets]. split.
      * rewrite Hamt, amount_at_insert. cbn [count_occ].
        destruct (Z.eq_dec m k) as [->|Hne].
        -- rewrite bool_decide_eq_true_2 by done. rewrite Qnat_S.
           unfold amount_at. rewrite He. subst e'. cbn [Month.amount]. ring.
        -- rewrite bool_decide_eq_false_2 by done. reflexivity.
      * rewrite Hassets, assets_at_insert. cbn [count_occ].
        destruct (Z.eq_dec m k) as [->|Hne].
        -- rewrite bool_decide_eq_true_2 by done.
           unfold assets_at. rewrite He. subst e'. cbn [Month.assets replicate].
           by rewrite <- app_assoc.
        -- by rewrite bool_decide_eq_false_2 by done.
Qed.

End Payments.

Section Aggregation.

Import DividendHunterApp.

Variable shares_dict : gmap string Z.

Lemma included_not_skipped (a : Asset.t) :
  included shares_dict a = negb (skipped shares_dict a).
Proof.
  unfold included, skipped, total_annual, shares_of.
  set (shares := default 0 (shares_dict !! Asset.symbol a)).
  destruct (Z.leb_spec shares 0), (Z.ltb_spec 0 shares); try lia; try done.
  cbn [andb]. by rewrite negb_orb.
Qed.

Lemma asset_step_skipped (cal : gmap Z Month.t) (a : Asset.t) :
  skipped shares_dict a = true -> asset_step shares_dict cal a = Returned cal.
Proof.
  unfold skipped, asset_step.
  destruct (_ <=? 0); [done|]. by intros ->.
Qed.

Lemma num_payments_length (l : list Z) (d : Z) :
  l <> [] -> num_payments l d = Z.of_nat (length l).
Proof. by destruct l. Qed.

(** A holding that passes the skip tests with one of the three paying
    cadences is distributed over its effective months in equal parts. *)
Lemma asset_step_paying (cal : gmap Z Month.t) (a : Asset.t) :
  included shares_dict a = true ->
  paying_label (frequency_of a) = true ->
  asset_step shares_dict cal a
  = for_each (effective_months a)
      (pay a (shares_of shares_dict a)
         (total_annual shares_dict a / Qnat (length (effective_months a))))
      cal.
Proof.
  intros Hinc Hlabel.
  pose proof (effective_months_paying a Hlabel) as Hne.
  rewrite included_not_skipped in Hinc. apply negb_true_iff in Hinc.
  unfold skipped in Hinc. unfold asset_step, total_annual, shares_of, Qnat.
  destruct (_ <=? 0); [done|]. rewrite Hinc.
  rewrite !(num_payments_length _ _ Hne).
  unfold paying_label in Hlabel.
  destruct (is_freq _ "mensual"); [done|].
  destruct (is_freq _ "trimestral"); [done|].
  destruct (is_freq _ "irregular"); done.
Qed.

(** With any other cadence the holding leaves the calendar as it is. *)
Lemma asset_step_not_paying (cal : gmap Z Month.t) (a : Asset.t) :
  paying_label (frequency_of a) = false ->
  asset_step shares_dict cal a = Returned cal.
Proof.
  unfold paying_label, asset_step. intros Hlabel.
  apply orb_false_iff in Hlabel as [Hlabel Hi].
  apply orb_false_iff in Hlabel as [Hm Ht].
  destruct (_ <=? 0); [done|]. destruct (_ || _); [done|].
  by rewrite Hm, Ht, Hi.
Qed.

Lemma Qnat_length_nonzero (l : list Z) : l <> [] -> ~ (Qnat (length l) == 0)%Q.
Proof.
  intros Hne. destruct l as [|x l]; [done|]. unfold Qnat, Qeq. cbn. lia.
Qed.

(** The effect of one holding on the sum over the months. *)
Lemma asset_step_total (cal : gmap Z Month.t) (a : Asset.t) :
  has_all_months cal ->
  exists cal',
    asset_step shares_dict cal a = Returned cal'
    /\ has_all_months cal'
    /\ (months_total cal'
        == months_total cal
           + (if paying shares_dict a then total_annual shares_dict a else 0))%Q.
Proof.
  intros Hall. unfold paying.
  destruct (included shares_dict a) eqn:Hinc; cbn [andb].
  - destruct (paying_label (frequency_of a)) eqn:Hlabel.
    + rewrite (asset_step_paying cal a Hinc Hlabel).
      destruct (for_each_pay a (shares_of shares_dict a)
                  (total_annual shares_dict a / Qnat (length (effective_months a)))
                  (effective_months a) cal Hall (effective_months_valid a))
        as (cal' & Hrun & Hall' & Htot & _).
      exists cal'. split; [done|]. split; [done|]. rewrite Htot.
      pose proof (Qnat_length_nonzero _ (effective_months_paying a Hlabel)).
      field. done.
    + exists cal. rewrite (asset_step_not_paying cal a Hlabel).
      split; [done|]. split; [done|]. ring.
  - exists cal. rewrite included_not_skipped in Hinc.
    apply negb_false_iff in Hinc. rewrite (asset_step_skipped cal a Hinc).
    split; [done|]. split; [done|]. ring.
Qed.

Lemma for_each_asset_step_total (assets : list Asset.t) :
  forall cal : gmap Z Month.t,
  has_all_months cal ->
  exists cal',
    for_each assets (asset_step shares_dict) cal = Returned cal'
    /\ has_all_months cal'
    /\ (months_total cal'
        == months_total cal
           + holdings_total (paying shares_dict) shares_dict assets)%Q.
Proof.
  induction assets as [|a assets IH]; intros cal Hall.
  - exists cal. split; [done|]. split; [done|]. cbn. ring.
  - destruct (asset_step_total cal a Hall) as (cal1 & Hstep & Hall1 & Htot1).
    destruct (IH cal1 Hall1) as (cal' & Hrun & Hall' & Htot).
    exists cal'. cbn [for_each]. rewrite Hstep. cbn [mbind result_bind].
    split; [done|]. split; [done|]. rewrite Htot, Htot1.
    cbn [holdings_total fold_right]. fold (holdings_total (paying shares_dict) shares_dict assets).
    destruct (paying shares_dict a); ring.
Qed.

Lemma months_total_new_calendar : (months_total new_calendar == 0)%Q.
Proof. vm_compute. reflexivity. Qed.

Lemma cadence_included_paying (a : Asset.t) :
  cadence (frequency_of a) -> paying shares_dict a = included shares_dict a.
Proof.
  intros Hc. unfold paying. destruct (included shares_dict a) eqn:Hinc; [|done].
  cbn [andb]. unfold included in Hinc. apply andb_true_iff in Hinc as [_ Hnone].
  apply negb_true_iff in Hnone. unfold paying_label, is_freq in *.
  destruct Hc as [Hc|[Hc|[Hc|Hc]]]; rewrite Hc in *; try reflexivity.
  by rewrite bool_decide_eq_true_2 in Hnone.
Qed.

(** C2. For a portfolio whose holdings carry one of the four cadences,
    the sum over the twelve months of the gross amounts of the calendar
    equals the sum of annual_dividend_per_share * shares over the included
    holdings: those with shares > 0, a positive annual total and a cadence
    other than 'sin_dividendos'. *)
Theorem gross_conservation (assets : list Asset.t) :
  Forall (fun a => cadence (frequency_of a)) assets ->
  exists cal,
    _calculate_monthly_dividends assets shares_dict = Returned cal
    /\ (months_total cal
        == holdings_total (included shares_dict) shares_dict assets)%Q.
Proof.
  intros Hcadences.
  destruct (for_each_asset_step_total assets new_calendar
              new_calendar_has_all_months) as (cal & Hrun & _ & Htot).
  exists cal. split; [done|]. rewrite Htot, months_total_new_calendar.
  rewrite Qplus_0_l. unfold holdings_total. clear cal Hrun Htot.
  induction Hcadences as [|a l Ha Hl IH]; cbn [fold_right]; [reflexivity|].
  rewrite (cadence_included_paying a Ha).
  destruct (included shares_dict a); [|exact IH]. by rewrite IH.
Qed.

End Aggregation.

Section Claims.

Import DividendHunterApp.

Lemma gross_conservation_witness :
  Forall (fun a => cadence (frequency_of a)) [scenario_C_asset]
  /\ exists cal,
       _calculate_monthly_dividends [scenario_C_asset] scenario_C_shares
       = Returned cal
       /\ (months_total cal
           == holdings_total (included scenario_C_shares) scenario_C_shares
                [scenario_C_asset])%Q.
Proof.
  assert (Forall (fun a => cadence (frequency_of a)) [scenario_C_asset])
    as Hcadences.
  { constructor; [|constructor]. right. left. reflexivity. }
  split; [exact Hcadences|].
  exact (gross_conservation scenario_C_shares [scenario_C_asset] Hcadences).
Defined.

(** The hypothesis on the cadences is needed: a holding with the label
    'anual', which is none of the four, passes the three tests but reaches
    no month. *)
Remark conservation_fails_for_other_labels :
  exists cal,
    _calculate_monthly_dividends [annual_payer] ten_shares = Returned cal
    /\ included ten_shares annual_payer = true
    /\ ~ (months_total cal
          == holdings_total (included ten_shares) ten_shares
               [annual_payer])%Q.
Proof.
  eexists. split; [vm_compute; reflexivity|]. split; [vm_compute; reflexivity|].
  intros H. vm_compute in H. discriminate H.
Qed.

Lemma for_each_app {A S : Type} (body : S -> A -> result S) (l1 l2 : list A)
    (s : S) :
  for_each (l1 ++ l2)%list body s
  = s' ← for_each l1 body s; for_each l2 body s'.
Proof.
  revert s. induction l1 as [|x l1 IH]; intros s; [done|].
  cbn [app for_each]. destruct (body s x) as [s1|e]; [|done].
  cbn [mbind result_bind]. apply IH.
Qed.

Lemma unknown_label_not_paying (f : option string) :
  unknown_label f -> paying_label f = false.
Proof.
  intros (Hm & Ht & Hi & _). unfold paying_label, is_freq.
  by rewrite !bool_decide_eq_false_2.
Qed.

(** C10. A holding whose cadence label is none of the four labels of the
    classifier passes the skip tests (when it has shares and a positive
    annual total), leaves every month as it was and raises nothing: the
    calendar is the one computed without it. *)
Theorem unknown_cadence_ignored (shares_dict : gmap string Z) (a : Asset.t) :
  unknown_label (frequency_of a) ->
  (0 < shares_of shares_dict a ->
   (0 < total_annual shares_dict a)%Q ->
   skipped shares_dict a = false)
  /\ (forall cal, asset_step shares_dict cal a = Returned cal)
  /\ (forall before after,
        _calculate_monthly_dividends (before ++ a :: after)%list shares_dict
        = _calculate_monthly_dividends (before ++ after)%list shares_dict).
Proof.
  intros Hlabel.
  assert (forall cal, asset_step shares_dict cal a = Returned cal) as Hstep.
  { intros cal. apply asset_step_not_paying. by apply unknown_label_not_paying. }
  split; [|split; [done|]].
  - intros Hshares Htotal. unfold skipped.
    fold (shares_of shares_dict a). fold (total_annual shares_dict a).
    destruct (Z.leb_spec (shares_of shares_dict a) 0); [lia|].
    apply orb_false_iff. split.
    + destruct (Qle_bool _ 0) eqn:Hle; [|done].
      apply Qle_bool_iff in Hle. by apply Qle_not_lt in Hle.
    + destruct Hlabel as (_ & _ & _ & Hn). unfold is_freq.
      by rewrite bool_decide_eq_false_2.
  - intros before after. unfold _calculate_monthly_dividends.
    rewrite !for_each_app. destruct (for_each before _ _) as [cal|e]; [|done].
    cbn [mbind result_bind for_each]. by rewrite Hstep.
Qed.

Lemma unknown_cadence_ignored_witness :
  unknown_label (frequency_of annual_payer)
  /\ 0 < shares_of ten_shares annual_payer
  /\ (0 < total_annual ten_shares annual_payer)%Q
  /\ skipped ten_shares annual_payer = false
  /\ _calculate_monthly_dividends ([scenario_C_asset] ++ annual_payer :: [])%list
       ten_shares
     = _calculate_monthly_dividends ([scenario_C_asset] ++ [])%list ten_shares.
Proof.
  assert (unknown_label (frequency_of annual_payer)) as Hlabel.
  { repeat split; discriminate. }
  assert (0 < shares_of ten_shares annual_payer) as Hshares
    by (vm_compute; reflexivity).
  assert (0 < total_annual ten_shares annual_payer)%Q as Htotal
    by (vm_compute; reflexivity).
  pose proof (unknown_cadence_ignored ten_shares annual_payer Hlabel)
    as (Hskip & _ & Hsame).
  split; [exact Hlabel|]. split; [exact Hshares|]. split; [exact Htotal|].
  split; [exact (Hskip Hshares Htotal)|]. apply Hsame.
Defined.

End Claims.

Section Schedule.

Import DividendHunterApp.

Lemma count_occ_NoDup (l : list Z) (k : Z) :
  NoDup l ->
  count_occ Z.eq_dec l k = if bool_decide (k ∈ l) then 1%nat else 0%nat.
Proof.
  induction 1 as [|x l Hx Hnd IH]; cbn [count_occ].
  - by rewrite bool_decide_eq_false_2 by apply not_elem_of_nil.
  - destruct (Z.eq_dec x k) as [->|Hne].
    + rewrite IH, (bool_decide_eq_false_2 (k ∈ l)) by done.
      by rewrite bool_decide_eq_true_2 by apply list_elem_of_here.
    + rewrite IH.
      assert (bool_decide (k ∈ x :: l) = bool_decide (k ∈ l)) as ->; [|done].
      apply bool_decide_ext. rewrite elem_of_cons. naive_solver.
Qed.

Lemma cadence_schedule_NoDup (label : string) : NoDup (cadence_schedule label).
Proof.
  unfold cadence_schedule.
  repeat (destruct (String.eqb label _);
          [apply (bool_decide_unpack _); vm_compute; exact I|]).
  constructor.
Qed.

Lemma cadence_schedule_valid (label : string) :
  Forall is_month (cadence_schedule label).
Proof.
  unfold cadence_schedule.
  repeat (destruct (String.eqb label _); [by repeat constructor|]).
  constructor.
Qed.

(** C6. A holding that passes the skip tests with cadence 'mensual',
    'trimestral' or 'irregular' and without usable stored months is
    distributed over the default schedule of its cadence (all twelve
    months, [3;6;9;12], [6;12]): each month of the schedule receives one
    record and total_annual / (number of months of the schedule), the
    other months receive nothing. *)
Theorem default_schedule_split (shares_dict : gmap string Z) (a : Asset.t)
    (label : string) (cal : gmap Z Month.t) :
  included shares_dict a = true ->
  frequency_of a = Some label ->
  label = "mensual" \/ label = "trimestral" \/ label = "irregular" ->
  parse_months_data a = [] ->
  has_all_months cal ->
  let schedule := cadence_schedule label in
  let per_payment := (total_annual shares_dict a / Qnat (length schedule))%Q in
  effective_months a = schedule
  /\ exists cal',
       asset_step shares_dict cal a = Returned cal'
       /\ forall m,
            (amount_at cal' m
             == amount_at cal m
                + (if bool_decide (m ∈ schedule) then per_payment else 0))%Q
            /\ assets_at cal' m
               = (assets_at cal m
                  ++ (if bool_decide (m ∈ schedule)
                      then [payment_record a (shares_of shares_dict a) per_payment]
                      else []))%list.
Proof.
  intros Hinc Hfreq Hlabel Hparse Hall schedule per_payment.
  assert (effective_months a = schedule) as Heff.
  { unfold effective_months. rewrite Hparse, Hfreq. subst schedule.
    destruct Hlabel as [-> | [-> | ->] ]; reflexivity. }
  assert (paying_label (frequency_of a) = true) as Hpaying.
  { rewrite Hfreq. destruct Hlabel as [-> | [-> | ->] ]; reflexivity. }
  split; [done|].
  rewrite (asset_step_paying shares_dict cal a Hinc Hpaying), Heff.
  fold per_payment.
  destruct (for_each_pay a (shares_of shares_dict a) per_payment schedule cal
              Hall (cadence_schedule_valid label))
    as (cal' & Hrun & _ & _ & Hmonth).
  exists cal'. split; [done|]. intros m.
  destruct (Hmonth m) as [Hamt Hassets].
  rewrite Hamt, Hassets, (count_occ_NoDup _ _ (cadence_schedule_NoDup label)).
  fold schedule. destruct (bool_decide (m ∈ schedule)); cbn [replicate].
  - split; [unfold Qnat; cbn; ring|done].
  - split; [unfold Qnat; cbn; ring|done].
Qed.

Lemma default_schedule_split_witness :
  let schedule := [3; 6; 9; 12] in
  let per_payment := (total_annual scenario_C_shares scenario_C_asset / Qnat 4)%Q in
  included scenario_C_shares scenario_C_asset = true
  /\ frequency_of scenario_C_asset = Some "trimestral"
  /\ parse_months_data scenario_C_asset = []
  /\ has_all_months new_calendar
  /\ effective_months scenario_C_asset = schedule
  /\ exists cal',
       asset_step scenario_C_shares new_calendar scenario_C_asset = Returned cal'
       /\ forall m,
            (amount_at cal' m
             == amount_at new_calendar m
                + (if bool_decide (m ∈ schedule) then per_payment else 0))%Q
            /\ assets_at cal' m
               = (assets_at new_calendar m
                  ++ (if bool_decide (m ∈ schedule)
                      then [payment_record scenario_C_asset
                              (shares_of scenario_C_shares scenario_C_asset)
                              per_payment]
                      else []))%list.
Proof.
  intros schedule per_payment.
  split; [vm_compute; reflexivity|]. split; [reflexivity|].
  split; [reflexivity|]. split; [exact new_calendar_has_all_months|].
  apply (default_schedule_split scenario_C_shares scenario_C_asset "trimestral"
           new_calendar);
    [vm_compute; reflexivity | reflexivity | right; left; reflexivity
    | reflexivity | exact new_calendar_has_all_months].
Defined.

End Schedule.

Section Taxes.

Import DividendHunterApp.

(** The aggregation itself returns a calendar for every portfolio. *)
Lemma _calculate_monthly_dividends_returns (assets : list Asset.t)
    (shares_dict : gmap string Z) :
  exists cal, _calculate_monthly_dividends assets shares_dict = Returned cal.
Proof.
  destruct (for_each_asset_step_total shares_dict assets new_calendar
              new_calendar_has_all_months) as (cal & Hcal & _).
  by exists cal.
Qed.


(** The calendar shown by the tab is the taxed gross calendar of the
    selected assets. *)
Lemma _portfolio_calendar_tab_shown (st : Session) (all_assets : list Asset.t)
    (cal : gmap Z Month.t) :
  _portfolio_calendar_tab st all_assets = Returned (Some cal) ->
  exists cal0,
    _calculate_monthly_dividends (selected_assets st all_assets)
      (portfolio_shares st) = Returned cal0
    /\ cal = apply_taxes (portfolio_tax_rates st) cal0.
Proof.
  unfold _portfolio_calendar_tab.
  destruct (portfolio_selected st); [done|].
  destruct (selected_assets st all_assets) as [|a rest]; [done|].
  destruct (_calculate_monthly_dividends (a :: rest) (portfolio_shares st))
    as [cal0|e]; [|done].
  cbn [mbind result_bind]. destruct (List.filter _ _); [done|].
  intros [= <-]. by exists cal0.
Qed.






End Taxes.

Section TaxesInBinary64.

Import PrimFloat.



End TaxesInBinary64.

(** * Further properties of the code *)

(** ** Sorted month lists *)

Section SortedSets.

Lemma elem_of_insert_sorted (x y : Z) (l : list Z) :
  y ∈ insert_sorted x l <-> y = x \/ y ∈ l.
Proof.
  induction l as [|z l IH]; cbn [insert_sorted].
  - rewrite list_elem_of_singleton, elem_of_nil. tauto.
  - destruct (Z.ltb_spec x z).
    + by rewrite elem_of_cons.
    + destruct (Z.eqb_spec x z) as [->|Hne].
      * rewrite elem_of_cons. tauto.
      * rewrite !elem_of_cons, IH. tauto.
Qed.

Lemma elem_of_sorted_set (y : Z) (l : list Z) : y ∈ sorted_set l <-> y ∈ l.
Proof.
  unfold sorted_set. induction l as [|x l IH]; cbn [fold_right]; [done|].
  rewrite elem_of_insert_sorted, IH, elem_of_cons. tauto.
Qed.

Lemma insert_sorted_StronglySorted (x : Z) (l : list Z) :
  StronglySorted Z.lt l -> StronglySorted Z.lt (insert_sorted x l).
Proof.
  induction 1 as [|z l Hl IH Hz]; cbn [insert_sorted].
  - repeat constructor.
  - destruct (Z.ltb_spec x z) as [Hlt|Hge].
    + constructor; [by constructor|]. constructor; [done|].
      eapply Forall_impl; [exact Hz|]. intros; cbn in *; lia.
    + destruct (Z.eqb_spec x z) as [->|Hne]; [by constructor|].
      constructor; [done|]. apply Forall_forall. intros y Hy.
      apply elem_of_insert_sorted in Hy as [->|Hy]; [lia|].
      rewrite Forall_forall in Hz. by apply Hz.
Qed.

Lemma sorted_set_StronglySorted (l : list Z) : StronglySorted Z.lt (sorted_set l).
Proof.
  unfold sorted_set. induction l as [|x l IH]; cbn [fold_right].
  - constructor.
  - by apply insert_sorted_StronglySorted.
Qed.

Lemma StronglySorted_lt_NoDup (l : list Z) : StronglySorted Z.lt l -> NoDup l.
Proof.
  induction 1 as [|x l Hl IH Hx]; constructor; [|done].
  intros Hin. rewrite Forall_forall in Hx. specialize (Hx x Hin). lia.
Qed.

(** A strictly increasing list is determined by its elements. *)
Lemma StronglySorted_lt_ext (l1 l2 : list Z) :
  StronglySorted Z.lt l1 -> StronglySorted Z.lt l2 ->
  (forall x, x ∈ l1 <-> x ∈ l2) -> l1 = l2.
Proof.
  intros H1 H2 Hext. apply (StronglySorted_unique_strong Z.lt); [|done..|].
  - intros; lia.
  - apply NoDup_Permutation; auto using StronglySorted_lt_NoDup.
Qed.

Lemma sorted_set_ext (l1 l2 : list Z) :
  (forall x, x ∈ l1 <-> x ∈ l2) -> sorted_set l1 = sorted_set l2.
Proof.
  intros Hext. apply StronglySorted_lt_ext; auto using sorted_set_StronglySorted.
  intros x. by rewrite !elem_of_sorted_set.
Qed.

Lemma sorted_set_fixed (l : list Z) : StronglySorted Z.lt l -> sorted_set l = l.
Proof.
  intros Hl. apply StronglySorted_lt_ext; auto using sorted_set_StronglySorted.
  intros x. apply elem_of_sorted_set.
Qed.

End SortedSets.

(** ** The classifier *)

Section ClassifierMore.

Import DividendAnalyzer.

Lemma month_of_day_range (d : Z) : 1 <= month_of_day d <= 12.
Proof.
  unfold month_of_day. cbv zeta.
  destruct (_ <? 10) eqn:Hmp;
    [apply Z.ltb_lt in Hmp | apply Z.ltb_ge in Hmp];
    Z.to_euclidean_division_equations; lia.
Qed.

Lemma month_is_month (t : Z) : is_month (month t).
Proof.
  unfold is_month, valid_month, month.
  pose proof (month_of_day_range (day_of t)).
  apply andb_true_iff. split; apply Z.leb_le; lia.
Qed.

Lemma StronglySorted_lt_length (l : list Z) (a b : Z) :
  StronglySorted Z.lt l -> Forall (fun x => a <= x <= b) l ->
  Z.of_nat (length l) <= Z.max 0 (b - a + 1).
Proof.
  intros Hl. revert a. induction Hl as [|x l Hl IH Hx]; intros a Hab.
  - cbn. lia.
  - apply Forall_cons in Hab as [Hxab Hab].
    assert (Forall (fun y => x + 1 <= y <= b) l) as Hl'.
    { rewrite Forall_forall in Hx, Hab. apply Forall_forall. intros y Hy.
      specialize (Hx y Hy). specialize (Hab y Hy). lia. }
    specialize (IH (x + 1) Hl'). cbn [length]. lia.
Qed.

(** The payment months of a profile are strictly increasing month numbers
    between 1 and 12, so there are at most twelve of them. *)
Theorem payment_months_sorted_valid (t : Ticker) (s : Series) (now1 now2 : Z) :
  priced t ->
  dividends t = Returned s ->
  exists m,
    get_asset_metrics t now1 now2 = Some m
    /\ StronglySorted Z.lt (dividend_payment_months m)
    /\ Forall is_month (dividend_payment_months m)
    /\ (length (dividend_payment_months m) <= 12)%nat.
Proof.
  intros Hp Hs.
  destruct (get_asset_metrics_history t s now1 now2 Hp Hs)
    as (m & Hm & _ & _ & Hmonths).
  exists m. split; [done|]. rewrite Hmonths.
  set (l := map month (map fst (window s now2))).
  assert (Forall is_month (sorted_set l)) as Hvalid.
  { apply sorted_set_Forall. subst l. apply Forall_forall. intros x Hx.
    change (map ?f ?k) with (f <$> k) in Hx.
    apply list_elem_of_fmap in Hx as (y & -> & _). apply month_is_month. }
  split; [apply sorted_set_StronglySorted|]. split; [done|].
  pose proof (StronglySorted_lt_length (sorted_set l) 1 12
                (sorted_set_StronglySorted l)) as Hlen.
  assert (Forall (fun x => 1 <= x <= 12) (sorted_set l)) as Hrange.
  { eapply Forall_impl; [exact Hvalid|]. intros x Hx.
    unfold is_month, valid_month in Hx. apply andb_true_iff in Hx as [H1 H2].
    apply Z.leb_le in H1, H2. lia. }
  specialize (Hlen Hrange). lia.
Qed.

Lemma payment_months_sorted_valid_witness :
  priced scenario_B
  /\ dividends scenario_B = Returned scenario_B_history
  /\ exists m,
       get_asset_metrics scenario_B (at_day 20089) (at_day 20089) = Some m
       /\ StronglySorted Z.lt (dividend_payment_months m)
       /\ Forall is_month (dividend_payment_months m)
       /\ (length (dividend_payment_months m) <= 12)%nat.
Proof.
  split; [exact scenario_B_priced|]. split; [reflexivity|].
  apply (payment_months_sorted_valid scenario_B scenario_B_history);
    [exact scenario_B_priced | reflexivity].
Defined.

(** The cadence and the payment months depend on the events of the
    trailing window only, and not on their order: two histories whose
    windows hold the same events, in any order, give the same cadence and
    the same payment months, each window taken at the clock reading that
    the code uses for it.  The annual dividend is the same when the
    windows hold the same events in the same order. *)
Theorem profile_depends_on_window (t1 t2 : Ticker) (s1 s2 : Series)
    (now1 now2 : Z) :
  priced t1 -> priced t2 ->
  dividends t1 = Returned s1 -> dividends t2 = Returned s2 ->
  (window s1 now1 ≡ₚ window s2 now1 ->
   analyze_dividend_frequency t1 now1 = analyze_dividend_frequency t2 now1)
  /\ exists m1 m2,
       get_asset_metrics t1 now1 now2 = Some m1
       /\ get_asset_metrics t2 now1 now2 = Some m2
       /\ (window s1 now1 ≡ₚ window s2 now1 ->
           dividend_frequency m1 = dividend_frequency m2)
       /\ (window s1 now2 ≡ₚ window s2 now2 ->
           dividend_payment_months m1 = dividend_payment_months m2)
       /\ (window s1 now2 = window s2 now2 ->
           annual_dividend m1 = annual_dividend m2).
Proof.
  intros Hp1 Hp2 Hs1 Hs2.
  assert (window s1 now1 ≡ₚ window s2 now1 ->
          analyze_dividend_frequency t1 now1 = analyze_dividend_frequency t2 now1)
    as Hfreq.
  { intros Hperm.
    rewrite (analyze_dividend_frequency_count t1 s1 now1 Hs1),
      (analyze_dividend_frequency_count t2 s2 now1 Hs2).
    f_equal. unfold payment_count, payment_days. f_equal.
    apply list_to_set_perm_L. by apply Permutation_map. }
  split; [done|].
  destruct (get_asset_metrics_history t1 s1 now1 now2 Hp1 Hs1)
    as (m1 & Hm1 & Hf1 & Ha1 & Hmo1).
  destruct (get_asset_metrics_history t2 s2 now1 now2 Hp2 Hs2)
    as (m2 & Hm2 & Hf2 & Ha2 & Hmo2).
  exists m1, m2. split; [done|]. split; [done|].
  split; [intros Hperm; rewrite Hf1, Hf2; by apply Hfreq|]. split.
  - intros Hperm. rewrite Hmo1, Hmo2. apply sorted_set_ext. intros x.
    assert (map month (map fst (window s1 now2))
            ≡ₚ map month (map fst (window s2 now2))) as Hp
      by (by do 2 apply Permutation_map).
    by rewrite Hp.
  - intros Heq. rewrite Ha1, Ha2. unfold window_total. by rewrite Heq.
Qed.

Lemma profile_depends_on_window_witness :
  window scenario_B_history (at_day 20089)
    ≡ₚ window scenario_B_shuffled (at_day 20089)
  /\ analyze_dividend_frequency scenario_B (at_day 20089)
     = analyze_dividend_frequency scenario_B_shuffled_ticker (at_day 20089)
  /\ exists m1 m2,
       get_asset_metrics scenario_B (at_day 20089) (at_day 20089) = Some m1
       /\ get_asset_metrics scenario_B_shuffled_ticker (at_day 20089)
            (at_day 20089) = Some m2
       /\ dividend_frequency m1 = dividend_frequency m2
       /\ dividend_payment_months m1 = dividend_payment_months m2.
Proof.
  assert (priced scenario_B_shuffled_ticker) as Hp2.
  { split; [reflexivity|]. eexists. reflexivity. }
  assert (window scenario_B_history (at_day 20089)
            ≡ₚ window scenario_B_shuffled (at_day 20089)) as Hperm.
  { vm_compute. apply perm_swap. }
  split; [exact Hperm|].
  destruct (profile_depends_on_window scenario_B scenario_B_shuffled_ticker
              scenario_B_history scenario_B_shuffled (at_day 20089) (at_day 20089)
              scenario_B_priced Hp2 eq_refl eq_refl)
    as (Hfreq & m1 & m2 & Hm1 & Hm2 & Hf & Hmo & _).
  split; [exact (Hfreq Hperm)|].
  exists m1, m2. split; [exact Hm1|]. split; [exact Hm2|].
  split; [exact (Hf Hperm)|exact (Hmo Hperm)].
Defined.

(** Metrics are missing exactly when the [info] check fails, no price is
    found or reading the dividends raises; in the last case the classifier
    itself still answers 'irregular'. *)
Theorem get_asset_metrics_none (t : Ticker) (now1 now2 : Z) :
  (get_asset_metrics t now1 now2 = None
   <-> info_ok t = false \/ price_of t = None \/ fails (dividends t))
  /\ (fails (dividends t) ->
      get_asset_metrics t now1 now2 = None
      /\ analyze_dividend_frequency t now1 = "irregular").
Proof.
  assert (fails (dividends t) -> get_asset_metrics t now1 now2 = None) as Hraise.
  { intros [e He]. unfold get_asset_metrics, get_ticker_data.
    destruct (info_ok t); [|done]. destruct (price_of t); [|done].
    unfold get_asset_metrics_body. by rewrite He. }
  split.
  - split.
    + intros Hnone. destruct (info_ok t) eqn:Hinfo; [|by left].
      destruct (price_of t) as [p|] eqn:Hprice; [|by right; left].
      destruct (dividends t) as [s|e] eqn:Hs; [|by right; right; exists e].
      assert (priced t) as Hp by (split; [done|by exists p]).
      destruct (get_asset_metrics_history t s now1 now2 Hp Hs) as (m & Hm & _).
      congruence.
    + intros [Hinfo|[Hprice|Hfail]].
      * unfold get_asset_metrics, get_ticker_data. by rewrite Hinfo.
      * unfold get_asset_metrics, get_ticker_data.
        destruct (info_ok t); [|done]. by rewrite Hprice.
      * by apply Hraise.
  - intros Hfail. split; [by apply Hraise|].
    destruct Hfail as [e He].
    unfold analyze_dividend_frequency, analyze_dividend_frequency_body.
    by rewrite He.
Qed.

Lemma get_asset_metrics_none_witness :
  fails (dividends broken_feed)
  /\ get_asset_metrics broken_feed (at_day 20089) (at_day 20089) = None
  /\ analyze_dividend_frequency broken_feed (at_day 20089) = "irregular".
Proof.
  assert (fails (dividends broken_feed)) as Hfail by (by exists FeedError).
  split; [exact Hfail|].
  apply (get_asset_metrics_none broken_feed (at_day 20089) (at_day 20089)).
  exact Hfail.
Defined.

End ClassifierMore.

(** ** The stored month list *)

Section StoredMonths.

Import DatabaseManager.

(** The parser returns a strictly increasing list of months 1..12,
    whatever the string. *)
Theorem _parse_payment_months_sorted (months_str : string) :
  StronglySorted Z.lt (_parse_payment_months months_str)
  /\ Forall is_month (_parse_payment_months months_str)
  /\ (length (_parse_payment_months months_str) <= 12)%nat.
Proof.
  assert (StronglySorted Z.lt (_parse_payment_months months_str)) as Hsorted.
  { unfold _parse_payment_months. destruct (_ || _); [constructor|].
    apply sorted_set_StronglySorted. }
  pose proof (_parse_payment_months_valid months_str) as Hvalid.
  split; [done|]. split; [done|].
  pose proof (StronglySorted_lt_length _ 1 12 Hsorted) as Hlen.
  assert (Forall (fun x => 1 <= x <= 12) (_parse_payment_months months_str))
    as Hrange.
  { eapply Forall_impl; [exact Hvalid|]. intros x Hx.
    unfold is_month, valid_month in Hx. apply andb_true_iff in Hx as [H1 H2].
    apply Z.leb_le in H1, H2. lia. }
  specialize (Hlen Hrange). lia.
Qed.

Lemma is_digit_plain (c : ascii) :
  is_digit c = true -> is_space c = false /\ Ascii.eqb c "," = false.
Proof.
  unfold is_digit, is_space. cbv zeta. intros Hd.
  apply andb_true_iff in Hd as [H1 H2]. apply Z.leb_le in H1, H2. split.
  - apply orb_false_iff. split; apply andb_false_iff.
    + right. apply Z.leb_gt. lia.
    + right. apply Z.leb_gt. lia.
  - destruct (Ascii.eqb_spec c ",") as [->|]; [|done].
    exfalso. vm_compute in H1. by apply H1.
Qed.

Lemma all_digits_plain (s : string) :
  all_digits s = true -> no_space s = true /\ no_comma s = true.
Proof.
  induction s as [|c r IH]; [done|]. cbn [all_digits no_space no_comma].
  intros Hd. apply andb_true_iff in Hd as [Hc Hr].
  destruct (is_digit_plain c Hc) as [-> ->]. by destruct (IH Hr) as [-> ->].
Qed.

Lemma rstrip_no_space (s : string) : no_space s = true -> rstrip s = s.
Proof.
  induction s as [|c r IH]; [done|]. cbn [no_space rstrip]. intros Hs.
  apply andb_true_iff in Hs as [Hc Hr]. rewrite (IH Hr).
  apply negb_true_iff in Hc. rewrite Hc. by destruct r.
Qed.

Lemma strip_no_space (s : string) : no_space s = true -> strip s = s.
Proof.
  intros Hs. unfold strip. rewrite (rstrip_no_space s Hs).
  destruct s as [|c r]; [done|]. cbn [no_space] in Hs. cbn [lstrip].
  apply andb_true_iff in Hs as [Hc _]. apply negb_true_iff in Hc. by rewrite Hc.
Qed.

Lemma split_comma_not_nil (s : string) : split_comma s <> [].
Proof.
  induction s as [|c r IH]; [done|]. cbn [split_comma].
  destruct (Ascii.eqb c ","); [done|]. by destruct (split_comma r).
Qed.

Lemma split_comma_token (x rest : string) :
  no_comma x = true ->
  split_comma (x ++ String "," rest) = x :: split_comma rest.
Proof.
  induction x as [|c r IH]; intros Hx; [done|].
  cbn [no_comma] in Hx. apply andb_true_iff in Hx as [Hc Hr].
  apply negb_true_iff in Hc.
  change (String c r ++ ?s)%string with (String c (r ++ s)).
  cbn [split_comma]. by rewrite Hc, (IH Hr).
Qed.

Lemma split_comma_single (x : string) :
  no_comma x = true -> split_comma x = [x].
Proof.
  induction x as [|c r IH]; intros Hx; [done|].
  cbn [no_comma] in Hx. apply andb_true_iff in Hx as [Hc Hr].
  apply negb_true_iff in Hc. cbn [split_comma]. by rewrite Hc, (IH Hr).
Qed.

(** Splitting what [join] has put together gives the tokens back. *)
Lemma split_comma_join (l : list string) :
  l <> [] -> Forall (fun x => no_comma x = true) l ->
  split_comma (join "," l) = l.
Proof.
  induction l as [|x l IH]; [done|]. intros _ Hl.
  apply Forall_cons in Hl as [Hx Hl]. destruct l as [|y l].
  - by apply split_comma_single.
  - cbn [join]. change ("," ++ ?r)%string with (String "," r).
    rewrite (split_comma_token _ _ Hx). f_equal. by apply IH.
Qed.

Lemma no_space_app (s1 s2 : string) :
  no_space s1 = true -> no_space s2 = true -> no_space (s1 ++ s2) = true.
Proof.
  induction s1 as [|c r IH]; [done|].
  change (String c r ++ ?s)%string with (String c (r ++ s)). cbn [no_space].
  intros H1 H2. apply andb_true_iff in H1 as [Hc Hr].
  by rewrite Hc, (IH Hr H2).
Qed.

Lemma no_space_join (l : list string) :
  Forall (fun x => no_space x = true) l -> no_space (join "," l) = true.
Proof.
  induction 1 as [|x l Hx Hl IH]; [done|]. destruct l as [|y l]; [done|].
  cbn [join]. apply no_space_app; [done|]. by apply (no_space_app ","%string).
Qed.

Lemma int_from_acc (s : string) (a : Z) :
  int_from a s = a * 10 ^ len s + int_from 0 s.
Proof.
  unfold len. revert a. induction s as [|c r IH]; intros a.
  - cbn. lia.
  - cbn [int_from String.length]. rewrite (IH (10 * a + _)), (IH (10 * 0 + _)).
    rewrite Nat2Z.inj_succ, Z.pow_succ_r by lia. ring.
Qed.

Lemma pretty_N_char_digit (k : N) :
  (k < 10)%N ->
  is_digit (pretty_N_char k) = true
  /\ Z.of_nat (nat_of_ascii (pretty_N_char k)) - 48 = Z.of_N k.
Proof.
  intros Hk.
  assert (k = 0 \/ k = 1 \/ k = 2 \/ k = 3 \/ k = 4 \/ k = 5 \/ k = 6
          \/ k = 7 \/ k = 8 \/ k = 9)%N as Hcases by lia.
  repeat (destruct Hcases as [->|Hcases]; [by vm_compute|]).
  subst k. by vm_compute.
Qed.

(** The digits written by [str] are digits, and [int] reads them back. *)
Lemma pretty_N_go_int (x : N) (s : string) :
  all_digits s = true ->
  all_digits (pretty_N_go x s) = true
  /\ int_from 0 (pretty_N_go x s) = Z.of_N x * 10 ^ len s + int_from 0 s.
Proof.
  revert s. induction (N.lt_wf_0 x) as [x _ IH]; intros s Hs.
  destruct (decide (x = 0)%N) as [->|Hx].
  - rewrite pretty_N_go_0. split; [done|]. lia.
  - rewrite pretty_N_go_step by lia.
    assert (x `mod` 10 < 10)%N as Hmod by (apply N.mod_lt; lia).
    destruct (pretty_N_char_digit _ Hmod) as [Hd Hv].
    destruct (IH (x `div` 10)%N) with (s := String (pretty_N_char (x `mod` 10)) s)
      as [Hdigits Hint].
    { apply N.div_lt; lia. }
    { cbn [all_digits]. by rewrite Hd, Hs. }
    split; [done|]. rewrite Hint. cbn [int_from].
    rewrite (int_from_acc s (10 * 0 + _)). unfold len. cbn [String.length].
    rewrite Nat2Z.inj_succ, Z.pow_succ_r, Hv by lia.
    pose proof (N.div_mod x 10 ltac:(lia)) as Hdm.
    assert (Z.of_N x = 10 * Z.of_N (x `div` 10) + Z.of_N (x `mod` 10)) as Hx'
      by lia.
    rewrite Hx'. ring.
Qed.

Lemma str_nonneg (m : Z) :
  0 <= m -> isdigit (str m) = true /\ int (str m) = m.
Proof.
  intros Hm. destruct m as [|p|p]; [done| |lia].
  unfold str, pretty, pretty_Z, pretty, pretty_positive, pretty, pretty_N.
  rewrite decide_False by done.
  destruct (pretty_N_go_int (N.pos p) "" eq_refl) as [Hd Hi].
  change (Z.of_N (N.pos p) * 10 ^ len "" + int_from 0 "") with (Z.pos p * 1 + 0)
    in Hi.
  split; [|unfold int; lia].
  unfold isdigit. destruct (pretty_N_go (N.pos p) "") eqn:Hs; [|done].
  cbn [int_from] in Hi. lia.
Qed.

Lemma str_neg (m : Z) :
  m < 0 -> isdigit (str m) = false
           /\ no_space (str m) = true /\ no_comma (str m) = true.
Proof.
  intros Hm. destruct m as [|p|p]; [lia|lia|].
  unfold str, pretty, pretty_Z, pretty, pretty_positive, pretty, pretty_N.
  rewrite decide_False by done.
  destruct (pretty_N_go_int (N.pos p) "" eq_refl) as [Hd _].
  destruct (all_digits_plain _ Hd) as [Hs Hc].
  change ("-" +:+ ?r) with (String "-" r).
  cbn [isdigit all_digits no_space no_comma]. by rewrite Hs, Hc.
Qed.

Lemma str_plain (m : Z) : no_space (str m) = true /\ no_comma (str m) = true.
Proof.
  destruct (Z.lt_ge_cases m 0) as [Hneg|Hpos].
  - by destruct (str_neg m Hneg) as (_ & ? & ?).
  - destruct (str_nonneg m Hpos) as [Hd _]. apply all_digits_plain.
    unfold isdigit in Hd. by destruct (str m).
Qed.

(** One turn of the parser's loop on a token written by [str]. *)
Lemma parse_token (m : Z) :
  (if isdigit (strip (str m))
   then valid_month (int (strip (str m))) else false)
  = valid_month m
  /\ (valid_month m = true -> int (strip (str m)) = m).
Proof.
  destruct (str_plain m) as [Hs _]. rewrite (strip_no_space _ Hs).
  destruct (Z.lt_ge_cases m 0) as [Hneg|Hpos].
  - destruct (str_neg m Hneg) as (-> & _). split.
    + symmetry. unfold valid_month. apply andb_false_iff. left.
      apply Z.leb_gt. lia.
    + unfold valid_month. intros Hv. apply andb_true_iff in Hv as [Hv _].
      apply Z.leb_le in Hv. lia.
  - destruct (str_nonneg m Hpos) as [-> ->]. done.
Qed.

Lemma parse_loop (l acc : list Z) :
  fold_left (fun months m =>
               let m_clean := strip m in
               if isdigit m_clean then
                 let month_num := int m_clean in
                 if valid_month month_num then (months ++ [month_num])%list
                 else months
               else months)
            (map str l) acc
  = (acc ++ List.filter valid_month l)%list.
Proof.
  revert acc. induction l as [|m l IH]; intros acc; cbn [map fold_left List.filter].
  - by rewrite app_nil_r.
  - rewrite IH. destruct (parse_token m) as [Htok Hint]. cbv zeta.
    destruct (valid_month m) eqn:Hv.
    + destruct (isdigit (strip (str m))); [|done].
      rewrite Htok, (Hint eq_refl). by rewrite <- app_assoc.
    + destruct (isdigit (strip (str m))); [|done]. by rewrite Htok.
Qed.

Lemma elem_of_insert_ord (x y : Z) (l : list Z) :
  y ∈ insert_ord x l <-> y = x \/ y ∈ l.
Proof.
  induction l as [|z l IH]; cbn [insert_ord].
  - rewrite list_elem_of_singleton, elem_of_nil. tauto.
  - destruct (x <=? z); [by rewrite elem_of_cons|].
    rewrite !elem_of_cons, IH. tauto.
Qed.

Lemma elem_of_sorted (y : Z) (l : list Z) : y ∈ sorted l <-> y ∈ l.
Proof.
  unfold sorted. induction l as [|x l IH]; cbn [fold_right]; [done|].
  rewrite elem_of_insert_ord, IH, elem_of_cons. tauto.
Qed.

Lemma join_numeric (l : list Z) :
  l <> [] ->
  String.eqb (join "," (map str l)) "" = false
  /\ String.eqb (join "," (map str l)) "nan" = false.
Proof.
  intros Hl. destruct l as [|m l]; [done|].
  assert (exists c r, str m = String c r
                      /\ (is_digit c = true \/ c = "-"%char)) as (c & r & Hm & Hc).
  { destruct (Z.lt_ge_cases m 0) as [Hneg|Hpos].
    - destruct m as [|p|p]; [lia|lia|]. eexists _, _. split; [reflexivity|by right].
    - destruct (str_nonneg m Hpos) as [Hd _]. unfold isdigit in Hd.
      destruct (str m) as [|c r]; [done|]. exists c, r. split; [done|left].
      cbn [all_digits] in Hd. by apply andb_true_iff in Hd as [? _]. }
  assert (exists r', join "," (map str (m :: l)) = String c r') as [r' ->].
  { cbn [map join]. rewrite Hm. destruct (map str l); by eexists. }
  split; [done|]. cbn [String.eqb].
  destruct (Ascii.eqb_spec c "n") as [->|]; [|done].
  by destruct Hc as [Hc|Hc].
Qed.

Lemma parse_format_filter (months : list Z) :
  _parse_payment_months (_format_payment_months (Some months))
  = sorted_set (List.filter valid_month months).
Proof.
  destruct months as [|m months]; [done|].
  unfold _format_payment_months.
  set (l := sorted (m :: months)).
  assert (l <> []) as Hl.
  { intros Hnil. assert (m ∈ l) as Hin by (apply elem_of_sorted; left).
    rewrite Hnil in Hin. by apply elem_of_nil in Hin. }
  destruct (join_numeric l Hl) as [He Hn].
  assert (no_space (join "," (map str l)) = true) as Hs.
  { apply no_space_join, Forall_forall. intros x Hx.
    change (map str l) with (str <$> l) in Hx.
    apply list_elem_of_fmap in Hx as (k & -> & _). apply str_plain. }
  unfold _parse_payment_months.
  rewrite (strip_no_space _ Hs), He, Hn. cbn [orb].
  rewrite split_comma_join.
  - rewrite parse_loop. cbn [app]. apply sorted_set_ext. intros x.
    rewrite !list_elem_of_In, !filter_In, <- !list_elem_of_In.
    subst l. by rewrite elem_of_sorted.
  - by destruct l.
  - apply Forall_forall. intros x Hx.
    change (map str l) with (str <$> l) in Hx.
    apply list_elem_of_fmap in Hx as (k & -> & _). apply str_plain.
Qed.

Lemma filter_valid_months (months : list Z) :
  Forall is_month months -> List.filter valid_month months = months.
Proof.
  induction 1 as [|x l Hx Hl IH]; [done|].
  cbn [List.filter]. unfold is_month in Hx. by rewrite Hx, IH.
Qed.

Lemma parse_format_fixed (months : list Z) :
  StronglySorted Z.lt months -> Forall is_month months ->
  _parse_payment_months (_format_payment_months (Some months)) = months.
Proof.
  intros Hsorted Hvalid.
  rewrite parse_format_filter, (filter_valid_months _ Hvalid).
  by apply sorted_set_fixed.
Qed.

(** Writing a month list with [_format_payment_months] and reading it
    back with [_parse_payment_months] gives its valid months, sorted and
    without repetition; a strictly increasing list of months 1..12 comes
    back unchanged, and so does the missing list. *)
Theorem _parse_format_payment_months (months : list Z) :
  _parse_payment_months (_format_payment_months (Some months))
  = sorted_set (List.filter valid_month months)
  /\ (StronglySorted Z.lt months -> Forall is_month months ->
      _parse_payment_months (_format_payment_months (Some months)) = months)
  /\ _parse_payment_months (_format_payment_months None) = [].
Proof.
  split; [apply parse_format_filter|]. split; [apply parse_format_fixed|done].
Qed.

Lemma _parse_format_payment_months_witness :
  StronglySorted Z.lt [3; 6; 9; 12]
  /\ Forall is_month [3; 6; 9; 12]
  /\ _parse_payment_months (_format_payment_months (Some [3; 6; 9; 12]))
     = [3; 6; 9; 12].
Proof.
  assert (StronglySorted Z.lt [3; 6; 9; 12]) as Hsorted.
  { repeat constructor. }
  assert (Forall is_month [3; 6; 9; 12]) as Hvalid.
  { repeat constructor. }
  split; [exact Hsorted|]. split; [exact Hvalid|].
  exact (proj1 (proj2 (_parse_format_payment_months [3; 6; 9; 12]))
           Hsorted Hvalid).
Defined.

Lemma parse_months_data_ints (a : Asset.t) (months acc : list Z) :
  fold_left (fun payment_months m =>
               match m with
               | ItemInt m =>
                   if valid_month m then (payment_months ++ [m])%list
                   else payment_months
               | ItemStr m =>
                   if isdigit (strip m) then
                     let m_int := int (strip m) in
                     if valid_month m_int then (payment_months ++ [m_int])%list
                     else payment_months
                   else payment_months
               | ItemOther => payment_months
               end) (map ItemInt months) acc
  = (acc ++ List.filter valid_month months)%list.
Proof.
  revert acc. induction months as [|m l IH]; intros acc;
    cbn [map fold_left List.filter].
  - by rewrite app_nil_r.
  - rewrite IH. destruct (valid_month m); [|done]. by rewrite <- app_assoc.
Qed.

(** The payment months of a profile go unchanged through the storage
    ([_format_payment_months] on writing, [_parse_payment_months] on
    reading) and through the validation of the calendar aggregation, which
    then distributes the holding over exactly these months. *)
Theorem profile_months_survive (t : Ticker) (s : Series) (now1 now2 : Z)
    (a : Asset.t) :
  priced t ->
  dividends t = Returned s ->
  exists m,
    DividendAnalyzer.get_asset_metrics t now1 now2 = Some m
    /\ let months := DividendAnalyzer.dividend_payment_months m in
       let stored := _format_payment_months (Some months) in
       _parse_payment_months stored = months
       /\ (Asset.dividend_payment_months a
           = Val (MonthsList (map ItemInt (_parse_payment_months stored))) ->
           DividendHunterApp.parse_months_data a = months
           /\ (months <> [] -> DividendHunterApp.effective_months a = months)).
Proof.
  intros Hp Hs.
  destruct (get_asset_metrics_history t s now1 now2 Hp Hs)
    as (m & Hm & _ & _ & Hmonths).
  exists m. split; [done|]. cbv zeta.
  set (months := DividendAnalyzer.dividend_payment_months m) in *.
  assert (StronglySorted Z.lt months) as Hsorted.
  { rewrite Hmonths. apply sorted_set_StronglySorted. }
  assert (Forall is_month months) as Hvalid.
  { rewrite Hmonths. apply sorted_set_Forall, Forall_forall. intros x Hx.
    change (map ?f ?k) with (f <$> k) in Hx.
    apply list_elem_of_fmap in Hx as (y & -> & _). apply month_is_month. }
  rewrite (parse_format_fixed months Hsorted Hvalid). split; [done|].
  intros Ha.
  assert (DividendHunterApp.parse_months_data a = months) as Hparse.
  { unfold DividendHunterApp.parse_months_data. rewrite Ha.
    rewrite (parse_months_data_ints a). cbn [app].
    by apply filter_valid_months. }
  split; [done|]. intros Hne. unfold DividendHunterApp.effective_months.
  rewrite Hparse. by destruct months.
Qed.

Lemma profile_months_survive_witness :
  priced scenario_B
  /\ dividends scenario_B = Returned scenario_B_history
  /\ exists m,
       DividendAnalyzer.get_asset_metrics scenario_B (at_day 20089) (at_day 20089)
       = Some m
       /\ _parse_payment_months
            (_format_payment_months
               (Some (DividendAnalyzer.dividend_payment_months m)))
          = DividendAnalyzer.dividend_payment_months m
       /\ DividendHunterApp.effective_months scenario_B_stored
          = DividendAnalyzer.dividend_payment_months m.
Proof.
  split; [exact scenario_B_priced|]. split; [reflexivity|].
  destruct (profile_months_survive scenario_B scenario_B_history
              (at_day 20089) (at_day 20089) scenario_B_stored
              scenario_B_priced eq_refl) as (m & Hm & Hround & Hagg).
  exists m. split; [exact Hm|]. split; [exact Hround|].
  assert (DividendAnalyzer.dividend_payment_months m = [3; 6; 9; 12]) as Hmonths.
  { vm_compute in Hm. by injection Hm as <-. }
  apply Hagg.
  - rewrite Hmonths. vm_compute. reflexivity.
  - by rewrite Hmonths.
Defined.

End StoredMonths.

(** ** Invariants of the calendar *)

Section CalendarInvariants.

Import DividendHunterApp.

Variable shares_dict : gmap string Z.

Lemma for_each_pay_ind (P : gmap Z Month.t -> Prop) (a : Asset.t) (shares : Z)
    (amt : Q) (l : list Z) :
  (forall cal m e,
     m ∈ l -> P cal -> cal !! m = Some e ->
     P (<[m := grow e (payment_record a shares amt)]> cal)) ->
  forall cal cal',
    P cal -> for_each l (pay a shares amt) cal = Returned cal' -> P cal'.
Proof.
  induction l as [|m l IH]; intros Hstep cal cal' HP Hrun.
  - cbn in Hrun. by injection Hrun as <-.
  - cbn [for_each] in Hrun.
    destruct (pay a shares amt cal m) as [cal1|] eqn:Hpay;
      cbn [mbind result_bind] in Hrun; [|done].
    unfold pay in Hpay. destruct (cal !! m) as [e|] eqn:He; [|done].
    injection Hpay as <-.
    eapply IH; [| |exact Hrun].
    + intros cal0 k e0 Hk. apply Hstep. by right.
    + apply (Hstep cal m e); [by left|done..].
Qed.

Lemma asset_step_ind (P : gmap Z Month.t -> Prop) (a : Asset.t) :
  (included shares_dict a = true ->
   paying_label (frequency_of a) = true ->
   forall cal m e,
     m ∈ effective_months a -> P cal -> cal !! m = Some e ->
     P (<[m := grow e (holding_record shares_dict a)]> cal)) ->
  forall cal cal',
    P cal -> asset_step shares_dict cal a = Returned cal' -> P cal'.
Proof.
  intros Hstep cal cal' HP Hrun.
  destruct (included shares_dict a) eqn:Hinc.
  - destruct (paying_label (frequency_of a)) eqn:Hlabel.
    + rewrite (asset_step_paying shares_dict cal a Hinc Hlabel) in Hrun.
      eapply for_each_pay_ind; [|exact HP|exact Hrun].
      intros cal0 m e. by apply Hstep.
    + rewrite (asset_step_not_paying shares_dict cal a Hlabel) in Hrun.
      by injection Hrun as <-.
  - rewrite included_not_skipped in Hinc. apply negb_false_iff in Hinc.
    rewrite (asset_step_skipped shares_dict cal a Hinc) in Hrun.
    by injection Hrun as <-.
Qed.

(** Induction over the payments made by the aggregation: a property of
    the empty calendar that every payment of an included holding keeps
    holds of the result. *)
Lemma _calculate_monthly_dividends_ind (P : gmap Z Month.t -> Prop)
    (assets : list Asset.t) :
  P new_calendar ->
  (forall a cal m e,
     a ∈ assets -> included shares_dict a = true ->
     paying_label (frequency_of a) = true ->
     m ∈ effective_months a -> P cal -> cal !! m = Some e ->
     P (<[m := grow e (holding_record shares_dict a)]> cal)) ->
  forall cal,
    _calculate_monthly_dividends assets shares_dict = Returned cal -> P cal.
Proof.
  unfold _calculate_monthly_dividends. generalize new_calendar.
  induction assets as [|a assets IH]; intros cal0 HP Hstep cal Hrun.
  - cbn in Hrun. by injection Hrun as <-.
  - cbn [for_each] in Hrun.
    destruct (asset_step shares_dict cal0 a) as [cal1|] eqn:Ha;
      cbn [mbind result_bind] in Hrun; [|done].
    eapply IH; [| |exact Hrun].
    + eapply asset_step_ind; [|exact HP|exact Ha].
      intros Hinc Hlabel cal2 m e. apply Hstep; [by left|done..].
    + intros a0 cal2 m e Ha0. apply Hstep. by right.
Qed.

Lemma sum_amounts_snoc (l : list Contribution.t) (r : Contribution.t) :
  sum_amounts (l ++ [r]) = (sum_amounts l + Contribution.amount r)%Q.
Proof. unfold sum_amounts. by rewrite fold_left_app. Qed.

Lemma per_payment_pos (a : Asset.t) :
  included shares_dict a = true -> paying_label (frequency_of a) = true ->
  (0 < per_payment shares_dict a)%Q.
Proof.
  intros Hinc Hlabel. unfold per_payment.
  pose proof (effective_months_paying a Hlabel) as Hne.
  unfold included in Hinc. apply andb_true_iff in Hinc as [Hinc _].
  apply andb_true_iff in Hinc as [_ Htotal]. apply negb_true_iff in Htotal.
  assert (0 < total_annual shares_dict a)%Q as Hpos.
  { apply Qnot_le_lt. intros Hle. apply Qle_bool_iff in Hle. congruence. }
  apply Qlt_shift_div_l.
  - destruct (effective_months a); [done|]. unfold Qnat, Qlt. cbn. lia.
  - by rewrite Qmult_0_l.
Qed.

Lemma included_shares_pos (a : Asset.t) :
  included shares_dict a = true -> 0 < shares_of shares_dict a.
Proof.
  unfold included. intros Hinc. apply andb_true_iff in Hinc as [Hinc _].
  apply andb_true_iff in Hinc as [Hinc _]. by apply Z.ltb_lt in Hinc.
Qed.

Lemma new_calendar_lookup (m : Z) :
  is_month m ->
  new_calendar !! m = Some {| Month.amount := 0; Month.assets := [] |}.
Proof.
  intros Hm. apply is_month_seqZ in Hm. vm_compute in Hm. vm_compute new_calendar.
  repeat (apply elem_of_cons in Hm as [->|Hm]; [done|]).
  by apply elem_of_nil in Hm.
Qed.

Lemma new_calendar_lookup_None (m : Z) : ~ is_month m -> new_calendar !! m = None.
Proof.
  intros Hm. unfold new_calendar. apply not_elem_of_list_to_map_1.
  intros Hin. apply list_elem_of_fmap in Hin as ([k e] & -> & Hin).
  change (map ?f ?l) with (f <$> l) in Hin.
  apply list_elem_of_fmap in Hin as (j & [= -> _] & Hj).
  by apply is_month_seqZ in Hj.
Qed.

Lemma calendar_well_formed (assets : list Asset.t) (cal : gmap Z Month.t) :
  _calculate_monthly_dividends assets shares_dict = Returned cal ->
  well_formed shares_dict assets cal.
Proof.
  apply (_calculate_monthly_dividends_ind (well_formed shares_dict assets)).
  - split; [|split].
    + intros m. split.
      * intros [e He]. destruct (decide (is_month m)) as [|Hn]; [done|].
        by rewrite (new_calendar_lookup_None m Hn) in He.
      * intros Hm. rewrite (new_calendar_lookup m Hm). by eexists.
    + intros m. unfold amount_at, assets_at.
      destruct (decide (is_month m)) as [Hm|Hn].
      * by rewrite (new_calendar_lookup m Hm).
      * by rewrite (new_calendar_lookup_None m Hn).
    + intros m r. unfold assets_at.
      destruct (decide (is_month m)) as [Hm|Hn].
      * rewrite (new_calendar_lookup m Hm). cbn. by intros ?%elem_of_nil.
      * rewrite (new_calendar_lookup_None m Hn). by intros ?%elem_of_nil.
  - intros a cal0 m e Ha Hinc Hlabel Hm (Hkeys & Hsum & Hrec) He.
    split; [|split].
    + intros k. rewrite lookup_insert_is_Some, <- Hkeys.
      destruct (decide (m = k)) as [<-|]; [|naive_solver].
      split; [by eexists|by left].
    + intros k. rewrite amount_at_insert, assets_at_insert.
      case_bool_decide as Hk; [|apply Hsum]. subst k.
      specialize (Hsum m). unfold amount_at, assets_at in Hsum.
      rewrite He in Hsum. cbn [grow Month.amount Month.assets].
      by rewrite sum_amounts_snoc, Hsum.
    + intros k r. rewrite assets_at_insert.
      case_bool_decide as Hk; [|apply Hrec]. subst k.
      cbn [grow Month.assets]. rewrite elem_of_app, list_elem_of_singleton.
      intros [Hr| ->].
      * apply Hrec. unfold assets_at. by rewrite He.
      * by exists a.
Qed.

End CalendarInvariants.

Section CalendarShape.

Import DividendHunterApp.

(** The calendar returned by the aggregation has exactly the keys 1..12,
    whatever the portfolio. *)
Theorem calendar_keys (assets : list Asset.t) (shares_dict : gmap string Z) :
  exists cal,
    _calculate_monthly_dividends assets shares_dict = Returned cal
    /\ forall m, is_Some (cal !! m) <-> 1 <= m <= 12.
Proof.
  destruct (_calculate_monthly_dividends_returns assets shares_dict) as [cal Hcal].
  exists cal. split; [done|]. intros m.
  destruct (calendar_well_formed shares_dict assets cal Hcal) as (Hkeys & _).
  rewrite Hkeys. unfold is_month, valid_month.
  rewrite andb_true_iff, !Z.leb_le. done.
Qed.

(** In the calendar returned by the aggregation the amount of every month
    is the sum of the amounts of its records. *)
Theorem month_amount_is_sum_of_records (assets : list Asset.t)
    (shares_dict : gmap string Z) :
  exists cal,
    _calculate_monthly_dividends assets shares_dict = Returned cal
    /\ forall m, (amount_at cal m == sum_amounts (assets_at cal m))%Q.
Proof.
  destruct (_calculate_monthly_dividends_returns assets shares_dict) as [cal Hcal].
  exists cal. split; [done|].
  by destruct (calendar_well_formed shares_dict assets cal Hcal) as (_ & Hsum & _).
Qed.

(** Every record of the calendar is the record of a holding of the
    portfolio that passes the skip tests with a paying cadence, in one of
    its effective months: it carries the shares of that holding, which are
    positive, and its equal part of the annual total, which is positive. *)
Theorem records_are_holdings (assets : list Asset.t)
    (shares_dict : gmap string Z) :
  exists cal,
    _calculate_monthly_dividends assets shares_dict = Returned cal
    /\ forall m r,
         r ∈ assets_at cal m ->
         1 <= m <= 12
         /\ 0 < Contribution.shares r
         /\ (0 < Contribution.amount r)%Q
         /\ exists a,
              a ∈ assets /\ included shares_dict a = true
              /\ m ∈ effective_months a
              /\ Contribution.symbol r = Asset.symbol a
              /\ Contribution.shares r = shares_of shares_dict a
              /\ Contribution.amount r = per_payment shares_dict a.
Proof.
  destruct (_calculate_monthly_dividends_returns assets shares_dict) as [cal Hcal].
  exists cal. split; [done|]. intros m r Hr.
  destruct (calendar_well_formed shares_dict assets cal Hcal) as (_ & _ & Hrec).
  destruct (Hrec m r Hr) as (a & Ha & Hinc & Hlabel & Hm & ->).
  pose proof (effective_months_valid a) as Hvalid.
  rewrite Forall_forall in Hvalid. specialize (Hvalid m Hm).
  unfold is_month, valid_month in Hvalid.
  apply andb_true_iff in Hvalid as [H1 H2]. apply Z.leb_le in H1, H2.
  split; [lia|]. cbn. split; [by apply included_shares_pos|].
  split; [by apply per_payment_pos|]. by exists a.
Qed.

Lemma records_are_holdings_witness :
  exists cal r,
    _calculate_monthly_dividends [scenario_C_asset] scenario_C_shares = Returned cal
    /\ r ∈ assets_at cal 3
    /\ 0 < Contribution.shares r
    /\ (0 < Contribution.amount r)%Q.
Proof.
  destruct (records_are_holdings [scenario_C_asset] scenario_C_shares)
    as (cal & Hcal & Hrec).
  exists cal, (holding_record scenario_C_shares scenario_C_asset).
  assert (holding_record scenario_C_shares scenario_C_asset ∈ assets_at cal 3)
    as Hin.
  { vm_compute in Hcal. injection Hcal as <-. vm_compute. apply list_elem_of_here. }
  split; [exact Hcal|]. split; [exact Hin|].
  destruct (Hrec 3 _ Hin) as (_ & Hshares & Hamount & _).
  split; [exact Hshares | exact Hamount].
Defined.

Lemma sum_amounts_fold_right (l : list Contribution.t) :
  (sum_amounts l
   == fold_right (fun r acc => Contribution.amount r + acc) 0 l)%Q.
Proof.
  unfold sum_amounts.
  assert (forall a,
    (fold_left (fun acc r => acc + Contribution.amount r) l a
     == a + fold_right (fun r acc => Contribution.amount r + acc) 0 l)%Q) as H.
  { induction l as [|r l IH]; intros a; cbn [fold_left fold_right]; [ring|].
    rewrite IH. ring. }
  rewrite H. ring.
Qed.

Lemma amount_at_taxed (rates : gmap string Q) (cal : gmap Z Month.t) (m : Z) :
  amount_at (apply_taxes rates cal) m
  = sum_amounts (map (tax_contribution rates) (assets_at cal m)).
Proof.
  unfold amount_at, assets_at, apply_taxes. rewrite lookup_fmap.
  by destruct (cal !! m).
Qed.

(** Without tax (no rate stored for the symbols of the portfolio, or a
    rate of 0) the tax loop leaves the amount of every month as the
    aggregation computed it. *)
Theorem untaxed_months_unchanged (assets : list Asset.t)
    (shares_dict : gmap string Z) (rates : gmap string Q) :
  Forall (fun a => (rate_of rates (Asset.symbol a) == 0)%Q) assets ->
  exists cal,
    _calculate_monthly_dividends assets shares_dict = Returned cal
    /\ forall m, (amount_at (apply_taxes rates cal) m == amount_at cal m)%Q.
Proof.
  intros Hrates.
  destruct (_calculate_monthly_dividends_returns assets shares_dict) as [cal Hcal].
  exists cal. split; [done|]. intros m.
  destruct (calendar_well_formed shares_dict assets cal Hcal) as (_ & Hsum & Hrec).
  rewrite amount_at_taxed, (Hsum m), !sum_amounts_fold_right.
  specialize (Hrec m). induction (assets_at cal m) as [|r l IH]; [reflexivity|].
  cbn [map fold_right]. rewrite IH.
  - destruct (Hrec r) as (a & Ha & _ & _ & _ & ->); [by left|].
    rewrite Forall_forall in Hrates. specialize (Hrates a Ha).
    unfold rate_of in Hrates. cbn. rewrite Hrates. field.
  - intros r' Hr'. apply Hrec. by right.
Qed.

Lemma untaxed_months_unchanged_witness :
  Forall (fun a => (rate_of no_tax_rates (Asset.symbol a) == 0)%Q)
         [scenario_C_asset]
  /\ exists cal,
       _calculate_monthly_dividends [scenario_C_asset] scenario_C_shares
       = Returned cal
       /\ forall m,
            (amount_at (apply_taxes no_tax_rates cal) m == amount_at cal m)%Q.
Proof.
  assert (Forall (fun a => (rate_of no_tax_rates (Asset.symbol a) == 0)%Q)
                 [scenario_C_asset]) as Hrates.
  { repeat constructor. }
  split; [exact Hrates|].
  exact (untaxed_months_unchanged [scenario_C_asset] scenario_C_shares
           no_tax_rates Hrates).
Defined.

(** A holding that passes the skip tests with a paying cadence and usable
    stored months is distributed over these months in equal parts: a
    month receives, for each of its occurrences in the stored list, one
    record and the annual total divided by the length of the list. *)
Theorem stored_months_split (shares_dict : gmap string Z) (a : Asset.t)
    (cal : gmap Z Month.t) :
  included shares_dict a = true ->
  paying_label (frequency_of a) = true ->
  parse_months_data a <> [] ->
  has_all_months cal ->
  let months := parse_months_data a in
  let part := (total_annual shares_dict a / Qnat (length months))%Q in
  exists cal',
    asset_step shares_dict cal a = Returned cal'
    /\ forall m,
         (amount_at cal' m
          == amount_at cal m + Qnat (count_occ Z.eq_dec months m) * part)%Q
         /\ assets_at cal' m
            = (assets_at cal m
               ++ replicate (count_occ Z.eq_dec months m)
                    (payment_record a (shares_of shares_dict a) part))%list.
Proof.
  intros Hinc Hlabel Hstored Hall months part.
  assert (effective_months a = months) as Heff.
  { unfold effective_months. subst months. by destruct (parse_months_data a). }
  rewrite (asset_step_paying shares_dict cal a Hinc Hlabel), Heff. fold part.
  destruct (for_each_pay a (shares_of shares_dict a) part months cal Hall)
    as (cal' & Hrun & _ & _ & Hmonth).
  { subst months. apply parse_months_data_valid. }
  by exists cal'.
Qed.

Lemma stored_months_split_witness :
  included scenario_C_shares repeated_months_asset = true
  /\ paying_label (frequency_of repeated_months_asset) = true
  /\ parse_months_data repeated_months_asset = [5; 11; 5]
  /\ exists cal',
       asset_step scenario_C_shares new_calendar repeated_months_asset
       = Returned cal'
       /\ (amount_at cal' 5
           == amount_at new_calendar 5
              + Qnat 2 * (total_annual scenario_C_shares repeated_months_asset
                          / Qnat 3))%Q.
Proof.
  assert (parse_months_data repeated_months_asset = [5; 11; 5]) as Hparse
    by (vm_compute; reflexivity).
  split; [vm_compute; reflexivity|]. split; [reflexivity|].
  split; [exact Hparse|].
  destruct (stored_months_split scenario_C_shares repeated_months_asset
              new_calendar) as (cal' & Hrun & Hmonth).
  - vm_compute. reflexivity.
  - reflexivity.
  - by rewrite Hparse.
  - exact new_calendar_has_all_months.
  - exists cal'. split; [exact Hrun|].
    destruct (Hmonth 5) as [Hamt _]. rewrite Hparse in Hamt. exact Hamt.
Defined.

End CalendarShape.

(** ** Net amounts *)

Section NetAmounts.

Import DividendHunterApp.

Lemma fold_right_change (g g' : Z -> Q) (m : Z) (l : list Z) :
  NoDup l ->
  (forall k, k <> m -> g' k = g k) ->
  (fold_right (fun k acc => g' k + acc) 0 l
   == fold_right (fun k acc => g k + acc) 0 l
      + (if bool_decide (m ∈ l) then g' m - g m else 0))%Q.
Proof.
  intros Hnd Hother. induction Hnd as [|k l Hk Hnd IH]; cbn [fold_right].
  - rewrite bool_decide_eq_false_2 by apply not_elem_of_nil. ring.
  - rewrite IH. clear IH. destruct (decide (k = m)) as [->|Hne].
    + rewrite (bool_decide_eq_false_2 (m ∈ l)) by done.
      rewrite (bool_decide_eq_true_2 (m ∈ m :: l)) by apply list_elem_of_here.
      ring.
    + rewrite (Hother k Hne).
      assert (bool_decide (m ∈ k :: l) = bool_decide (m ∈ l)) as ->.
      { apply bool_decide_ext. rewrite elem_of_cons. naive_solver. }
      ring.
Qed.

Lemma weight_snoc (w : Contribution.t -> Q) (l : list Contribution.t)
    (r : Contribution.t) :
  (weight w (l ++ [r]) == weight w l + w r)%Q.
Proof.
  unfold weight. induction l as [|x l IH]; cbn [app fold_right]; [ring|].
  rewrite IH. ring.
Qed.

Lemma records_total_grow (w : Contribution.t -> Q) (cal : gmap Z Month.t)
    (m : Z) (e : Month.t) (r : Contribution.t) :
  is_month m -> cal !! m = Some e ->
  (records_total w (<[m := grow e r]> cal) == records_total w cal + w r)%Q.
Proof.
  intros Hm He. unfold records_total.
  rewrite (fold_right_change (fun k => weight w (assets_at cal k))
             (fun k => weight w (assets_at (<[m := grow e r]> cal) k)) m).
  - rewrite bool_decide_eq_true_2 by (by apply is_month_seqZ).
    rewrite assets_at_insert, bool_decide_eq_true_2 by done.
    cbn [grow Month.assets]. rewrite weight_snoc.
    assert (assets_at cal m = Month.assets e) as ->
      by (unfold assets_at; by rewrite He).
    ring.
  - apply NoDup_seqZ.
  - intros k Hk. by rewrite assets_at_insert, bool_decide_eq_false_2.
Qed.

Lemma for_each_pay_weight (w : Contribution.t -> Q) (a : Asset.t) (shares : Z)
    (amt : Q) (l : list Z) :
  forall cal cal' : gmap Z Month.t,
  Forall is_month l ->
  for_each l (pay a shares amt) cal = Returned cal' ->
  (records_total w cal'
   == records_total w cal + Qnat (length l) * w (payment_record a shares amt))%Q.
Proof.
  induction l as [|m l IH]; intros cal cal' Hl Hrun.
  - cbn in Hrun. injection Hrun as <-. unfold Qnat. cbn. ring.
  - apply Forall_cons in Hl as [Hm Hl]. cbn [for_each] in Hrun.
    destruct (pay a shares amt cal m) as [cal1|] eqn:Hpay;
      cbn [mbind result_bind] in Hrun; [|done].
    unfold pay in Hpay. destruct (cal !! m) as [e|] eqn:He; [|done].
    injection Hpay as <-. rewrite (IH _ _ Hl Hrun).
    change (<[m:=_]> cal) with (<[m := grow e (payment_record a shares amt)]> cal).
    rewrite (records_total_grow w cal m e _ Hm He).
    cbn [length]. rewrite Qnat_S. ring.
Qed.

(** The weight a holding adds to the records of the calendar. *)
Lemma asset_step_weight (w : Contribution.t -> Q) (shares_dict : gmap string Z)
    (a : Asset.t) (cal cal' : gmap Z Month.t) :
  asset_step shares_dict cal a = Returned cal' ->
  (records_total w cal'
   == records_total w cal
      + (if paying shares_dict a
         then Qnat (length (effective_months a)) * w (holding_record shares_dict a)
         else 0))%Q.
Proof.
  intros Hrun. unfold paying.
  destruct (included shares_dict a) eqn:Hinc; cbn [andb].
  - destruct (paying_label (frequency_of a)) eqn:Hlabel.
    + rewrite (asset_step_paying shares_dict cal a Hinc Hlabel) in Hrun.
      apply (for_each_pay_weight w _ _ _ _ _ _ (effective_months_valid a) Hrun).
    + rewrite (asset_step_not_paying shares_dict cal a Hlabel) in Hrun.
      injection Hrun as <-. ring.
  - rewrite included_not_skipped in Hinc. apply negb_false_iff in Hinc.
    rewrite (asset_step_skipped shares_dict cal a Hinc) in Hrun.
    injection Hrun as <-. ring.
Qed.

Lemma records_total_new_calendar (w : Contribution.t -> Q) :
  (records_total w new_calendar == 0)%Q.
Proof. vm_compute. reflexivity. Qed.

Lemma _calculate_monthly_dividends_weight (w : Contribution.t -> Q)
    (shares_dict : gmap string Z) (assets : list Asset.t) (cal : gmap Z Month.t) :
  _calculate_monthly_dividends assets shares_dict = Returned cal ->
  (records_total w cal
   == fold_right
        (fun a acc =>
           if paying shares_dict a
           then Qnat (length (effective_months a))
                * w (holding_record shares_dict a) + acc
           else acc) 0 assets)%Q.
Proof.
  unfold _calculate_monthly_dividends. intros Hrun.
  assert (forall cal0,
    for_each assets (asset_step shares_dict) cal0 = Returned cal ->
    (records_total w cal
     == records_total w cal0
        + fold_right
            (fun a acc =>
               if paying shares_dict a
               then Qnat (length (effective_months a))
                    * w (holding_record shares_dict a) + acc
               else acc) 0 assets)%Q) as Hgen.
  { clear Hrun. induction assets as [|a l IH]; intros cal0 Hrun.
    - cbn in Hrun. injection Hrun as <-. cbn [fold_right]. ring.
    - cbn [for_each] in Hrun.
      destruct (asset_step shares_dict cal0 a) as [cal1|] eqn:Ha;
        cbn [mbind result_bind] in Hrun; [|done].
      rewrite (IH cal1 Hrun), (asset_step_weight w shares_dict a cal0 cal1 Ha).
      cbn [fold_right]. destruct (paying shares_dict a); ring. }
  rewrite (Hgen new_calendar Hrun), records_total_new_calendar. ring.
Qed.

(** The net total of the records is the net annual total of the paying
    holdings. *)
Lemma records_total_net (shares_dict : gmap string Z) (rates : gmap string Q)
    (assets : list Asset.t) (cal : gmap Z Month.t) :
  _calculate_monthly_dividends assets shares_dict = Returned cal ->
  (records_total (net_of rates) cal
   == holdings_net (paying shares_dict) shares_dict rates assets)%Q.
Proof.
  intros Hcal. rewrite (_calculate_monthly_dividends_weight _ _ _ _ Hcal).
  clear Hcal. unfold holdings_net.
  induction assets as [|a assets IH]; cbn [fold_right]; [reflexivity|].
  destruct (paying shares_dict a) eqn:Hpaying; [|exact IH].
  rewrite IH.
  unfold paying in Hpaying. apply andb_true_iff in Hpaying as [_ Hlabel].
  pose proof (Qnat_length_nonzero _ (effective_months_paying a Hlabel)) as Hn.
  unfold net_of, net_annual, holding_record, per_payment, payment_record.
  cbn [Contribution.amount Contribution.symbol]. field. exact Hn.
Qed.

Lemma fold_right_Qeq (g g' : Z -> Q) (l : list Z) :
  (forall k, (g k == g' k)%Q) ->
  (fold_right (fun k acc => g k + acc) 0 l
   == fold_right (fun k acc => g' k + acc) 0 l)%Q.
Proof.
  intros Hg. induction l as [|k l IH]; cbn [fold_right]; [reflexivity|].
  by rewrite IH, Hg.
Qed.

Lemma weight_map (f : Contribution.t -> Contribution.t)
    (l : list Contribution.t) :
  (sum_amounts (map f l) == weight (fun r => Contribution.amount (f r)) l)%Q.
Proof.
  rewrite sum_amounts_fold_right. unfold weight.
  induction l as [|r l IH]; cbn [map fold_right]; [reflexivity|]. by rewrite IH.
Qed.

(** The sum over the months of a taxed calendar. *)
Lemma months_total_taxed (tm : Month.t -> Month.t)
    (f : Contribution.t -> Contribution.t) (cal : gmap Z Month.t) :
  (forall e, Month.amount (tm e) = sum_amounts (map f (Month.assets e))) ->
  (months_total (tm <$> cal)
   == records_total (fun r => Contribution.amount (f r)) cal)%Q.
Proof.
  intros Htm. unfold months_total, records_total. apply fold_right_Qeq.
  intros k. unfold amount_at, assets_at. rewrite lookup_fmap.
  destruct (cal !! k) as [e|]; cbn; [|reflexivity].
  rewrite Htm. apply weight_map.
Qed.

Lemma weight_Qeq (w w' : Contribution.t -> Q) (l : list Contribution.t) :
  (forall r, (w r == w' r)%Q) -> (weight w l == weight w' l)%Q.
Proof.
  intros Hw. unfold weight. induction l as [|r l IH]; cbn [fold_right];
    [reflexivity|]. by rewrite IH, Hw.
Qed.

Lemma records_total_Qeq (w w' : Contribution.t -> Q) (cal : gmap Z Month.t) :
  (forall r, (w r == w' r)%Q) ->
  (records_total w cal == records_total w' cal)%Q.
Proof.
  intros Hw. unfold records_total. apply fold_right_Qeq. intros k.
  by apply weight_Qeq.
Qed.

(** [sum(... for data in monthly_dividends.values())] is the sum over the
    twelve months. *)
Lemma sum_values_months_total (cal : gmap Z Month.t) :
  (sum_values cal == months_total cal)%Q.
Proof.
  unfold sum_values, values, months_total.
  assert (forall l a,
    (fold_left (fun acc data => acc + Month.amount data)
       (omap (fun m => cal !! m) l) a
     == a + fold_right (fun m acc => amount_at cal m + acc) 0 l)%Q) as H.
  { induction l as [|m l IH]; intros a; [cbn; ring|].
    cbn [omap list_omap fold_right]. unfold amount_at at 1.
    destruct (cal !! m) as [e|]; cbn [fold_left]; rewrite IH; ring. }
  rewrite H. ring.
Qed.

(** The projected annual total shown under the calendar is the sum, over
    the selected holdings that pass the skip tests with a paying cadence,
    of the annual total less its tax; the monthly average is a twelfth of
    it. *)
Theorem net_conservation (st : Session) (all_assets : list Asset.t)
    (cal : gmap Z Month.t) :
  _portfolio_calendar_tab st all_assets = Returned (Some cal) ->
  let shown := _display_dividend_calendar_totals cal in
  let net := holdings_net (paying (portfolio_shares st)) (portfolio_shares st)
               (portfolio_tax_rates st) (selected_assets st all_assets) in
  (fst shown == net)%Q /\ (snd shown == net / 12)%Q.
Proof.
  intros Htab shown net.
  destruct (_portfolio_calendar_tab_shown st all_assets cal Htab)
    as (cal0 & Hcal0 & ->).
  assert (fst shown == net)%Q as Htotal.
  { subst shown net. cbn [_display_dividend_calendar_totals fst].
    rewrite sum_values_months_total. unfold apply_taxes.
    rewrite (months_total_taxed _ (tax_contribution (portfolio_tax_rates st)))
      by done.
    rewrite <- (records_total_net _ _ _ _ Hcal0).
    apply records_total_Qeq. intros r. reflexivity. }
  split; [done|]. subst shown. cbn [_display_dividend_calendar_totals snd fst] in *.
  by rewrite Htotal.
Qed.

Lemma net_conservation_witness :
  _portfolio_calendar_tab scenario_C_session [scenario_C_asset]
  = Returned (Some scenario_C_calendar)
  /\ (fst (_display_dividend_calendar_totals scenario_C_calendar) == 170 # 1)%Q.
Proof.
  assert (_portfolio_calendar_tab scenario_C_session [scenario_C_asset]
          = Returned (Some scenario_C_calendar)) as Htab
    by (vm_compute; reflexivity).
  split; [exact Htab|].
  destruct (net_conservation scenario_C_session [scenario_C_asset]
              scenario_C_calendar Htab) as [Htotal _].
  rewrite Htotal. vm_compute. reflexivity.
Defined.

End NetAmounts.

(** ** The summary of the portfolio *)

Section SummaryTab.

Import DividendHunterApp.

Lemma holdings_net_split (sel : Asset.t -> bool) (shares_dict : gmap string Z)
    (rates : gmap string Q) (assets : list Asset.t) :
  (holdings_net keep_all shares_dict rates assets
   == holdings_net sel shares_dict rates assets
      + holdings_net (fun a => negb (sel a)) shares_dict rates assets)%Q.
Proof.
  unfold holdings_net, keep_all.
  induction assets as [|a l IH]; cbn [fold_right]; [ring|].
  destruct (sel a); cbn [negb]; rewrite IH; ring.
Qed.

Lemma holdings_net_none (sel : Asset.t -> bool) (shares_dict : gmap string Z)
    (rates : gmap string Q) (assets : list Asset.t) :
  Forall (fun a => sel a = true) assets ->
  (holdings_net (fun a => negb (sel a)) shares_dict rates assets == 0)%Q.
Proof.
  unfold holdings_net. induction 1 as [|a l Ha Hl IH]; cbn [fold_right];
    [reflexivity|]. by rewrite Ha.
Qed.

(** The totals accumulated over a list of holdings. *)
Lemma totals_fold (st : Session) (l : list Priced) (acc : Totals) :
  let T := fold_left (totals_step st) l acc in
  let sd := portfolio_shares st in
  let rates := portfolio_tax_rates st in
  (total_annual_dividend_after_tax T
   == total_annual_dividend_after_tax acc
      + holdings_net keep_all sd rates (map asset l))%Q
  /\ (total_annual_dividend_before_tax T
      == total_annual_dividend_before_tax acc
         + holdings_total keep_all sd (map asset l))%Q
  /\ (total_annual_dividend_after_tax T + total_tax_amount T
       - total_annual_dividend_before_tax T
      == total_annual_dividend_after_tax acc + total_tax_amount acc
         - total_annual_dividend_before_tax acc)%Q
  /\ (total_cost T - total_investment T
      == total_cost acc - total_investment acc)%Q.
Proof.
  revert acc. induction l as [|a l IH]; intros acc; cbv zeta.
  - cbn. repeat split; ring.
  - cbn [fold_left map]. destruct (IH (totals_step st acc a)) as (H1 & H2 & H3 & H4).
    cbv zeta in H1, H2, H3, H4.
    repeat split; [rewrite H1|rewrite H2|rewrite H3|rewrite H4]; clear;
      unfold holdings_net, holdings_total, keep_all, net_annual, total_annual,
        shares_of, rate_of, totals_step;
      cbn [fold_right total_annual_dividend_after_tax
           total_annual_dividend_before_tax total_tax_amount total_cost
           total_investment];
      ring.
Qed.

(** In the summary, the net annual dividend is the gross one less the
    tax.  The annual total of its taxed calendar is the net total of the
    held assets that the calendar distributes, so the net annual dividend
    exceeds it by the net total of the held assets that are not
    distributed, and the two agree when every held asset is distributed. *)
Theorem summary_totals (st : Session) (all_assets : list Priced) (sm : Summary) :
  _portfolio_summary_tab st all_assets = Returned (Some sm) ->
  let sd := portfolio_shares st in
  let rates := portfolio_tax_rates st in
  let held := held_assets st all_assets in
  let T := totals sm in
  (total_annual_dividend_after_tax T
   == total_annual_dividend_before_tax T - total_tax_amount T)%Q
  /\ (total_annual_dividend_before_tax T == holdings_total keep_all sd held)%Q
  /\ (total_monthly sm == holdings_net (paying sd) sd rates held)%Q
  /\ (total_annual_dividend_after_tax T
      == total_monthly sm
         + holdings_net (fun a => negb (paying sd a)) sd rates held)%Q
  /\ (Forall (fun a => paying sd a = true) held ->
      (total_annual_dividend_after_tax T == total_monthly sm)%Q)
  /\ (avg_monthly sm == total_monthly sm / 12)%Q.
Proof.
  intros Htab sd rates held T.
  unfold _portfolio_summary_tab in Htab.
  destruct (portfolio_selected st) eqn:Hsel; [done|]. rewrite <- Hsel in *.
  destruct (List.filter _ all_assets) as [|p0 sel0] eqn:Hselected; [done|].
  rewrite <- Hselected in *.
  destruct (List.filter _ (List.filter _ all_assets)) as [|p1 held0] eqn:Hheld;
    [done|].
  rewrite <- Hheld in *. fold (held_assets st all_assets) in Htab. fold held in Htab.
  destruct (_calculate_monthly_dividends held (portfolio_shares st))
    as [cal0|] eqn:Hcal; cbn [mbind result_bind] in Htab; [|done].
  injection Htab as <-. subst T.
  cbn [totals total_monthly avg_monthly].
  destruct (totals_fold st
              (List.filter
                 (fun a => 0 <? default 0 (portfolio_shares st
                                            !! Asset.symbol (asset a)))
                 (List.filter
                    (fun a => bool_decide (Asset.symbol (asset a)
                                             ∈ portfolio_selected st))
                    all_assets))
              {| total_cost := 0; total_annual_dividend_before_tax := 0;
                 total_annual_dividend_after_tax := 0;
                 total_tax_amount := 0; total_investment := 0 |})
    as (Hafter & Hbefore & Hdiff & _).
  cbv zeta in Hafter, Hbefore, Hdiff.
  cbn [total_annual_dividend_after_tax total_annual_dividend_before_tax
       total_tax_amount] in Hafter, Hbefore, Hdiff.
  fold (held_assets st all_assets) in Hafter, Hbefore. fold held in Hafter, Hbefore.
  fold sd rates in Hafter, Hbefore.
  set (T := fold_left (totals_step st) _ _) in *.
  assert (total_monthly_eq :
    (sum_values (tax_month_summary (portfolio_tax_rates st) <$> cal0)
     == holdings_net (paying sd) sd rates held)%Q).
  { subst sd rates. rewrite sum_values_months_total.
    rewrite (months_total_taxed _
               (tax_contribution_summary (portfolio_tax_rates st))) by done.
    rewrite <- (records_total_net (portfolio_shares st) (portfolio_tax_rates st)
                  held cal0 Hcal).
    apply records_total_Qeq. intros r. reflexivity. }
  assert (total_annual_dividend_after_tax T
          == sum_values (tax_month_summary (portfolio_tax_rates st) <$> cal0)
             + holdings_net (fun a => negb (paying sd a)) sd rates held)%Q
    as Hsplit.
  { rewrite Hafter, total_monthly_eq,
      (holdings_net_split (paying sd) sd rates held). ring. }
  split.
  { transitivity ((total_annual_dividend_after_tax T + total_tax_amount T
                   - total_annual_dividend_before_tax T)
                  + total_annual_dividend_before_tax T - total_tax_amount T)%Q;
      [ring|].
    rewrite Hdiff. ring. }
  split; [rewrite Hbefore; ring|]. split; [done|]. split; [done|].
  split; [|reflexivity].
  intros Hall. rewrite Hsplit, (holdings_net_none _ _ _ _ Hall). ring.
Qed.

Lemma summary_totals_witness :
  exists sm,
    _portfolio_summary_tab summary_session summary_assets = Returned (Some sm)
    /\ (total_annual_dividend_after_tax (totals sm) == 180 # 1)%Q
    /\ (total_monthly sm == 170 # 1)%Q
    /\ (total_annual_dividend_after_tax (totals sm)
        == total_monthly sm
           + holdings_net
               (fun a => negb (paying (portfolio_shares summary_session) a))
               (portfolio_shares summary_session)
               (portfolio_tax_rates summary_session)
               (held_assets summary_session summary_assets))%Q.
Proof.
  destruct (_portfolio_summary_tab summary_session summary_assets)
    as [[sm|]|] eqn:Htab; [|vm_compute in Htab; discriminate Htab..].
  exists sm. split; [reflexivity|].
  destruct (summary_totals summary_session summary_assets sm Htab)
    as (_ & _ & _ & Hsplit & _).
  assert (Some sm = scenario_C_summary) as Hsm.
  { unfold scenario_C_summary. by rewrite Htab. }
  split; [|split; [|exact Hsplit]].
  - vm_compute in Hsm. injection Hsm as ->. vm_compute. reflexivity.
  - vm_compute in Hsm. injection Hsm as ->. vm_compute. reflexivity.
Defined.

End SummaryTab.

(** ** Classifier and calendar together *)

Section ClassifiedPortfolios.

Import DividendHunterApp.

(** The classifier answers one of its four labels. *)
Lemma analyze_dividend_frequency_label (t : Ticker) (now : Z) :
  let f := DividendAnalyzer.analyze_dividend_frequency t now in
  f = "mensual" \/ f = "trimestral" \/ f = "irregular" \/ f = "sin_dividendos".
Proof.
  unfold DividendAnalyzer.analyze_dividend_frequency,
    DividendAnalyzer.analyze_dividend_frequency_body.
  destruct (dividends t) as [s|e]; cbn [mbind result_bind try_except]; [|tauto].
  destruct (empty s); cbn [try_except]; [tauto|].
  destruct (empty (since _ _)); cbn [try_except]; [tauto|]. cbv zeta.
  destruct (10 <=? _); cbn [try_except]; [tauto|].
  destruct (3 <=? _); cbn [try_except]; tauto.
Qed.

Lemma classified_included_paying (shares_dict : gmap string Z) (a : Asset.t)
    (t : Ticker) (now : Z) :
  frequency_of a = Some (DividendAnalyzer.analyze_dividend_frequency t now) ->
  paying shares_dict a = included shares_dict a.
Proof.
  intros Hf. unfold paying. destruct (included shares_dict a) eqn:Hinc; [|done].
  cbn [andb]. unfold included in Hinc. apply andb_true_iff in Hinc as [_ Hnone].
  apply negb_true_iff in Hnone. unfold paying_label. rewrite Hf in *.
  unfold is_freq in *.
  destruct (analyze_dividend_frequency_label t now) as [->|[->|[->|Hsd]]];
    try reflexivity.
  rewrite Hsd in Hnone. by rewrite bool_decide_eq_true_2 in Hnone.
Qed.

(** For a portfolio whose cadence labels are answers of the classifier,
    the sum over the twelve months of the gross amounts is the sum of
    annual_dividend_per_share * shares over the holdings with shares > 0,
    a positive annual total and a cadence other than 'sin_dividendos'. *)
Theorem classified_portfolio_conservation (assets : list Asset.t)
    (shares_dict : gmap string Z) :
  Forall (fun a => exists t now,
            frequency_of a
            = Some (DividendAnalyzer.analyze_dividend_frequency t now)) assets ->
  exists cal,
    _calculate_monthly_dividends assets shares_dict = Returned cal
    /\ (months_total cal
        == holdings_total (included shares_dict) shares_dict assets)%Q.
Proof.
  intros Hlabels.
  destruct (for_each_asset_step_total shares_dict assets new_calendar
              new_calendar_has_all_months) as (cal & Hrun & _ & Htot).
  exists cal. split; [done|]. rewrite Htot, months_total_new_calendar.
  rewrite Qplus_0_l. unfold holdings_total. clear cal Hrun Htot.
  induction Hlabels as [|a l (t & now & Ha) Hl IH]; cbn [fold_right];
    [reflexivity|].
  rewrite (classified_included_paying shares_dict a t now Ha).
  destruct (included shares_dict a); [|exact IH]. by rewrite IH.
Qed.

Lemma classified_portfolio_conservation_witness :
  Forall (fun a => exists t now,
            frequency_of a
            = Some (DividendAnalyzer.analyze_dividend_frequency t now))
         [classified_asset]
  /\ exists cal,
       _calculate_monthly_dividends [classified_asset] scenario_C_shares
       = Returned cal
       /\ (months_total cal
           == holdings_total (included scenario_C_shares) scenario_C_shares
                [classified_asset])%Q.
Proof.
  assert (Forall (fun a => exists t now,
                    frequency_of a
                    = Some (DividendAnalyzer.analyze_dividend_frequency t now))
                 [classified_asset]) as Hlabels.
  { constructor; [|constructor]. exists scenario_B, (at_day 20089). reflexivity. }
  split; [exact Hlabels|].
  exact (classified_portfolio_conservation [classified_asset] scenario_C_shares
           Hlabels).
Defined.

End ClassifiedPortfolios.

(** ** Ticker symbols *)

Section TickerSymbols.

Import ErrorHandler.

Lemma upper_char_classes (c : ascii) :
  is_space (upper_char c) = is_space c
  /\ is_digit (upper_char c) = is_digit c
  /\ is_lower (upper_char c) = false
  /\ (is_digit (upper_char c) || is_lower (upper_char c) || is_upper (upper_char c))
     = (is_digit c || is_lower c || is_upper c).
Proof. destruct c as [[] [] [] [] [] [] [] []]; by vm_compute. Qed.

Lemma upper_char_idemp (c : ascii) : upper_char (upper_char c) = upper_char c.
Proof.
  destruct (upper_char_classes c) as (_ & _ & Hlow & _).
  unfold upper_char at 1. by rewrite Hlow.
Qed.

Lemma upper_idemp (s : string) : upper (upper s) = upper s.
Proof.
  induction s as [|c r IH]; [done|]. cbn [upper]. by rewrite upper_char_idemp, IH.
Qed.

Lemma lstrip_upper (s : string) : lstrip (upper s) = upper (lstrip s).
Proof.
  induction s as [|c r IH]; [done|]. cbn [upper lstrip].
  destruct (upper_char_classes c) as (-> & _). by destruct (is_space c).
Qed.

Lemma rstrip_upper (s : string) : rstrip (upper s) = upper (rstrip s).
Proof.
  induction s as [|c r IH]; [done|]. cbn [upper rstrip]. rewrite IH.
  destruct (upper_char_classes c) as (-> & _).
  destruct (rstrip r); [by destruct (is_space c)|done].
Qed.

Lemma strip_upper (s : string) : strip (upper s) = upper (strip s).
Proof. unfold strip. by rewrite rstrip_upper, lstrip_upper. Qed.

Lemma rstrip_String (c : ascii) (r : string) :
  rstrip (String c r) = String c r -> rstrip r = r.
Proof.
  cbn [rstrip]. destruct (rstrip r) as [|c' r'] eqn:Hr.
  - destruct (is_space c); [done|]. by intros [= <-].
  - by intros [= <-].
Qed.

Lemma rstrip_lstrip_fixed (s : string) :
  rstrip s = s -> rstrip (lstrip s) = lstrip s.
Proof.
  induction s as [|c r IH]; [done|]. intros Hs. cbn [lstrip].
  destruct (is_space c); [|done]. apply IH. by apply rstrip_String in Hs.
Qed.

Lemma rstrip_cons (c : ascii) (r : string) :
  rstrip r <> EmptyString -> rstrip (String c r) = String c (rstrip r).
Proof. cbn [rstrip]. by destruct (rstrip r). Qed.

Lemma rstrip_idemp (s : string) : rstrip (rstrip s) = rstrip s.
Proof.
  induction s as [|c r IH]; [done|].
  destruct (rstrip r) as [|c' r'] eqn:Hr.
  - cbn [rstrip]. rewrite Hr.
    destruct (is_space c) eqn:Hc; [done|]. cbn [rstrip]. by rewrite Hc.
  - rewrite (rstrip_cons c r) by (by rewrite Hr). rewrite Hr.
    rewrite (rstrip_cons c (String c' r')) by (by rewrite IH).
    by rewrite IH.
Qed.

Lemma lstrip_idemp (s : string) : lstrip (lstrip s) = lstrip s.
Proof.
  induction s as [|c r IH]; [done|]. cbn [lstrip].
  destruct (is_space c) eqn:Hc; [done|]. cbn [lstrip]. by rewrite Hc.
Qed.

Lemma strip_idemp (s : string) : strip (strip s) = strip s.
Proof.
  unfold strip. rewrite (rstrip_lstrip_fixed (rstrip s)) by apply rstrip_idemp.
  apply lstrip_idemp.
Qed.

Lemma len_upper (s : string) : len (upper s) = len s.
Proof.
  unfold len. f_equal. induction s as [|c r IH]; [done|]. cbn. by rewrite IH.
Qed.

Lemma isalnum_upper (s : string) : isalnum (upper s) = isalnum s.
Proof.
  assert (all_alnum (upper s) = all_alnum s) as Hall.
  { induction s as [|c r IH]; [done|]. cbn [upper all_alnum].
    destruct (upper_char_classes c) as (_ & _ & _ & ->). by rewrite IH. }
  destruct s as [|c r]; [done|]. exact Hall.
Qed.

(** The validation of a ticker symbol does not depend on the blanks around
    it nor on the case of its letters: the symbol and its normal form
    [symbol.strip().upper()] are accepted together.  An accepted symbol
    has, once stripped, between one and five characters, all letters or
    digits. *)
Theorem validate_ticker_symbol_normal_form (symbol : string) :
  validate_ticker_symbol (upper (strip symbol)) = validate_ticker_symbol symbol
  /\ (validate_ticker_symbol symbol = true ->
      1 <= len (strip symbol) <= 5 /\ isalnum (strip symbol) = true).
Proof.
  split.
  - unfold validate_ticker_symbol.
    rewrite strip_upper, strip_idemp, upper_idemp.
    destruct (String.eqb_spec symbol "") as [->|Hs]; [done|].
    destruct (String.eqb_spec (upper (strip symbol)) "") as [->|Hn]; done.
  - unfold validate_ticker_symbol.
    destruct (String.eqb symbol ""); [done|]. cbv zeta.
    rewrite len_upper, isalnum_upper.
    destruct (Z.ltb_spec (len (strip symbol)) 1); [done|].
    destruct (Z.ltb_spec 5 (len (strip symbol))); [done|]. cbn [orb].
    destruct (isalnum (strip symbol)); [|done]. intros _. split; [lia|done].
Qed.

Lemma validate_ticker_symbol_normal_form_witness :
  validate_ticker_symbol " aapl  " = true
  /\ 1 <= len (strip " aapl  ") <= 5
  /\ isalnum (strip " aapl  ") = true.
Proof.
  assert (validate_ticker_symbol " aapl  " = true) as Hvalid by reflexivity.
  split; [exact Hvalid|].
  exact (proj2 (validate_ticker_symbol_normal_form " aapl  ") Hvalid).
Defined.

End TickerSymbols.

(** ** The table of assets *)

Section Table.

Import AssetsTable.

Lemma COALESCE_idemp {A : Type} (new old : option A) :
  COALESCE new (COALESCE new old) = COALESCE new old.
Proof. by destruct new. Qed.

Lemma bound_row_platforms (d : AssetData.t) (p : option string) (row : Row.t) :
  bound_row d p = Some row -> Row.platforms row = p.
Proof.
  unfold bound_row. destruct (AssetData.name d); [|done].
  cbn. by intros [= <-].
Qed.

(** An upsert of named data writes the bound row under the symbol. *)
Lemma upsert_asset_named (db : gmap string Row.t) (d : AssetData.t)
    (s n : string) :
  AssetData.symbol d = Some s ->
  AssetData.name d = Some n ->
  exists row,
    bound_row d (COALESCE (AssetData.platforms d) (platforms_of db s)) = Some row
    /\ upsert_asset db d = (true, <[s := row]> db).
Proof.
  intros Hs Hn. unfold upsert_asset, platforms_of. rewrite Hs.
  destruct (db !! s) as [old|] eqn:Hold; cbn [mbind option_bind].
  - unfold bound_row at 2. unfold bound_row. rewrite Hn. cbn [mbind option_bind].
    eexists. split; [reflexivity|]. cbv zeta.
    rewrite lookup_insert_eq. rewrite bool_decide_eq_true_2; [done|by eexists].
  - assert (COALESCE (AssetData.platforms d) None = AssetData.platforms d) as ->
      by (by destruct (AssetData.platforms d)).
    unfold bound_row. rewrite Hn. cbn [mbind option_bind].
    eexists. split; [reflexivity|]. cbv zeta.
    rewrite lookup_insert_eq. rewrite bool_decide_eq_true_2; [done|by eexists].
Qed.

Lemma upsert_asset_unnamed (db : gmap string Row.t) (d : AssetData.t) :
  AssetData.symbol d = None \/ AssetData.name d = None ->
  upsert_asset db d = (false, db).
Proof.
  intros [Hs|Hn]; unfold upsert_asset.
  - by rewrite Hs.
  - destruct (AssetData.symbol d) as [s|]; [|done].
    unfold bound_row. rewrite Hn. by destruct (db !! s).
Qed.

Lemma get_asset_insert_ne (db : gmap string Row.t) (s s' : string) (row : Row.t) :
  s' <> s -> get_asset (<[s := row]> db) s' = get_asset db s'.
Proof. intros Hne. unfold get_asset. by rewrite lookup_insert_ne. Qed.

(** Saving named data under a symbol and reading the symbol back gives
    the data: the month list comes back as its valid months, sorted and
    without repetition, and the platforms are the ones of the data or,
    when the data has none, the ones the symbol had before.  The other
    symbols are read as before. *)
Theorem upsert_asset_get_asset (db : gmap string Row.t) (d : AssetData.t)
    (s n : string) :
  AssetData.symbol d = Some s ->
  AssetData.name d = Some n ->
  let db' := snd (upsert_asset db d) in
  fst (upsert_asset db d) = true
  /\ (exists a,
        get_asset db' s = Some a
        /\ Asset.symbol (Stored.asset a) = s
        /\ Asset.name (Stored.asset a) = Val n
        /\ Asset.annual_dividend (Stored.asset a)
           = column (AssetData.annual_dividend d)
        /\ Asset.dividend_frequency (Stored.asset a)
           = column (AssetData.dividend_frequency d)
        /\ Asset.dividend_payment_months (Stored.asset a)
           = Val (MonthsList
                    (map ItemInt
                       (sorted_set
                          (List.filter valid_month
                             (default [] (AssetData.dividend_payment_months d))))))
        /\ Stored.current_price a = AssetData.current_price d
        /\ Stored.dividend_yield a = AssetData.dividend_yield d
        /\ Stored.platforms a
           = COALESCE (AssetData.platforms d) (platforms_of db s))
  /\ forall s', s' <> s -> get_asset db' s' = get_asset db s'.
Proof.
  intros Hs Hn db'.
  destruct (upsert_asset_named db d s n Hs Hn) as (row & Hrow & Hup).
  subst db'. rewrite Hup. cbn [fst snd]. split; [done|]. split.
  - unfold get_asset. rewrite lookup_insert_eq. eexists. split; [reflexivity|].
    unfold bound_row in Hrow. rewrite Hn in Hrow. cbn in Hrow.
    injection Hrow as <-. cbn.
    repeat (split; [done|]). split; [|done].
    do 3 f_equal.
    destruct (AssetData.dividend_payment_months d) as [months|].
    + apply parse_format_filter.
    + done.
  - intros s' Hne. by apply get_asset_insert_ne.
Qed.

Lemma upsert_asset_get_asset_witness :
  fst (upsert_asset scenario_B_table scenario_B_data) = true
  /\ (exists a,
        get_asset (snd (upsert_asset scenario_B_table scenario_B_data)) "KO" = Some a
        /\ Asset.dividend_payment_months (Stored.asset a)
           = Val (MonthsList [ItemInt 3; ItemInt 6; ItemInt 9; ItemInt 12])
        /\ Stored.platforms a = Some "IBKR, PREX").
Proof.
  destruct (upsert_asset_get_asset scenario_B_table scenario_B_data
              "KO" "Coca-Cola" eq_refl eq_refl)
    as (Hok & (a & Ha & _ & _ & _ & _ & Hm & _ & _ & Hp) & _).
  split; [exact Hok|]. exists a. split; [exact Ha|]. split; [exact Hm|exact Hp].
Defined.

(** An upsert fails exactly when the data has no symbol or no name, and a
    failed upsert leaves the table as it was. *)
Theorem upsert_asset_rejected (db : gmap string Row.t) (d : AssetData.t) :
  (fst (upsert_asset db d) = false
   <-> AssetData.symbol d = None \/ AssetData.name d = None)
  /\ (fst (upsert_asset db d) = false -> snd (upsert_asset db d) = db).
Proof.
  assert (fst (upsert_asset db d) = false ->
          AssetData.symbol d = None \/ AssetData.name d = None) as Hfail.
  { intros Hf. destruct (AssetData.symbol d) as [s|] eqn:Hs; [|by left].
    destruct (AssetData.name d) as [n|] eqn:Hn; [|by right].
    destruct (upsert_asset_named db d s n Hs Hn) as (row & _ & Hup).
    by rewrite Hup in Hf. }
  split.
  - split; [done|]. intros H. by rewrite (upsert_asset_unnamed db d H).
  - intros Hf. by rewrite (upsert_asset_unnamed db d (Hfail Hf)).
Qed.

Lemma upsert_asset_rejected_witness :
  fst (upsert_asset scenario_B_table unnamed_data) = false
  /\ snd (upsert_asset scenario_B_table unnamed_data) = scenario_B_table.
Proof.
  destruct (upsert_asset_rejected scenario_B_table unnamed_data) as [Hiff Hsame].
  assert (fst (upsert_asset scenario_B_table unnamed_data) = false) as Hf
    by (apply Hiff; right; reflexivity).
  split; [exact Hf|exact (Hsame Hf)].
Defined.

(** Saving the same data twice is saving it once. *)
Theorem upsert_asset_idempotent (db : gmap string Row.t) (d : AssetData.t) :
  upsert_asset (snd (upsert_asset db d)) d = upsert_asset db d.
Proof.
  destruct (AssetData.symbol d) as [s|] eqn:Hs;
    [|by rewrite !(upsert_asset_unnamed _ d) by (by left)].
  destruct (AssetData.name d) as [n|] eqn:Hn;
    [|by rewrite !(upsert_asset_unnamed _ d) by (by right)].
  destruct (upsert_asset_named db d s n Hs Hn) as (row & Hrow & Hup).
  rewrite Hup. cbn [snd].
  destruct (upsert_asset_named (<[s := row]> db) d s n Hs Hn)
    as (row' & Hrow' & Hup').
  rewrite Hup'. rewrite insert_insert_eq. do 2 f_equal.
  unfold platforms_of in Hrow'. rewrite lookup_insert_eq in Hrow'.
  cbn [mbind option_bind] in Hrow'.
  rewrite (bound_row_platforms _ _ _ Hrow), COALESCE_idemp in Hrow'.
  congruence.
Qed.

(** Deleting a symbol answers whether it was stored, removes it and
    leaves the other symbols; deleting after an upsert of a symbol that
    was not stored gives the table back. *)
Theorem delete_asset_get_asset (db : gmap string Row.t) (s : string) :
  let db' := snd (delete_asset db s) in
  (fst (delete_asset db s) = true <-> is_Some (get_asset db s))
  /\ get_asset db' s = None
  /\ (forall s', s' <> s -> get_asset db' s' = get_asset db s')
  /\ fst (delete_asset db' s) = false
  /\ forall d, AssetData.symbol d = Some s -> get_asset db s = None ->
       snd (delete_asset (snd (upsert_asset db d)) s) = db.
Proof.
  cbv zeta. unfold delete_asset. cbn [fst snd].
  assert (forall t, is_Some (get_asset t s) <-> is_Some (t !! s)) as Hget.
  { intros t. unfold get_asset.
    destruct (t !! s); split; intros [x Hx];
      first [discriminate Hx | by eexists]. }
  split; [by rewrite bool_decide_eq_true, Hget|].
  split; [unfold get_asset; by rewrite lookup_delete_eq|].
  split; [intros s' Hne; unfold get_asset; by rewrite lookup_delete_ne|].
  split.
  { rewrite lookup_delete_eq. apply bool_decide_eq_false_2. by intros [? ?]. }
  intros d Hs Hnone.
  assert (db !! s = None) as Hdb.
  { apply eq_None_not_Some. rewrite <- Hget, Hnone. by intros [? ?]. }
  destruct (AssetData.name d) as [n|] eqn:Hn.
  - destruct (upsert_asset_named db d s n Hs Hn) as (row & _ & Hup).
    rewrite Hup. cbn [snd]. by apply delete_insert_id.
  - rewrite (upsert_asset_unnamed db d) by (by right). cbn [snd].
    by apply delete_id.
Qed.

Lemma delete_asset_get_asset_witness :
  get_asset ∅ "KO" = None
  /\ snd (delete_asset (snd (upsert_asset ∅ scenario_B_data)) "KO") = ∅.
Proof.
  split; [reflexivity|].
  destruct (delete_asset_get_asset ∅ "KO") as (_ & _ & _ & _ & Hback).
  apply (Hback scenario_B_data); reflexivity.
Defined.

End Table.

(** ** The platforms of an asset *)

Section Platforms.

Import AssetsTable.

Lemma upper_char_comma (c : ascii) :
  Ascii.eqb (upper_char c) "," = Ascii.eqb c ",".
Proof. destruct c as [[] [] [] [] [] [] [] []]; vm_compute; reflexivity. Qed.

Lemma no_comma_upper (s : string) : no_comma (upper s) = no_comma s.
Proof.
  induction s as [|c r IH]; [done|].
  cbn [upper no_comma]. by rewrite upper_char_comma, IH.
Qed.

Lemma no_comma_lstrip (s : string) :
  no_comma s = true -> no_comma (lstrip s) = true.
Proof.
  induction s as [|c r IH]; [done|]. cbn [lstrip no_comma]. intros H.
  destruct (is_space c); [|done].
  apply andb_true_iff in H as [_ H]. by apply IH.
Qed.

Lemma no_comma_rstrip (s : string) :
  no_comma s = true -> no_comma (rstrip s) = true.
Proof.
  induction s as [|c r IH]; [done|]. cbn [rstrip no_comma]. intros H.
  apply andb_true_iff in H as [Hc H]. specialize (IH H).
  destruct (rstrip r) as [|c' r'].
  - destruct (is_space c); [done|]. cbn [no_comma]. by rewrite Hc.
  - cbn [no_comma] in *. by rewrite Hc, IH.
Qed.

Lemma no_comma_strip (s : string) :
  no_comma s = true -> no_comma (strip s) = true.
Proof. intros H. unfold strip. by apply no_comma_lstrip, no_comma_rstrip. Qed.

Lemma strip_space_cons (c : ascii) (s : string) :
  is_space c = true -> strip (String c s) = strip s.
Proof.
  intros Hc. unfold strip. cbn [rstrip].
  destruct (rstrip s) as [|c' r'].
  - by rewrite Hc.
  - cbn [lstrip]. by rewrite Hc.
Qed.

Lemma upper_nil (s : string) : upper s = "" -> s = "".
Proof. by destruct s. Qed.

Lemma split_comma_join_space (x : string) (r : list string) :
  Forall (fun x => no_comma x = true) (x :: r) ->
  split_comma (join ", " (x :: r)) = x :: map (String " ") r.
Proof.
  revert x. induction r as [|y r IH]; intros x Hx.
  - apply Forall_cons in Hx as [Hx _]. cbn [join map].
    by apply split_comma_single.
  - apply Forall_cons in Hx as [Hx Hr].
    change (join ", " (x :: y :: r))
      with (x ++ String "," (String " " (join ", " (y :: r)))).
    rewrite (split_comma_token x _ Hx). f_equal.
    cbn [split_comma]. change (Ascii.eqb " " ",") with false. cbv iota.
    by rewrite (IH y Hr).
Qed.

Lemma join_not_empty (sep x : string) (r : list string) :
  x <> "" -> String.eqb (join sep (x :: r)) "" = false.
Proof.
  intros Hx. destruct x as [|c x]; [done|]. by destruct r.
Qed.

(** The names written by [update_platforms] are not empty, carry no white
    space around them and no comma when the given names have none. *)
Lemma platform_names_plain (l : list string) :
  Forall (fun p => no_comma p = true) l ->
  Forall (fun x => x <> "" /\ strip x = x /\ no_comma x = true)
         (platform_names l).
Proof.
  intros Hl. unfold platform_names. apply Forall_forall. intros x Hx.
  change (map ?f ?k) with (f <$> k) in Hx.
  apply list_elem_of_fmap in Hx as (p & -> & Hp).
  apply list_elem_of_In, filter_In in Hp as [Hp Hne].
  rewrite Forall_forall in Hl. apply list_elem_of_In in Hp.
  specialize (Hl p Hp). apply negb_true_iff, String.eqb_neq in Hne.
  split; [intros H; by apply upper_nil in H|].
  split; [by rewrite strip_upper, strip_idemp|].
  rewrite no_comma_upper. by apply no_comma_strip.
Qed.

Lemma read_platforms (names : list string) :
  Forall (fun x => x <> "" /\ strip x = x /\ no_comma x = true) names ->
  (if String.eqb (join ", " names) "" then []
   else map strip
          (List.filter (fun p => negb (String.eqb (strip p) ""))
                       (split_comma (join ", " names))))
  = names.
Proof.
  destruct names as [|x r]; [done|]. intros Hn.
  pose proof Hn as Hn'. apply Forall_cons in Hn' as [(Hx & Hsx & Hcx) Hr].
  rewrite (join_not_empty ", " x r Hx).
  rewrite split_comma_join_space
    by (eapply Forall_impl; [exact Hn|]; by intros ? (_ & _ & ?)).
  cbn [List.filter map]. rewrite Hsx.
  destruct (String.eqb_spec x "") as [|_]; [done|]. cbn [negb map].
  rewrite Hsx. f_equal.
  clear Hn Hx Hsx Hcx. induction Hr as [|y r (Hy & Hsy & _) Hr IH]; [done|].
  cbn [map List.filter]. rewrite (strip_space_cons " " y) by done. rewrite Hsy.
  destruct (String.eqb_spec y "") as [|_]; [done|]. cbn [negb map].
  rewrite (strip_space_cons " " y) by done. by rewrite Hsy, IH.
Qed.

(** Writing the platforms of a stored symbol and reading them back gives
    the given names stripped and in upper case, the blank ones left out,
    when no name holds a comma; what the calendar reads of the symbol, and
    the other symbols, are unchanged.  For a symbol that is not stored the
    update answers [False] and changes nothing. *)
Theorem update_platforms_get_platforms (db : gmap string Row.t) (s : string)
    (l : list string) :
  Forall (fun p => no_comma p = true) l ->
  let db' := snd (update_platforms db s l) in
  (fst (update_platforms db s l) = true <-> is_Some (get_asset db s))
  /\ (is_Some (get_asset db s) -> get_platforms db' s = platform_names l)
  /\ (get_asset db s = None -> db' = db)
  /\ Stored.asset <$> get_asset db' s = Stored.asset <$> get_asset db s
  /\ forall s', s' <> s ->
       get_platforms db' s' = get_platforms db s'
       /\ get_asset db' s' = get_asset db s'.
Proof.
  intros Hl. cbv zeta. unfold update_platforms, get_asset.
  destruct (db !! s) as [row|] eqn:Hrow; cbn [fst snd].
  - split; [split; [by eexists|done]|].
    split.
    { intros _. unfold get_platforms. rewrite lookup_insert_eq.
      cbn [Row.platforms]. apply read_platforms.
      by apply platform_names_plain. }
    split; [done|]. split.
    { by rewrite lookup_insert_eq. }
    intros s' Hne. unfold get_platforms. by rewrite !lookup_insert_ne.
  - split; [split; [done|by intros [? ?]]|].
    split; [by intros [? ?]|]. split; [done|]. split; [by rewrite Hrow|].
    done.
Qed.

Lemma update_platforms_get_platforms_witness :
  get_platforms
    (snd (update_platforms scenario_B_table "KO" [" revolut"; "  "; "ibkr "])) "KO"
  = ["REVOLUT"; "IBKR"].
Proof.
  assert (Forall (fun p => no_comma p = true) [" revolut"; "  "; "ibkr "]) as Hl
    by (repeat constructor).
  destruct (update_platforms_get_platforms scenario_B_table "KO" _ Hl)
    as (_ & Hget & _).
  apply Hget. by eexists.
Defined.

(** The platforms written for a symbol survive a later upsert of data
    that names no platform, as the refresh of the metrics does. *)
Theorem platforms_survive_upsert (db : gmap string Row.t) (s n : string)
    (l : list string) (d : AssetData.t) :
  is_Some (get_asset db s) ->
  Forall (fun p => no_comma p = true) l ->
  AssetData.symbol d = Some s ->
  AssetData.name d = Some n ->
  AssetData.platforms d = None ->
  get_platforms (snd (upsert_asset (snd (update_platforms db s l)) d)) s
  = platform_names l.
Proof.
  intros Hstored Hl Hs Hn Hp.
  assert (exists row, db !! s = Some row) as [old Hold].
  { unfold get_asset in Hstored. destruct (db !! s); [by eexists|].
    by destruct Hstored. }
  unfold update_platforms. rewrite Hold. cbn [snd].
  match goal with |- context [upsert_asset ?t d] => set (db1 := t) end.
  destruct (upsert_asset_named db1 d s n Hs Hn) as (row & Hrow & Hup).
  rewrite Hup. cbn [snd]. unfold get_platforms. rewrite lookup_insert_eq.
  rewrite (bound_row_platforms _ _ _ Hrow), Hp.
  unfold platforms_of. subst db1. rewrite lookup_insert_eq.
  cbn [mbind option_bind Row.platforms COALESCE].
  apply read_platforms. by apply platform_names_plain.
Qed.

Lemma platforms_survive_upsert_witness :
  get_platforms
    (snd (upsert_asset
            (snd (update_platforms scenario_B_table "KO" [" revolut"; "ibkr "]))
            scenario_B_data)) "KO"
  = ["REVOLUT"; "IBKR"].
Proof.
  apply (platforms_survive_upsert scenario_B_table "KO" "Coca-Cola"
           [" revolut"; "ibkr "] scenario_B_data).
  - by eexists.
  - repeat constructor.
  - reflexivity.
  - reflexivity.
  - reflexivity.
Defined.

End Platforms.

(** ** From the feed to the table *)

Section Batch.

Import DividendAnalyzer.

Lemma round_half_even_bounds (a b : Z) (y : Q) :
  (inject_Z a <= y)%Q -> (y <= inject_Z b)%Q ->
  a <= round_half_even y <= b.
Proof.
  intros Ha Hb.
  assert (a <= Qfloor y) as Hfa.
  { rewrite <- (Qfloor_Z a). by apply Qfloor_resp_le. }
  assert (Qfloor y <= b) as Hfb.
  { rewrite <- (Qfloor_Z b). by apply Qfloor_resp_le. }
  unfold round_half_even. cbv zeta.
  destruct (Z.eq_dec (Qfloor y) b) as [Heq|Hne].
  - assert ((y - inject_Z (Qfloor y) ?= 1 # 2)%Q = Lt) as ->.
    { apply Qlt_alt. rewrite Heq.
      apply Qle_lt_trans with (y := 0%Q); [|done].
      apply (Qplus_le_l _ _ (inject_Z b)). ring_simplify. exact Hb. }
    lia.
  - destruct (_ ?= _)%Q; [destruct (Z.even _)|..]; lia.
Qed.

Lemma round2_percent (x : Q) :
  (0 <= x)%Q -> (x <= 100)%Q ->
  Qle_bool 0 (round2 x) = true /\ Qle_bool (round2 x) 100 = true.
Proof.
  intros H0 H100.
  destruct (round_half_even_bounds 0 10000 (x * 100)) as [Hlo Hhi].
  - change (inject_Z 0) with 0%Q. apply Qmult_le_0_compat; done.
  - change (inject_Z 10000) with (100 * 100)%Q.
    apply Qmult_le_compat_r; done.
  - unfold round2. split; apply Qle_bool_iff; unfold Qle; cbn; lia.
Qed.

(** The price and the yield of the metrics of [get_asset_metrics]. *)
Lemma get_asset_metrics_yield (t : Ticker) (s : Series) (now1 now2 : Z) (p : Q) :
  info_ok t = true ->
  price_of t = Some p ->
  dividends t = Returned s ->
  exists m,
    get_asset_metrics t now1 now2 = Some m
    /\ current_price m = p
    /\ dividend_yield m
       = round2 (if truthy p then window_total s now2 / p * 100 else 0).
Proof.
  intros Hinfo Hp Hs.
  unfold get_asset_metrics, get_ticker_data. rewrite Hinfo, Hp.
  unfold get_asset_metrics_body. rewrite Hs. cbn [mbind result_bind].
  destruct (empty s) eqn:He; cbn [negb].
  - eexists. split; [reflexivity|]. cbn. split; [done|].
    apply round2_comp. unfold window_total. rewrite (window_of_empty s now2 He).
    cbn [fold_right]. destruct (truthy p); [|reflexivity].
    unfold Qdiv. ring.
  - assert (forall s', rows s' = rows s ->
              (sum (since (now2 - Timedelta_days 365) s')
               == window_total s now2)%Q) as Hsum.
    { intros s' Hrows. rewrite <- sum_window. unfold sum, since. cbn [rows].
      by rewrite Hrows. }
    destruct (index_tz s); eexists; (split; [reflexivity|]);
      cbn -[sum since to_utc_naive window_total round2 truthy Qdiv Qmult];
      (split; [reflexivity|]); apply round2_comp;
      (destruct (truthy p); [|reflexivity]); by rewrite Hsum.
Qed.

Lemma positive_truthy (p : Q) : (0 < p)%Q -> truthy p = true.
Proof.
  unfold Qlt, truthy. cbn. intros H. apply negb_true_iff, Z.eqb_neq. lia.
Qed.

Lemma yield_percent (total p : Q) :
  (0 < p)%Q -> (0 <= total)%Q -> (total <= p)%Q ->
  (0 <= total / p * 100)%Q /\ (total / p * 100 <= 100)%Q.
Proof.
  intros Hp H0 H1. split.
  - apply Qmult_le_0_compat; [|done]. by apply Qle_shift_div_l; [|ring_simplify].
  - apply Qle_trans with (y := (1 * 100)%Q); [|done].
    apply Qmult_le_compat_r; [|done].
    apply Qle_shift_div_r; [done|]. by ring_simplify.
Qed.

(** A month list written by the table is read by the calendar as it is. *)
Lemma stored_months_read (a : Asset.t) (months : list Z) :
  Forall is_month months ->
  Asset.dividend_payment_months a = Val (MonthsList (map ItemInt months)) ->
  DividendHunterApp.parse_months_data a = months
  /\ (months <> [] -> DividendHunterApp.effective_months a = months).
Proof.
  intros Hvalid Ha.
  assert (DividendHunterApp.parse_months_data a = months) as Hparse.
  { unfold DividendHunterApp.parse_months_data. rewrite Ha.
    rewrite (parse_months_data_ints a). cbn [app].
    by apply filter_valid_months. }
  split; [done|]. intros Hne. unfold DividendHunterApp.effective_months.
  rewrite Hparse. by destruct months.
Qed.

Lemma metrics_dict_valid (symbol : string) (long_name : field string)
    (m : Metrics) :
  symbol <> "" ->
  (0 < current_price m)%Q ->
  Qle_bool 0 (dividend_yield m) = true ->
  Qle_bool (dividend_yield m) 100 = true ->
  DataValidator.validate_asset_metrics (metrics_dict symbol long_name m) = true.
Proof.
  intros Hsym Hp Hy0 Hy100. unfold DataValidator.validate_asset_metrics.
  cbn [metrics_dict AssetData.symbol AssetData.current_price
       AssetData.dividend_yield].
  destruct (String.eqb_spec (upper symbol) "") as [He|_];
    [by apply upper_nil in He|].
  destruct (Qle_bool (current_price m) 0) eqn:Hle.
  - apply Qle_bool_iff in Hle. exfalso. by apply (Qlt_not_le _ _ Hp).
  - by rewrite Hy0, Hy100.
Qed.

(** A ticker with a price, a name and a trailing dividend total between 0
    and the price (a yield between 0 and 100) is saved by the batch under
    its symbol in upper case, and the asset read back carries the cadence
    of the classifier, the annual dividend of the profile and its payment
    months; the calendar reads these months as they are and, when there is
    one, distributes the holding over them.  The platforms of the symbol
    are kept. *)
Theorem processed_ticker_reaches_calendar (db : gmap string Row.t)
    (symbol : string) (long_name : field string) (t : Ticker) (s : Series)
    (now1 now2 : Z) (p : Q) :
  info_ok t = true ->
  price_of t = Some p ->
  dividends t = Returned s ->
  symbol <> "" ->
  long_name <> PyNone ->
  (0 < p)%Q ->
  (0 <= window_total s now2)%Q ->
  (window_total s now2 <= p)%Q ->
  let step :=
    DividendHunterApp._process_tickers_batch_step db symbol long_name t now1 now2 in
  let months := sorted_set (map month (map fst (window s now2))) in
  fst step = Exitoso
  /\ exists m a,
       get_asset_metrics t now1 now2 = Some m
       /\ AssetsTable.get_asset (snd step) (upper symbol) = Some a
       /\ Asset.dividend_frequency (Stored.asset a)
          = Val (analyze_dividend_frequency t now1)
       /\ Asset.annual_dividend (Stored.asset a) = Val (annual_dividend m)
       /\ DividendHunterApp.parse_months_data (Stored.asset a) = months
       /\ (months <> [] ->
           DividendHunterApp.effective_months (Stored.asset a) = months)
       /\ Stored.platforms a = platforms_of db (upper symbol).
Proof.
  intros Hinfo Hp Hs Hsym Hname Hpos H0 H1. cbv zeta.
  assert (priced t) as Hpriced by (split; [done|by exists p]).
  destruct (get_asset_metrics_history t s now1 now2 Hpriced Hs)
    as (m & Hm & Hfreq & Hann & Hmonths).
  destruct (get_asset_metrics_yield t s now1 now2 p Hinfo Hp Hs)
    as (m' & Hm' & Hprice & Hyield).
  assert (m' = m) as -> by congruence.
  rewrite (positive_truthy p Hpos) in Hyield.
  destruct (yield_percent _ p Hpos H0 H1) as [Hy0 Hy1].
  destruct (round2_percent _ Hy0 Hy1) as [Hr0 Hr1]. rewrite <- Hyield in Hr0, Hr1.
  unfold DividendHunterApp._process_tickers_batch_step. rewrite Hm. cbv zeta.
  rewrite metrics_dict_valid by (by rewrite ?Hprice). cbn [negb].
  set (d := metrics_dict symbol long_name m).
  assert (exists n, AssetData.name d = Some n) as [n Hn].
  { subst d. cbn [metrics_dict AssetData.name]. destruct long_name; by eauto. }
  destruct (upsert_asset_named db d (upper symbol) n eq_refl Hn)
    as (row & Hrow & Hup).
  rewrite Hup. cbn [fst snd]. split; [done|]. exists m.
  unfold AssetsTable.get_asset. rewrite lookup_insert_eq.
  eexists. split; [done|]. split; [reflexivity|].
  unfold AssetsTable.bound_row in Hrow. rewrite Hn in Hrow.
  cbn [mbind option_bind] in Hrow.
  injection Hrow as <-. subst d.
  cbn [Stored.asset Stored.platforms Asset.dividend_frequency
    Asset.annual_dividend Row.annual_dividend Row.dividend_frequency
    Row.platforms Row.dividend_payment_months Row.name column metrics_dict
    AssetData.annual_dividend AssetData.dividend_frequency
    AssetData.dividend_payment_months AssetData.platforms COALESCE].
  split; [by rewrite Hfreq|]. split; [done|].
  assert (Forall is_month (sorted_set (map month (map fst (window s now2)))))
    as Hvalid.
  { apply sorted_set_Forall, Forall_forall. intros x Hx.
    change (map ?f ?k) with (f <$> k) in Hx.
    apply list_elem_of_fmap in Hx as (y & -> & _). apply month_is_month. }
  assert (DatabaseManager._parse_payment_months
            (DatabaseManager._format_payment_months
               (Some (dividend_payment_months m)))
          = sorted_set (map month (map fst (window s now2)))) as Hread.
  { rewrite Hmonths. apply parse_format_fixed; [|done].
    apply sorted_set_StronglySorted. }
  unfold DatabaseManager._format_payment_months in Hread. rewrite Hread.
  split; [by apply stored_months_read|].
  split; [by apply stored_months_read|done].
Qed.

Lemma processed_ticker_reaches_calendar_witness :
  let step :=
    DividendHunterApp._process_tickers_batch_step scenario_B_table "ko"
      (Val "Coca-Cola") scenario_B (at_day 20089) (at_day 20089) in
  fst step = Exitoso
  /\ exists a,
       AssetsTable.get_asset (snd step) "KO" = Some a
       /\ Asset.dividend_frequency (Stored.asset a) = Val "trimestral"
       /\ DividendHunterApp.effective_months (Stored.asset a) = [3; 6; 9; 12]
       /\ Stored.platforms a = Some "IBKR, PREX".
Proof.
  assert (0 <= window_total scenario_B_history (at_day 20089))%Q as H0
    by (vm_compute; discriminate).
  assert (window_total scenario_B_history (at_day 20089) <= 50 # 1)%Q as H1
    by (vm_compute; discriminate).
  assert ("ko" <> "") as Hsym by discriminate.
  assert (Val "Coca-Cola" <> PyNone) as Hname by discriminate.
  assert (0 < 50 # 1)%Q as Hpos by reflexivity.
  destruct (processed_ticker_reaches_calendar scenario_B_table "ko"
              (Val "Coca-Cola") scenario_B scenario_B_history
              (at_day 20089) (at_day 20089) (50 # 1)%Q
              eq_refl eq_refl eq_refl Hsym Hname Hpos H0 H1)
    as (Hok & m & a & _ & Ha & Hf & _ & _ & Hm & Hp).
  split; [exact Hok|]. exists a. split; [exact Ha|]. split; [exact Hf|].
  split; [|exact Hp]. apply Hm. vm_compute. discriminate.
Defined.

(** The batch changes the table only when the outcome is 'Exitoso', and
    then only the row of the symbol in upper case. *)
Theorem processed_ticker_frame (db : gmap string Row.t) (symbol : string)
    (long_name : field string) (t : Ticker) (now1 now2 : Z) :
  let step :=
    DividendHunterApp._process_tickers_batch_step db symbol long_name t now1 now2 in
  (fst step <> Exitoso -> snd step = db)
  /\ (fst step = Exitoso ->
      is_Some (AssetsTable.get_asset (snd step) (upper symbol)))
  /\ forall s', s' <> upper symbol ->
       AssetsTable.get_asset (snd step) s' = AssetsTable.get_asset db s'.
Proof.
  cbv zeta. unfold DividendHunterApp._process_tickers_batch_step.
  destruct (get_asset_metrics t now1 now2) as [m|]; [|done].
  cbv zeta. destruct (DataValidator.validate_asset_metrics _); [|done].
  cbn [negb]. set (d := metrics_dict symbol long_name m).
  destruct (AssetData.name d) as [n|] eqn:Hn.
  - destruct (upsert_asset_named db d (upper symbol) n eq_refl Hn)
      as (row & _ & Hup).
    rewrite Hup. cbn [fst snd]. split; [done|]. split.
    + intros _. unfold AssetsTable.get_asset. rewrite lookup_insert_eq.
      by eexists.
    + intros s' Hne. by apply get_asset_insert_ne.
  - rewrite (upsert_asset_unnamed db d) by (by right). cbn [fst snd]. done.
Qed.

Lemma processed_ticker_frame_witness :
  let step :=
    DividendHunterApp._process_tickers_batch_step scenario_B_table "ko"
      (Val "Coca-Cola") broken_feed (at_day 20089) (at_day 20089) in
  fst step <> Exitoso /\ snd step = scenario_B_table.
Proof.
  assert (fst (DividendHunterApp._process_tickers_batch_step scenario_B_table "ko"
                 (Val "Coca-Cola") broken_feed (at_day 20089) (at_day 20089))
          <> Exitoso) as Hne by discriminate.
  split; [exact Hne|].
  apply (processed_ticker_frame scenario_B_table "ko" (Val "Coca-Cola")
           broken_feed (at_day 20089) (at_day 20089)).
  exact Hne.
Defined.

End Batch.
